(** * The signal-scoring engine of [market_analyzer.py]

    A shallow embedding of [MarketAnalyzer]: the indicator library
    ([calculate_ema], [calculate_rsi], [calculate_macd],
    [calculate_bollinger_bands]), the timeframe scorer ([analyze_timeframe])
    and the multi-timeframe orchestrator ([analyze_market]).

    Numbers.  A Python/numpy float is modelled by an exact rational [Qc]
    extended with the three special values the code can produce: [NaN],
    [PInf] and [NInf].  Arithmetic is exact: rounding to binary64 is not
    modelled and zero carries no sign.  The one irrational operation, the
    square root inside the rolling standard deviation, is kept symbolic
    ([surd]) and compared exactly; the operations on [surd] are proved to
    agree with the real square root ([surd_to_R]).

    pandas.  The series operations the engine calls ([ewm], [rolling],
    [diff], [where], [iloc], [tail]) are written out after the documented
    behaviour of pandas; exceptions are values of [result].

    Rounding and the sign of zero.  Two places of the code show what exact
    arithmetic hides, and are stated apart.  The mean of a column is a
    rounded sum: a statement that needs the mean of equal numbers to be
    that number is made for the numbers binary64 sums exactly
    ([sums_exactly], [column_sums_exactly]).  The average loss of
    [calculate_rsi] is the mean of a negated column, a zero of either sign
    ([rs_signed]).

    Left out: logging (no influence on results) and the [timestamp] field
    of the final report (wall-clock time).

    The outside world.  The retrieval of the data ([get_market_data]) and
    the keep-alive monitor of [keep_alive.py] follow the scoring engine.
    What they read of the network and of the process table is an input; what
    they do to the outside world (downloads, sleeps, terminated and started
    processes) is returned as a list of [action]s. *)

From Stdlib Require Import ZArith QArith Qcanon Qcabs List String Ascii Lia Lqa.
From Stdlib Require Import Reals Qreals Lra.
From stdpp Require Import base decidable option numbers list strings gmap.
Import ListNotations.

(** ** Extended numbers *)

Inductive ext (A : Type) : Type :=
  | NaN
  | PInf
  | NInf
  | Fin (a : A).
Arguments NaN {A}.
Arguments PInf {A}.
Arguments NInf {A}.
Arguments Fin {A} a.

#[global] Instance ext_eq_dec `{EqDecision A} : EqDecision (ext A).
Proof. solve_decision. Defined.

Abbreviation num := (ext Qc).

(** A decimal literal of the source, e.g. [fl 1.2]. *)
Definition fl (x : Q) : Qc := Q2Qc x.
Arguments fl x%_Q.

Definition ext_add {A B C} (f : A -> B -> C) (x : ext A) (y : ext B) : ext C :=
  match x, y with
  | NaN, _ | _, NaN => NaN
  | PInf, NInf | NInf, PInf => NaN
  | PInf, _ | _, PInf => PInf
  | NInf, _ | _, NInf => NInf
  | Fin a, Fin b => Fin (f a b)
  end.

Definition ext_sub {A B C} (f : A -> B -> C) (x : ext A) (y : ext B) : ext C :=
  match x, y with
  | NaN, _ | _, NaN => NaN
  | PInf, PInf | NInf, NInf => NaN
  | PInf, _ | _, NInf => PInf
  | NInf, _ | _, PInf => NInf
  | Fin a, Fin b => Fin (f a b)
  end.

Definition nadd : num -> num -> num := ext_add Qcplus.
Definition nsub : num -> num -> num := ext_sub Qcminus.

Definition nneg (x : num) : num :=
  match x with
  | NaN => NaN
  | PInf => NInf
  | NInf => PInf
  | Fin a => Fin (- a)%Qc
  end.

(** [Some true] for a positive number, [Some false] for a negative one,
    [None] for zero and NaN. *)
Definition sign (x : num) : option bool :=
  match x with
  | NaN => None
  | PInf => Some true
  | NInf => Some false
  | Fin a =>
      if bool_decide (0 < a)%Qc then Some true
      else if bool_decide (a < 0)%Qc then Some false
      else None
  end.

Definition inf (positive : bool) : num := if positive then PInf else NInf.

Definition nmul (x y : num) : num :=
  match x, y with
  | NaN, _ | _, NaN => NaN
  | Fin a, Fin b => Fin (a * b)%Qc
  | _, _ =>
      match sign x, sign y with
      | Some s, Some t => inf (eqb s t)
      | _, _ => NaN
      end
  end.

Definition ndiv (x y : num) : num :=
  match x, y with
  | NaN, _ | _, NaN => NaN
  | Fin a, Fin b =>
      if bool_decide (b = 0%Qc) then
        match sign x with
        | Some s => inf s
        | None => NaN
        end
      else Fin (a / b)%Qc
  | Fin _, _ => Fin 0%Qc
  | PInf, Fin b => inf (negb (bool_decide (b < 0)%Qc))
  | NInf, Fin b => inf (bool_decide (b < 0)%Qc)
  | _, _ => NaN
  end.

(** [x < y] and [x > y] of Python: false as soon as one side is NaN. *)
Definition nlt (x y : num) : bool :=
  match x, y with
  | NaN, _ | _, NaN => false
  | _, NInf | PInf, _ => false
  | NInf, _ | _, PInf => true
  | Fin a, Fin b => bool_decide (a < b)%Qc
  end.

Definition ngt (x y : num) : bool := nlt y x.

Definition is_nan {A} (x : ext A) : bool :=
  match x with
  | NaN => true
  | _ => false
  end.

Definition nsum (xs : list num) : num := foldr nadd (Fin 0%Qc) xs.

#[global] Arguments nadd : simpl never.
#[global] Arguments nsub : simpl never.
#[global] Arguments nmul : simpl never.
#[global] Arguments ndiv : simpl never.
#[global] Arguments nlt : simpl never.
#[global] Arguments ngt : simpl never.

(** ** Square roots, kept symbolic

    [Surd a w false] stands for the real number [a + sqrt w] and
    [Surd a w true] for [a - sqrt w] ([0 <= w]).  A rational [a] is stored as
    [Surd a 0 false]. *)

Record surd : Type := Surd { rat : Qc; root : Qc; minus : bool }.

#[global] Instance surd_eq_dec : EqDecision surd.
Proof. solve_decision. Defined.

Definition mk_surd (a w : Qc) (m : bool) : surd :=
  if bool_decide (w = 0%Qc) then Surd a 0%Qc false else Surd a w m.

Definition surd_of_Qc (a : Qc) : surd := Surd a 0%Qc false.
Definition surd_sqrt (v : Qc) : surd := mk_surd 0%Qc v false.
Definition surd_scale (s : surd) (k : Qc) : surd :=
  mk_surd (rat s * k)%Qc (root s * (k * k))%Qc
    (xorb (minus s) (bool_decide (k < 0)%Qc)).
Definition Qc_add_surd (a : Qc) (s : surd) : surd :=
  mk_surd (a + rat s)%Qc (root s) (minus s).
Definition Qc_sub_surd (a : Qc) (s : surd) : surd :=
  mk_surd (a - rat s)%Qc (root s) (negb (minus s)).
Definition surd_neg (s : surd) : surd :=
  mk_surd (- rat s)%Qc (root s) (negb (minus s)).

(** [a < s], decided by comparing squares: [d < sqrt w] holds when [d < 0]
    or [d * d < w]; [d < - sqrt w] when [d < 0] and [w < d * d]. *)
Definition Qc_ltb_surd (a : Qc) (s : surd) : bool :=
  let d := (a - rat s)%Qc in
  if minus s
  then bool_decide (d < 0)%Qc && bool_decide (root s < d * d)%Qc
  else bool_decide (d < 0)%Qc || bool_decide (d * d < root s)%Qc.

(** [s < a], that is [- a < - s]. *)
Definition surd_ltb_Qc (s : surd) (a : Qc) : bool :=
  Qc_ltb_surd (- a)%Qc (surd_neg s).

Definition nsqrt (x : num) : ext surd :=
  match x with
  | NaN | NInf => NaN
  | PInf => PInf
  | Fin v => if bool_decide (v < 0)%Qc then NaN else Fin (surd_sqrt v)
  end.

(** A band value times a finite constant. *)
Definition smul (x : ext surd) (k : Qc) : ext surd :=
  match x with
  | NaN => NaN
  | Fin s => Fin (surd_scale s k)
  | PInf =>
      match sign (Fin k) with
      | Some s => if s then PInf else NInf
      | None => NaN
      end
  | NInf =>
      match sign (Fin k) with
      | Some s => if s then NInf else PInf
      | None => NaN
      end
  end.

(** ** Exceptions

    The two exceptions the series operations below can raise.  A computation
    that may raise returns a [result]. *)

Inductive exn : Type :=
  | IndexError
  | ValueError.

Inductive result (A : Type) : Type :=
  | Ok (a : A)
  | Raise (e : exn).
Arguments Ok {A} a.
Arguments Raise {A} e.

#[global] Instance exn_eq_dec : EqDecision exn.
Proof. solve_decision. Defined.

#[global] Instance result_eq_dec `{EqDecision A} : EqDecision (result A).
Proof. solve_decision. Defined.

#[global] Instance result_ret : MRet result := λ A, Ok.
#[global] Instance result_bind : MBind result := λ A B f m,
  match m with
  | Ok a => f a
  | Raise e => Raise e
  end.

(** ** Python built-ins *)

Definition py_max (a b : Qc) : Qc := if bool_decide (a < b)%Qc then b else a.
Definition py_min (a b : Qc) : Qc := if bool_decide (b < a)%Qc then b else a.
Definition py_sum (xs : list Z) : Z := foldr Z.add 0%Z xs.

(** [round(x, ndigits)]: to the nearest multiple of [10^-ndigits], a tie
    going to the even one. *)
Definition round_half_even (x : Qc) : Z :=
  let n := Qnum x in
  let d := Zpos (Qden x) in
  let f := (n / d)%Z in
  let r := (2 * (n mod d))%Z in
  if (r <? d)%Z then f
  else if (d <? r)%Z then (f + 1)%Z
  else if Z.even f then f else (f + 1)%Z.

Definition py_round (x : Qc) (ndigits : nat) : Qc :=
  let scale := Qc_of_Z (10 ^ Z.of_nat ndigits) in
  (Qc_of_Z (round_half_even (x * scale)) / scale)%Qc.

Definition nround (x : num) (ndigits : nat) : num :=
  match x with
  | Fin a => Fin (py_round a ndigits)
  | _ => x
  end.

(** ** pandas series operations *)

(** [s.iloc[i]]: a negative position counts from the end; a position
    outside the series raises IndexError. *)
Definition iloc {A} (xs : list A) (i : Z) : result A :=
  let j := if (i <? 0)%Z then (Z.of_nat (length xs) + i)%Z else i in
  if (j <? 0)%Z then Raise IndexError
  else match xs !! Z.to_nat j with
       | Some x => Ok x
       | None => Raise IndexError
       end.

(** [df.tail(n)]: the last [n] rows; none for [n = 0]; for a negative [n]
    all rows but the first [-n]. *)
Definition tail {A} (n : Z) (xs : list A) : list A :=
  if (n =? 0)%Z then []
  else if (n <? 0)%Z then drop (Z.to_nat (- n)) xs
  else drop (length xs - Z.to_nat n) xs.

(** [s.diff()]: NaN first, then the successive differences. *)
Definition diff (xs : list Qc) : list num :=
  match xs with
  | [] => []
  | _ :: rest => NaN :: zip_with (λ prev cur, Fin (cur - prev)%Qc) xs rest
  end.

(** [s.where(cond, other)]. *)
Definition where_ (cond : num -> bool) (other : num) (xs : list num) : list num :=
  (λ x, if cond x then x else other) <$> xs.

(** [s.rolling(window=w)]: position [i] sees the [w] values ending at [i];
    the first [w - 1] positions have too few observations and yield [nan]. *)
Definition rolling {A B} (window : nat) (f : list A -> B) (nan : B)
    (xs : list A) : list B :=
  (λ i, if (window <=? S i)%nat
        then f (take window (drop (S i - window) xs))
        else nan) <$> seq 0 (length xs).

(** [.mean()] of one window: a NaN inside leaves too few observations. *)
Definition win_mean (w : list num) : num :=
  if existsb is_nan w then NaN
  else ndiv (nsum w) (Fin (Qc_of_Z (Z.of_nat (length w)))).

(** [.std()] of one window: the sample standard deviation (ddof = 1). *)
Definition win_var (w : list num) : num :=
  if existsb is_nan w then NaN
  else
    let m := win_mean w in
    ndiv (nsum ((λ x, nmul (nsub x m) (nsub x m)) <$> w))
         (Fin (Qc_of_Z (Z.of_nat (length w) - 1))).

Definition win_std (w : list num) : ext surd := nsqrt (win_var w).

(** [s.mean()] of a whole column. *)
Definition mean (xs : list Qc) : num := win_mean (Fin <$> xs).

(** [s.ewm(span=span, adjust=False).mean()]: smoothing factor
    [2 / (span + 1)]; pandas rejects a span below 1 with a ValueError. *)
Fixpoint ewm_from (alpha prev : Qc) (xs : list Qc) : list Qc :=
  match xs with
  | [] => []
  | x :: rest =>
      let y := ((1 - alpha) * prev + alpha * x)%Qc in
      y :: ewm_from alpha y rest
  end.

Definition ewm_alpha (span : Z) : Qc := (fl 2 / Qc_of_Z (span + 1))%Qc.

Definition ewm_mean (span : Z) (xs : list Qc) : result (list Qc) :=
  if (span <? 1)%Z then Raise ValueError
  else match xs with
       | [] => Ok []
       | x :: rest => Ok (x :: ewm_from (ewm_alpha span) x rest)
       end.

(** ** Data model *)

Record candle : Type := Candle { Close : Qc; Volume : Qc }.

#[global] Instance candle_eq_dec : EqDecision candle.
Proof. solve_decision. Defined.

Abbreviation DataFrame := (list candle).

Inductive signal : Type := BUY | SELL | NEUTRAL.

#[global] Instance signal_eq_dec : EqDecision signal.
Proof. solve_decision. Defined.

Inductive bb_position : Type := normal | oversold | overbought.

#[global] Instance bb_position_eq_dec : EqDecision bb_position.
Proof. solve_decision. Defined.

(** The [indicators] dictionary; the three last keys are absent from the
    neutral default. *)
Record indicators : Type := Indicators {
  ind_confidence : Qc;
  ind_expiration : Z;
  ind_rsi : option num;
  ind_macd : option Qc;
  ind_bb_position : option bb_position
}.

#[global] Instance indicators_eq_dec : EqDecision indicators.
Proof. solve_decision. Defined.

Definition neutral_indicators (minutes : Z) : indicators :=
  Indicators (fl 50) minutes None None None.

(** The local variables of [analyze_timeframe] at its [return]. *)
Record locals : Type := Locals {
  v_price_change : num;
  v_volume_ratio : num;
  v_volume_strength : Z;
  v_last_rsi : num;
  v_macd_last : Qc;
  v_bb_position : bb_position;
  v_trend_signals : list Z;
  v_trend_strength : Qc;
  v_confidence : Qc;
  v_signal : signal
}.

#[global] Instance locals_eq_dec : EqDecision locals.
Proof. solve_decision. Defined.

Definition TIMEFRAMES : list Z := [1; 5; 15; 30]%Z.

(** ** Indicator library *)

Definition calculate_ema (data : list Qc) (period : Z) : result (list Qc) :=
  ewm_mean period data.

(** The local variables [gain], [loss] and [rs] of [calculate_rsi]. *)
Definition rsi_gain (data : list Qc) (period : nat) : list num :=
  rolling period win_mean NaN
    (where_ (λ d, ngt d (Fin (fl 0))) (Fin (fl 0)) (diff data)).

Definition rsi_loss (data : list Qc) (period : nat) : list num :=
  rolling period win_mean NaN
    (nneg <$> where_ (λ d, nlt d (Fin (fl 0))) (Fin (fl 0)) (diff data)).

Definition rsi_rs (data : list Qc) (period : nat) : list num :=
  zip_with ndiv (rsi_gain data period) (rsi_loss data period).

Definition calculate_rsi (data : list Qc) (period : nat) : list num :=
  (λ r, nsub (Fin (fl 100)) (ndiv (Fin (fl 100)) (nadd (Fin (fl 1)) r)))
    <$> rsi_rs data period.

Definition calculate_macd (data : list Qc) : result (list Qc * list Qc) :=
  exp1 ← ewm_mean 12 data;
  exp2 ← ewm_mean 26 data;
  let macd := zip_with Qcminus exp1 exp2 in
  signal ← ewm_mean 9 macd;
  mret (macd, signal).

Definition calculate_bollinger_bands (data : list Qc) (period : nat)
    : list (ext surd) * list (ext surd) :=
  let sma := rolling period win_mean NaN (Fin <$> data) in
  let std := rolling period win_std NaN (Fin <$> data) in
  let upper_band := zip_with (λ m s, ext_add Qc_add_surd m (smul s (fl 2))) sma std in
  let lower_band := zip_with (λ m s, ext_sub Qc_sub_surd m (smul s (fl 2))) sma std in
  (upper_band, lower_band).

(** Comparison of the current price with a band value. *)
Definition price_below (price : Qc) (band : ext surd) : bool :=
  match band with
  | NaN | NInf => false
  | PInf => true
  | Fin s => Qc_ltb_surd price s
  end.

Definition price_above (price : Qc) (band : ext surd) : bool :=
  match band with
  | NaN | PInf => false
  | NInf => true
  | Fin s => surd_ltb_Qc s price
  end.

(** ** Timeframe scorer *)

(** Volume strength from the volume ratio. *)
Definition volume_strength_of (volume_ratio : num) : Z :=
  if ngt volume_ratio (Fin (fl 1.5)) then 3%Z
  else if ngt volume_ratio (Fin (fl 1.2)) then 2%Z
  else if ngt volume_ratio (Fin (fl 1.0)) then 1%Z
  else 0%Z.

(** The four rules; each returns what it appends to [trend_signals]. *)
Definition ema_rule (ema_diff_percent : num) : list Z :=
  if ngt ema_diff_percent (Fin (fl 0.05)) then [1]%Z
  else if nlt ema_diff_percent (Fin (- fl 0.05)%Qc) then [-1]%Z
  else [].

Definition macd_rule (macd_diff macd_trend : Qc) : list Z :=
  if bool_decide (0 < macd_diff)%Qc
  then 1%Z :: (if bool_decide (0 < macd_trend)%Qc then [1%Z] else [])
  else (-1)%Z :: (if bool_decide (macd_trend < 0)%Qc then [(-1)%Z] else []).

Definition rsi_rule (last_rsi : num) : list Z :=
  if nlt last_rsi (Fin (fl 35)) then [2; 1]%Z
  else if ngt last_rsi (Fin (fl 65)) then [-2; -1]%Z
  else if nlt last_rsi (Fin (fl 45)) then [1]%Z
  else if ngt last_rsi (Fin (fl 55)) then [-1]%Z
  else [].

Definition bollinger_rule (current_price : Qc)
    (lower_band upper_band : list (ext surd)) : result (list Z * bb_position) :=
  lower_last ← iloc lower_band (-1);
  if price_below current_price lower_last then mret ([2]%Z, oversold)
  else
    upper_last ← iloc upper_band (-1);
    if price_above current_price upper_last then mret ([-2]%Z, overbought)
    else mret ([], normal).

Definition trend_strength_of (trend_signals : list Z) (volume_strength : Z) : Qc :=
  (Qc_of_Z (py_sum trend_signals) * (fl 1 + Qc_of_Z volume_strength * fl 0.2))%Qc.

Definition confidence_of (trend_strength : Qc) : Qc :=
  py_min (fl 95) (py_max (fl 50) (fl 50 + Qcabs trend_strength * fl 5)%Qc).

Definition signal_of (trend_strength : Qc) : signal :=
  if bool_decide (fl 1.2 <= Qcabs trend_strength)%Qc
  then if bool_decide (0 < trend_strength)%Qc then BUY else SELL
  else NEUTRAL.

(** The [try] block once [recent_data = df.tail(minutes)] is taken, up to the
    values it has computed when it reaches [return]. *)
Definition analyze_window (recent_data : DataFrame) : result locals :=
  let close_prices := Close <$> recent_data in
  let volume := Volume <$> recent_data in
  ema_7 ← calculate_ema close_prices 7;
  ema_21 ← calculate_ema close_prices 21;
  let rsi := calculate_rsi close_prices 14 in
  '(macd, macd_signal) ← calculate_macd close_prices;
  let '(upper_band, lower_band) := calculate_bollinger_bands close_prices 20 in
  start_price ← iloc close_prices 0;
  end_price ← iloc close_prices (-1);
  let price_change :=
    nmul (ndiv (Fin (end_price - start_price)%Qc) (Fin start_price)) (Fin (fl 100)) in
  let avg_volume := mean volume in
  current_volume ← iloc volume (-1);
  let volume_ratio :=
    if ngt avg_volume (Fin (fl 0)) then ndiv (Fin current_volume) avg_volume
    else Fin (fl 1.0) in
  let volume_strength := volume_strength_of volume_ratio in
  ema_7_last ← iloc ema_7 (-1);
  ema_21_last ← iloc ema_21 (-1);
  let ema_diff_percent :=
    nmul (ndiv (Fin (ema_7_last - ema_21_last)%Qc) (Fin ema_21_last)) (Fin (fl 100)) in
  let trend_signals := ema_rule ema_diff_percent in
  macd_last ← iloc macd (-1);
  macd_signal_last ← iloc macd_signal (-1);
  let macd_diff := (macd_last - macd_signal_last)%Qc in
  macd_prev ← iloc macd (-2);
  let macd_trend := (macd_last - macd_prev)%Qc in
  let trend_signals := trend_signals ++ macd_rule macd_diff macd_trend in
  last_rsi ← iloc rsi (-1);
  let trend_signals := trend_signals ++ rsi_rule last_rsi in
  current_price ← iloc close_prices (-1);
  '(bb_signals, bb) ← bollinger_rule current_price lower_band upper_band;
  let trend_signals := trend_signals ++ bb_signals in
  let trend_strength := trend_strength_of trend_signals volume_strength in
  let confidence := confidence_of trend_strength in
  let signal := signal_of trend_strength in
  mret (Locals price_change volume_ratio volume_strength last_rsi macd_last
          bb trend_signals trend_strength confidence signal).

Definition result_of_locals (minutes : Z) (v : locals)
    : signal * num * indicators * option exn :=
  (v_signal v, v_price_change v,
   Indicators (py_round (v_confidence v) 1) minutes
     (Some (nround (v_last_rsi v) 2)) (Some (py_round (v_macd_last v) 4))
     (Some (v_bb_position v)),
   None).

Definition analyze_timeframe (df : option DataFrame) (minutes : Z)
    : signal * num * indicators * option exn :=
  match df with
  | None => (NEUTRAL, Fin (fl 0), neutral_indicators minutes, None)
  | Some df =>
      if (Z.of_nat (length df) <? minutes)%Z
      then (NEUTRAL, Fin (fl 0), neutral_indicators minutes, None)
      else match analyze_window (tail minutes df) with
           | Ok v => result_of_locals minutes v
           | Raise e => (NEUTRAL, Fin (fl 0), neutral_indicators minutes, Some e)
           end
  end.

(** ** Multi-timeframe orchestrator *)

Inductive error_key : Type := NO_DATA | TIMEOUT_ERROR | GENERAL_ERROR.

Record timeframe_entry : Type := Entry {
  e_signal : signal;
  e_change : num;
  e_indicators : indicators
}.

#[global] Instance timeframe_entry_eq_dec : EqDecision timeframe_entry.
Proof. solve_decision. Defined.

Inductive report : Type :=
  | Error (message : string)
  | Analysis (current_price : Qc) (timeframes : gmap Z timeframe_entry).

#[global] Instance report_eq_dec : EqDecision report.
Proof. solve_decision. Defined.

(** Truth value of [error_message]: [None] and the empty string are false. *)
Definition truthy (error_message : option string) : bool :=
  match error_message with
  | None | Some EmptyString => false
  | Some _ => true
  end.

Section Orchestrator.

(** The table [MESSAGES[lang]['ERRORS']] of [config], which is not part of
    the analysed sources. *)
Variable error_messages : error_key -> string.

Definition record_timeframe (df : DataFrame)
    (timeframe_analysis : gmap Z timeframe_entry) (minutes : Z)
    : gmap Z timeframe_entry :=
  let '(signal, change, indicators, error) := analyze_timeframe (Some df) minutes in
  <[minutes := Entry signal change indicators]> timeframe_analysis.

Definition analyze_market_try (fetched : option DataFrame * option string)
    : result report :=
  let '(df, error_message) := fetched in
  if truthy error_message then mret (Error (default EmptyString error_message))
  else match df with
       | None => mret (Error (error_messages NO_DATA))
       | Some df =>
           if bool_decide (length df = 0%nat)
           then mret (Error (error_messages NO_DATA))
           else
             current_price ← iloc (Close <$> df) (-1);
             let timeframe_analysis := foldl (record_timeframe df) ∅ TIMEFRAMES in
             mret (Analysis current_price timeframe_analysis)
       end.

Definition analyze_market (fetched : option DataFrame * option string) : report :=
  match analyze_market_try fetched with
  | Ok r => r
  | Raise _ => Error (error_messages GENERAL_ERROR)
  end.

End Orchestrator.

(** ** Sample data *)

(** Thirty-five identical candles: close 100, the placeholder volume 1. *)
Definition flat_df : DataFrame := replicate 35 (Candle (fl 100) (fl 1)).

(** Thirty candles at a constant close, the last one with 10% more volume. *)
Definition uptick_df : DataFrame :=
  replicate 29 (Candle (fl 100) (fl 1)) ++ [Candle (fl 100) (fl 1.1)].

(** Thirty candles, the close rising 0.1% per step from [p0], the volume [vol]
    except on the last candle, where it doubles. *)
Definition rising_window (p0 vol : Qc) : DataFrame :=
  (λ i : nat, Candle (p0 * fl 1.001 ^ i)%Qc
                (if (i =? 29)%nat then (fl 2 * vol)%Qc else vol)) <$> seq 0 30.

(** ** Specification-side definitions *)

(** [clamp(x, lo, hi)] as the specification writes it. *)
Definition spec_clamp (x lo hi : Qc) : Qc :=
  if bool_decide (x < lo)%Qc then lo
  else if bool_decide (hi < x)%Qc then hi
  else x.

(** * The sign of a zero average loss

    Line 29 of [calculate_rsi] negates the loss column: where a difference
    is not negative the column holds [-0.0], which the model, whose zero has
    no sign, writes 0.  An average loss of zero is therefore the rolling
    mean of a window of [-0.0], and whether that mean is [-0.0] or [0.0] is
    decided inside pandas: its rolling mean returns the repeated value of a
    constant window as it stands from version 1.5 on, and the quotient of
    its running sum, [0.0], before.  [negative_zero] stands for that choice.
    The gain column is not negated and holds [0.0].

    The sign shows in [rs], and only where the average loss is zero. *)

Definition rs_signed (negative_zero : bool) (gain loss : num) : num :=
  if negative_zero && bool_decide (loss = Fin 0%Qc)
  then nneg (ndiv gain loss)
  else ndiv gain loss.

Definition rsi_rs_signed (negative_zero : bool) (data : list Qc) (period : nat)
    : list num :=
  zip_with (rs_signed negative_zero) (rsi_gain data period) (rsi_loss data period).

(** Line 31: [100 - (100 / (1 + rs))]. *)
Definition rsi_of_rs (rs : num) : num :=
  nsub (Fin (fl 100)) (ndiv (Fin (fl 100)) (nadd (Fin (fl 1)) rs)).

(** * The analyser object and the retrieval of market data

    [MarketAnalyzer] holds the symbol and the table of error messages of the
    current language.  The tables live in [config.MESSAGES], which is not
    part of the analysed sources: [MESSAGES] below maps a language code to
    its ['ERRORS'] table, supposed to hold the three keys the class reads. *)

Record MarketAnalyzer : Type := Analyzer {
  symbol : string;
  error_messages_of : error_key -> string
}.

Section Language.

Variable MESSAGES : gmap string (error_key -> string).

(** [__init__] and [set_language]; [None] stands for the KeyError of a
    language code that [MESSAGES] does not hold. *)
Definition __init__ (symbol : string) : option MarketAnalyzer :=
  errors ← MESSAGES !! "tg"%string;
  Some (Analyzer symbol errors).

Definition set_language (self : MarketAnalyzer) (lang_code : string)
    : option MarketAnalyzer :=
  errors ← MESSAGES !! lang_code;
  Some (Analyzer (symbol self) errors).

End Language.

(** What the code does to the outside world, in the order it does it:
    [Download] is a call of [ticker.history], [Sleep] one of [time.sleep],
    [Terminate] one of [proc.terminate()] that did not raise, [StartBot] the
    call [os.system('python bot.py &')] and [StartServer] one of [app.run]. *)
Inductive action : Type :=
  | Download
  | Sleep (seconds : Z)
  | Terminate (pid : Z)
  | StartBot
  | StartServer.

#[global] Instance action_eq_dec : EqDecision action.
Proof. solve_decision. Defined.

(** ** [get_market_data]

    What one attempt sees of the outside world.  [ticker.history] and the
    pandas calls on the frame it returns are not part of the analysed
    sources; an attempt is described by what the code tests:
    - [Raised]: [ticker.history] raises;
    - [Fetched empty columns resampled]: it returns a frame with [df.empty]
      and [df.columns] as given; [resampled] is what the steps from
      [reset_index] to [resample('1min').interpolate] make of that frame
      (with the placeholder volume where the column was missing), [None]
      when one of them raises. *)
Inductive attempt_outcome : Type :=
  | Raised
  | Fetched (empty : bool) (columns : list string) (resampled : option DataFrame).

(** How one pass through the body of a [for] loop ends. *)
Inductive flow (A : Type) : Type :=
  | Continue
  | Return (a : A).
Arguments Continue {A}.
Arguments Return {A} a.

Definition max_retries : nat := 3.
Definition retry_delay : Z := 2.
Definition required_columns : list string :=
  ["Open"; "High"; "Low"; "Close"]%string.

Section Retrieval.

Variable self : MarketAnalyzer.

(** [history attempt]: the outcome of the attempt numbered [attempt]. *)
Variable history : nat -> attempt_outcome.

(** [if attempt < max_retries - 1: time.sleep(retry_delay * (attempt + 1));
    continue] followed by [return None, self.error_messages[key]]; [acts]
    holds the actions done so far. *)
Definition retry_or_give_up (attempt : nat) (key : error_key) (acts : list action)
    : list action * flow (option DataFrame * option string) :=
  if (attempt <? max_retries - 1)%nat
  then (acts ++ [Sleep (retry_delay * (Z.of_nat attempt + 1))], Continue)
  else (acts, Return (None, Some (error_messages_of self key))).

(** The body of the retry loop. *)
Definition get_market_data_attempt (minutes : Z) (attempt : nat) (acts : list action)
    : list action * flow (option DataFrame * option string) :=
  let acts := acts ++ [Download] in
  match history attempt with
  | Raised => retry_or_give_up attempt TIMEOUT_ERROR acts
  | Fetched empty columns resampled =>
      if empty then retry_or_give_up attempt NO_DATA acts
      else
        let columns :=
          if bool_decide ("Volume"%string ∈ columns) then columns
          else columns ++ ["Volume"%string] in
        if negb (forallb (λ col, bool_decide (col ∈ columns)) required_columns)
        then (acts, Return (None, Some (error_messages_of self NO_DATA)))
        else
          match resampled with
          | None => retry_or_give_up attempt TIMEOUT_ERROR acts
          | Some df =>
              let data_points := Z.of_nat (length df) in
              if (data_points <? minutes)%Z
              then retry_or_give_up attempt NO_DATA acts
              else (acts, Return (Some (tail minutes df), None))
          end
  end.

(** [for attempt in range(max_retries)]; a loop that runs out of attempts
    falls to the end of the function, which then returns Python's [None]. *)
Fixpoint get_market_data_loop (minutes : Z) (attempts : list nat) (acts : list action)
    : list action * option (option DataFrame * option string) :=
  match attempts with
  | [] => (acts, None)
  | attempt :: rest =>
      match get_market_data_attempt minutes attempt acts with
      | (acts, Continue) => get_market_data_loop minutes rest acts
      | (acts, Return r) => (acts, Some r)
      end
  end.

Definition get_market_data (minutes : Z)
    : list action * option (option DataFrame * option string) :=
  get_market_data_loop minutes (seq 0 max_retries) [].

(** [max(TIMEFRAMES)]. *)
Definition py_max_of (xs : list Z) : Z :=
  match xs with
  | [] => 0%Z
  | x :: rest => foldl (λ m y, if (m <? y)%Z then y else m) x rest
  end.

(** [analyze_market] with its call of [get_market_data]: unpacking a
    returned [None] would raise, which the method answers with
    GENERAL_ERROR. *)
Definition analyze_market_run : list action * report :=
  let '(acts, fetched) := get_market_data (py_max_of TIMEFRAMES + 5) in
  (acts,
   match fetched with
   | Some fetched => analyze_market (error_messages_of self) fetched
   | None => Error (error_messages_of self GENERAL_ERROR)
   end).

End Retrieval.

(** * The keep-alive monitor of [keep_alive.py]

    The process table comes from [psutil]; a process is described by what
    the monitor reads of it and by how it answers [terminate()] and
    [wait(timeout=3)] ([None]: no exception). *)

Inductive psutil_error : Type :=
  | NoSuchProcess
  | AccessDenied
  | TimeoutExpired
  | OtherError.

#[global] Instance psutil_error_eq_dec : EqDecision psutil_error.
Proof. solve_decision. Defined.

(** A connection; [laddr_port] is [None] when [conn.laddr] has no [port]. *)
Record connection : Type := Connection { laddr_port : option Z }.

Record process : Type := Process {
  proc_pid : Z;
  proc_name : option string;
  proc_cmdline : option (list string);
  proc_connections : psutil_error + list connection;
  proc_terminate : option psutil_error;
  proc_wait : option psutil_error
}.

(** [hasattr(conn.laddr, 'port') and conn.laddr.port == port]. *)
Definition on_port (port : Z) (conn : connection) : bool :=
  bool_decide (laddr_port conn = Some port).

(** [check_port_in_use]; [None] for the connection table when
    [psutil.net_connections] raises. *)
Definition check_port_in_use (net_connections : option (list connection))
    (port : Z) : bool :=
  match net_connections with
  | Some conns => existsb (on_port port) conns
  | None => false
  end.

(** [except (psutil.NoSuchProcess, psutil.AccessDenied)]. *)
Definition skipped (e : psutil_error) : bool :=
  match e with
  | NoSuchProcess | AccessDenied => true
  | _ => false
  end.

(** The loop of [kill_process_on_port] over the process table.  An
    exception the inner handler does not name ends the function with
    [False]. *)
Fixpoint kill_process_loop (port : Z) (procs : list process) (acts : list action)
    : list action * bool :=
  match procs with
  | [] => (acts, false)
  | proc :: rest =>
      match proc_connections proc with
      | inl e =>
          if skipped e then kill_process_loop port rest acts else (acts, false)
      | inr connections =>
          if existsb (on_port port) connections then
            match proc_terminate proc with
            | Some e =>
                if skipped e then kill_process_loop port rest acts
                else (acts, false)
            | None =>
                let acts := acts ++ [Terminate (proc_pid proc)] in
                match proc_wait proc with
                | Some e =>
                    if skipped e then kill_process_loop port rest acts
                    else (acts, false)
                | None => (acts, true)
                end
            end
          else kill_process_loop port rest acts
      end
  end.

(** [kill_process_on_port]; [None] for the process table when
    [psutil.process_iter] raises. *)
Definition kill_process_on_port (process_iter : option (list process)) (port : Z)
    : list action * bool :=
  match process_iter with
  | Some procs => kill_process_loop port procs []
  | None => ([], false)
  end.

(** [s.lower()] on the ASCII letters, and [needle in s]. *)
Definition lower_ascii (c : ascii) : ascii :=
  let n := nat_of_ascii c in
  if (65 <=? n)%nat && (n <=? 90)%nat then ascii_of_nat (n + 32) else c.

Fixpoint lower (s : string) : string :=
  match s with
  | EmptyString => EmptyString
  | String c rest => String (lower_ascii c) (lower rest)
  end.

Fixpoint py_in (needle s : string) : bool :=
  String.prefix needle s
  || match s with
     | EmptyString => false
     | String _ rest => py_in needle rest
     end.

(** The test of [check_bot_process] on one process; [None] when the name is
    [None], whose [.lower()] raises an AttributeError. *)
Definition looks_like_bot (proc : process) : option bool :=
  let cmdline := String.concat " " (default [] (proc_cmdline proc)) in
  name ← proc_name proc;
  Some (py_in "python" (lower name) && py_in "bot.py" cmdline).

Fixpoint check_bot_process_loop (procs : list process) : option Z :=
  match procs with
  | [] => None
  | proc :: rest =>
      match looks_like_bot proc with
      | Some true => Some (proc_pid proc)
      | Some false => check_bot_process_loop rest
      | None => None
      end
  end.

Definition check_bot_process (process_iter : option (list process)) : option Z :=
  match process_iter with
  | Some procs => check_bot_process_loop procs
  | None => None
  end.

(** [check_bot_health]: [BOT_TOKEN] is the environment variable,
    [requests_get url] the status code of the answer, [None] when the
    request raises. *)
Definition check_bot_health (BOT_TOKEN : option string)
    (requests_get : string -> option Z) : bool :=
  match BOT_TOKEN with
  | None | Some EmptyString => false
  | Some bot_token =>
      let url := "https://api.telegram.org/bot" +:+ bot_token +:+ "/getMe" in
      match requests_get url with
      | Some status_code => (status_code =? 200)%Z
      | None => false
      end
  end.

(** Truth value of [bot_pid]: [None] and 0 are false. *)
Definition truthy_pid (bot_pid : option Z) : bool :=
  match bot_pid with
  | None | Some 0%Z => false
  | Some _ => true
  end.

Section Monitor.

Variable process_iter : option (list process).
Variable BOT_TOKEN : option string.
Variable requests_get : string -> option Z.

(** [psutil.Process(bot_pid)]: the process of that pid, [None] when it is
    gone. *)
Definition find_process (bot_pid : Z) : option process :=
  procs ← process_iter;
  List.find (λ proc, bool_decide (proc_pid proc = bot_pid)) procs.

(** [except (psutil.NoSuchProcess, psutil.AccessDenied,
    psutil.TimeoutExpired): pass]. *)
Definition passed (e : psutil_error) : bool :=
  match e with
  | NoSuchProcess | AccessDenied | TimeoutExpired => true
  | OtherError => false
  end.

(** The inner [try] of [monitor_bot]: the actions done and whether an
    exception escapes it. *)
Definition stop_bot (bot_pid : Z) : list action * bool :=
  match find_process bot_pid with
  | None => ([], false)
  | Some proc =>
      match proc_terminate proc with
      | Some e => ([], negb (passed e))
      | None =>
          ([Terminate bot_pid],
           match proc_wait proc with
           | Some e => negb (passed e)
           | None => false
           end)
      end
  end.

(** One pass through the body of [while True] in [monitor_bot]. *)
Definition monitor_bot_iteration : list action :=
  let bot_pid := check_bot_process process_iter in
  let bot_healthy :=
    if truthy_pid bot_pid then check_bot_health BOT_TOKEN requests_get else false in
  if bot_healthy then [Sleep 60]
  else
    let '(acts, escaped) :=
      match bot_pid with
      | Some pid => if truthy_pid bot_pid then stop_bot pid else ([], false)
      | None => ([], false)
      end in
    if escaped then acts ++ [Sleep 60]
    else acts ++ [StartBot; Sleep 60].

(** The status line of [home]. *)
Definition home : string :=
  let bot_pid := check_bot_process process_iter in
  let bot_health :=
    if truthy_pid bot_pid then check_bot_health BOT_TOKEN requests_get else false in
  if bot_health then "✅ Bot is running and healthy"
  else if truthy_pid bot_pid then "⚠️ Bot is running but not responding"
  else "❌ Bot is not running".

End Monitor.

(** [run] from [retries = 3] on, the port being known: [app_run attempt]
    tells whether the call of [app.run] numbered [attempt] raises.  The
    result is the list of actions and whether the last exception is raised
    again. *)
Definition retries : nat := 3.

Fixpoint run_loop (app_run : nat -> bool) (attempts : list nat) (acts : list action)
    : list action * bool :=
  match attempts with
  | [] => (acts, false)
  | attempt :: rest =>
      let acts := acts ++ [StartServer] in
      if app_run attempt then
        if (attempt <? retries - 1)%nat
        then run_loop app_run rest (acts ++ [Sleep 2])
        else (acts, true)
      else (acts, false)
  end.

Definition run (net_connections : option (list connection))
    (process_iter : option (list process)) (app_run : nat -> bool) (port : Z)
    : list action * bool :=
  let acts :=
    if check_port_in_use net_connections port
    then (kill_process_on_port process_iter port).1 ++ [Sleep 2]
    else [] in
  run_loop app_run (seq 0 retries) acts.

(** ** Auxiliary definitions for the proofs *)

Definition Qc_sum (xs : list Qc) : Qc := foldr Qcplus 0%Qc xs.

(** An admissible entry of the signal vector. *)
Definition contribution (z : Z) : Prop := z ∈ [-2; -1; 1; 2]%Z.

(** The entry the orchestrator stores for one scorer result. *)
Definition entry_of (r : signal * num * indicators * option exn) : timeframe_entry :=
  Entry r.1.1.1 r.1.1.2 r.1.2.

(** The differences the last [period]-step rolling window looks at. *)
Definition lookback (data : list Qc) (period : nat) : list num :=
  drop (length data - period) (diff data).

(** A finite number that is not negative, and one that is positive. *)
Definition nonneg_fin (x : num) : Prop := exists q : Qc, x = Fin q /\ (0 <= q)%Qc.
Definition pos_fin (x : num) : Prop := exists q : Qc, x = Fin q /\ (0 < q)%Qc.

(** Change of unit: every finite number multiplied by a positive [k]. *)
Definition nscale (k : Qc) (x : num) : num :=
  match x with
  | Fin a => Fin (k * a)%Qc
  | _ => x
  end.

Definition sscale (k : Qc) (s : surd) : surd :=
  mk_surd (k * rat s)%Qc (k * k * root s)%Qc (minus s).

Definition bscale (k : Qc) (x : ext surd) : ext surd :=
  match x with
  | Fin s => Fin (sscale k s)
  | _ => x
  end.

(** A series quoted in another unit of price and of volume. *)
Definition scale_df (k j : Qc) (df : DataFrame) : DataFrame :=
  (λ x, Candle (k * Close x)%Qc (j * Volume x)%Qc) <$> df.

Definition scale_locals (k : Qc) (v : locals) : locals :=
  Locals (v_price_change v) (v_volume_ratio v) (v_volume_strength v)
    (v_last_rsi v) (k * v_macd_last v)%Qc (v_bb_position v)
    (v_trend_signals v) (v_trend_strength v) (v_confidence v) (v_signal v).

(** The image of a result that was not raised. *)
Definition rmap {A B} (f : A -> B) (r : result A) : result B :=
  match r with
  | Ok a => Ok (f a)
  | Raise e => Raise e
  end.

(** The real number a [surd] stands for. *)
Definition surd_to_R (s : surd) : R :=
  (Q2R (rat s) + (if minus s then -1 else 1) * sqrt (Q2R (root s)))%R.

(** Thirty candles at a constant close without any volume. *)
Definition silent_df : DataFrame := replicate 30 (Candle (fl 100) (fl 0)).

(** The numbers [k / 2^e] of which binary64 holds the sum of [n] copies, and
    every partial sum, exactly.  On a column of [n] such numbers the mean
    the code computes is the rational mean of the model; on other columns
    the two can differ in the last place. *)
Definition sums_exactly (n : Z) (x : Qc) : Prop :=
  exists (k : Z) (e : nat),
    x = (Qc_of_Z k / Qc_of_Z (2 ^ Z.of_nat e))%Qc
    /\ (Z.abs k * n <= 2 ^ 53)%Z /\ (e <= 1000)%nat.

(** A column of numbers [k / 2^e] with one exponent [e] and numerators so
    small that binary64 holds every partial sum exactly and that a quotient
    of two sums is never within a rounding error of 1.0, 1.2 or 1.5. *)
Definition column_sums_exactly (xs : list Qc) : Prop :=
  exists e : nat,
    (e <= 1000)%nat
    /\ Forall (λ x, exists k : Z,
                  x = (Qc_of_Z k / Qc_of_Z (2 ^ Z.of_nat e))%Qc
                  /\ (Z.abs k * Z.of_nat (length xs) <= 2 ^ 40)%Z) xs.

(** Thirty candles at a constant close: fifteen of volume 1, then fifteen of
    volume 3.  The mean volume is 2 and the last volume 1.5 times the
    mean. *)
Definition pulse_df : DataFrame :=
  replicate 15 (Candle (fl 100) (fl 1)) ++ replicate 15 (Candle (fl 100) (fl 3)).

(** Thirty candles, the close falling by 1 per step from 200, volume 1. *)
Definition falling_df : DataFrame :=
  (λ i : nat, Candle (fl 200 - Qc_of_Z (Z.of_nat i))%Qc (fl 1)) <$> seq 0 30.

(** The attempts after which [get_market_data] tries again: a raised
    exception, an empty frame, a step of the pipeline that raises, too few
    rows.  A frame without one of the required columns is not among them. *)
Definition has_required_columns (columns : list string) : bool :=
  forallb (λ col, bool_decide (col ∈ columns)) required_columns.

Definition retried (minutes : Z) (o : attempt_outcome) : bool :=
  match o with
  | Raised => true
  | Fetched true _ _ => true
  | Fetched false columns resampled =>
      has_required_columns columns
      && match resampled with
         | None => true
         | Some df => (Z.of_nat (length df) <? minutes)%Z
         end
  end.

(** The frame a successful attempt delivers. *)
Definition delivered (minutes : Z) (o : attempt_outcome) : option DataFrame :=
  match o with
  | Fetched false columns (Some df) =>
      if has_required_columns columns && negb (Z.of_nat (length df) <? minutes)%Z
      then Some df else None
  | _ => None
  end.

(** The processes that hold a port. *)
Definition holds_port (port : Z) (proc : process) : Prop :=
  exists connections,
    proc_connections proc = inr connections
    /\ existsb (on_port port) connections = true.

(** An analyser and two histories to run the retrieval on: an empty frame
    followed by thirty-five good rows, and a frame without prices. *)
Definition demo_messages (key : error_key) : string :=
  match key with
  | NO_DATA => "no data"
  | TIMEOUT_ERROR => "timeout"
  | GENERAL_ERROR => "error"
  end.

Definition demo_analyzer : MarketAnalyzer := Analyzer "EURUSD=X" demo_messages.

Definition demo_history (attempt : nat) : attempt_outcome :=
  match attempt with
  | 0%nat => Fetched true [] None
  | _ => Fetched false ["Open"; "High"; "Low"; "Close"]%string (Some flat_df)
  end.

Definition priceless_history (attempt : nat) : attempt_outcome :=
  match attempt with
  | 0%nat => Fetched false ["Volume"]%string None
  | _ => Fetched false ["Open"; "High"; "Low"; "Close"]%string (Some flat_df)
  end.

(** A process table: an init process, a process whose name cannot be read,
    and the bot, listening on port 5000. *)
Definition init_process : process :=
  Process 1 (Some "systemd") (Some ["/sbin/init"])%string (inr [])
    (Some AccessDenied) None.

Definition unnamed_process : process :=
  Process 20 None None (inl AccessDenied) (Some AccessDenied) None.

Definition bot_process : process :=
  Process 30 (Some "Python3") (Some ["python3"; "bot.py"])%string
    (inr [Connection (Some 5000%Z)]) None None.

(** * Properties *)

(** ** Rational arithmetic *)

(** Order facts between atoms of [Qc], through linear arithmetic on [Q]. *)
Ltac qc_order :=
  try apply Qc_is_canon; unfold Qclt, Qcle in *; Lqa.lra.

Lemma Qc_of_Z_succ (n : Z) : Qc_of_Z (n + 1) = (Qc_of_Z n + 1)%Qc.
Proof.
  apply Qc_is_canon. unfold Qc_of_Z. simpl.
  rewrite Qred_correct. unfold Qeq. simpl. lia.
Qed.

Lemma Qc_of_Z_pos (n : Z) : (0 < n)%Z -> (0 < Qc_of_Z n)%Qc.
Proof. intros Hn. unfold Qclt, Qlt. simpl. lia. Qed.

Lemma Qc_of_Z_nonzero (n : Z) : (0 < n)%Z -> Qc_of_Z n <> 0%Qc.
Proof.
  intros Hn Heq. apply Qc_of_Z_pos in Hn. rewrite Heq in Hn.
  by apply Qclt_not_eq in Hn.
Qed.

(** Python's [min]/[max] on two arguments are monotone in the second. *)
Lemma py_max_mono (a x y : Qc) : (x <= y)%Qc -> (py_max a x <= py_max a y)%Qc.
Proof.
  intros Hxy. unfold py_max. repeat case_bool_decide; try done; qc_order.
Qed.

Lemma py_min_mono (a x y : Qc) : (x <= y)%Qc -> (py_min a x <= py_min a y)%Qc.
Proof.
  intros Hxy. unfold py_min. repeat case_bool_decide.
  - done.
  - by apply Qclt_le_weak.
  - exfalso. eauto using Qcle_lt_trans.
  - apply Qcle_refl.
Qed.

Lemma py_max_bounds (a x : Qc) : (a <= py_max a x)%Qc /\ (x <= py_max a x)%Qc.
Proof.
  unfold py_max. case_bool_decide; split;
    auto using Qcle_refl, Qclt_le_weak, Qcnot_lt_le.
Qed.

Lemma py_min_bounds (a x : Qc) : (py_min a x <= a)%Qc /\ (py_min a x <= x)%Qc.
Proof.
  unfold py_min. case_bool_decide; split;
    auto using Qcle_refl, Qclt_le_weak, Qcnot_lt_le.
Qed.

(** ** What a successful run of the scorer has computed *)

Ltac bind_inv H :=
  unfold mbind, result_bind in H;
  repeat match type of H with
         | match ?m with Ok _ => _ | Raise _ => _ end = Ok _ =>
             let E := fresh "E" in destruct m eqn:E; [|discriminate H]
         | (let '(_, _) := ?p in _) = Ok _ =>
             let E := fresh "E" in destruct p eqn:E
         end.

Lemma Ok_inj {A} (a b : A) : Ok a = Ok b -> a = b.
Proof. congruence. Qed.

Ltac locals_proj :=
  cbn [v_price_change v_volume_ratio v_volume_strength v_last_rsi v_macd_last
       v_bb_position v_trend_signals v_trend_strength v_confidence v_signal].

Lemma analyze_window_inv (recent_data : DataFrame) (v : locals) :
  analyze_window recent_data = Ok v ->
  let close_prices := Close <$> recent_data in
  let volume := Volume <$> recent_data in
  exists (current_volume current_price : Qc) (ema_diff_percent : num)
         (macd_diff macd_trend : Qc) (bb_signals : list Z),
    iloc volume (-1) = Ok current_volume
    /\ v_volume_ratio v =
         (if ngt (mean volume) (Fin (fl 0))
          then ndiv (Fin current_volume) (mean volume) else Fin (fl 1.0))
    /\ v_volume_strength v = volume_strength_of (v_volume_ratio v)
    /\ iloc (calculate_rsi close_prices 14) (-1) = Ok (v_last_rsi v)
    /\ iloc close_prices (-1) = Ok current_price
    /\ bollinger_rule current_price
         (calculate_bollinger_bands close_prices 20).2
         (calculate_bollinger_bands close_prices 20).1
       = Ok (bb_signals, v_bb_position v)
    /\ v_trend_signals v =
         ema_rule ema_diff_percent ++ macd_rule macd_diff macd_trend
           ++ rsi_rule (v_last_rsi v) ++ bb_signals
    /\ v_trend_strength v = trend_strength_of (v_trend_signals v) (v_volume_strength v)
    /\ v_confidence v = confidence_of (v_trend_strength v)
    /\ v_signal v = signal_of (v_trend_strength v).
Proof.
  intros H. unfold analyze_window in H. cbv zeta. bind_inv H.
  unfold mret, result_ret in H. apply Ok_inj in H. subst v. locals_proj.
  cbn [fst snd].
  eexists _, _, _, _, _, _. rewrite <- !(assoc_L (++)).
  repeat split; first [eassumption | reflexivity].
Qed.

Lemma analyze_timeframe_ok (df : DataFrame) (minutes : Z) (v : locals) :
  (minutes <= Z.of_nat (length df))%Z ->
  analyze_window (tail minutes df) = Ok v ->
  analyze_timeframe (Some df) minutes = result_of_locals minutes v.
Proof.
  intros Hlen Hv. unfold analyze_timeframe.
  destruct (Z.ltb_spec (Z.of_nat (length df)) minutes) as [?|_]; [lia|].
  by rewrite Hv.
Qed.

Lemma analyze_timeframe_raise (df : DataFrame) (minutes : Z) (e : exn) :
  (minutes <= Z.of_nat (length df))%Z ->
  analyze_window (tail minutes df) = Raise e ->
  analyze_timeframe (Some df) minutes
  = (NEUTRAL, Fin (fl 0), neutral_indicators minutes, Some e).
Proof.
  intros Hlen Hv. unfold analyze_timeframe.
  destruct (Z.ltb_spec (Z.of_nat (length df)) minutes) as [?|_]; [lia|].
  by rewrite Hv.
Qed.

(** ** The signal threshold *)

Lemma signal_of_buy (ts : Qc) : (fl 1.2 <= ts)%Qc -> signal_of ts = BUY.
Proof.
  intros Hts. unfold signal_of.
  assert (0 < ts)%Qc as Hpos by (eapply Qclt_le_trans; [|exact Hts]; done).
  rewrite !bool_decide_eq_true_2; [done|done|].
  etrans; [exact Hts|apply Qcle_Qcabs].
Qed.

Lemma signal_of_sell (ts : Qc) : (ts <= - fl 1.2)%Qc -> signal_of ts = SELL.
Proof.
  intros Hts. unfold signal_of.
  assert (ts < 0)%Qc as Hneg by (eapply Qcle_lt_trans; [exact Hts|done]).
  rewrite bool_decide_eq_true_2, bool_decide_eq_false_2; [done| |].
  - intros Hpos. by apply (Qclt_not_le _ _ Hpos), Qclt_le_weak.
  - rewrite Qcabs_neg by by apply Qclt_le_weak.
    apply Qcopp_le_compat in Hts. by rewrite Qcopp_involutive in Hts.
Qed.

Lemma signal_of_neutral (ts : Qc) : (Qcabs ts < fl 1.2)%Qc -> signal_of ts = NEUTRAL.
Proof.
  intros Hts. unfold signal_of. rewrite bool_decide_eq_false_2; [done|].
  by apply Qclt_not_le.
Qed.

(** C3.  For every window the scorer analyses, the emitted signal is BUY when
    the trend strength is at least 1.2, SELL when it is at most -1.2 and
    NEUTRAL when its magnitude is below 1.2; the threshold is inclusive:
    magnitude 1.2 gives BUY or SELL, magnitude 1.1999 gives NEUTRAL. *)
Theorem signal_threshold (df : DataFrame) (minutes : Z) (v : locals) :
  (minutes <= Z.of_nat (length df))%Z ->
  analyze_window (tail minutes df) = Ok v ->
  let trend_strength := v_trend_strength v in
  let emitted := (analyze_timeframe (Some df) minutes).1.1.1 in
  ((fl 1.2 <= trend_strength)%Qc -> emitted = BUY)
  /\ ((trend_strength <= - fl 1.2)%Qc -> emitted = SELL)
  /\ ((Qcabs trend_strength < fl 1.2)%Qc -> emitted = NEUTRAL)
  /\ signal_of (fl 1.2) = BUY /\ signal_of (- fl 1.2) = SELL
  /\ signal_of (fl 1.1999) = NEUTRAL /\ signal_of (- fl 1.1999) = NEUTRAL.
Proof.
  intros Hlen Hv ts emitted.
  assert (emitted = signal_of ts) as ->.
  { unfold emitted. rewrite (analyze_timeframe_ok _ _ _ Hlen Hv).
    apply analyze_window_inv in Hv as (?&?&?&?&?&?&?&?&?&?&?&?&?&?&?&Hs).
    exact Hs. }
  repeat split;
    auto using signal_of_buy, signal_of_sell, signal_of_neutral.
Qed.

(** The threshold is reached: a flat price and a last volume 10% above the
    others give a trend strength of exactly -1.2, hence SELL. *)
Lemma signal_threshold_witness :
  exists v : locals,
    (30 <= Z.of_nat (length uptick_df))%Z
    /\ analyze_window (tail 30 uptick_df) = Ok v
    /\ v_trend_strength v = (- fl 1.2)%Qc
    /\ (analyze_timeframe (Some uptick_df) 30).1.1.1 = SELL.
Proof.
  destruct (analyze_window (tail 30 uptick_df)) as [v|e] eqn:Hv;
    [|vm_compute in Hv; discriminate Hv].
  assert (v_trend_strength v = (- fl 1.2)%Qc) as Hts.
  { pose proof Hv as Hv'. vm_compute in Hv'. apply Ok_inj in Hv'.
    rewrite <- Hv'. compute_done. }
  exists v. split; [compute_done|]. split; [done|]. split; [done|].
  pose proof (signal_threshold uptick_df 30 v ltac:(compute_done) Hv) as H.
  cbv zeta in H. destruct H as (_ & H & _). apply H.
  rewrite Hts. apply Qcle_refl.
Defined.

(** ** The confidence clamp *)

Lemma Qc_of_Z_add (a b : Z) : Qc_of_Z (a + b) = (Qc_of_Z a + Qc_of_Z b)%Qc.
Proof.
  apply Qc_is_canon. unfold Qc_of_Z. simpl.
  rewrite Qred_correct. unfold Qeq. simpl. lia.
Qed.

Lemma Qc_of_Z_mul (a b : Z) : Qc_of_Z (a * b) = (Qc_of_Z a * Qc_of_Z b)%Qc.
Proof.
  apply Qc_is_canon. unfold Qc_of_Z. simpl.
  rewrite Qred_correct. unfold Qeq. simpl. lia.
Qed.

Lemma Qc_of_Z_abs (a : Z) : Qcabs (Qc_of_Z a) = Qc_of_Z (Z.abs a).
Proof. apply Qc_is_canon. unfold Qc_of_Z. simpl. done. Qed.

Lemma round_half_even_Z (z : Z) : round_half_even (Qc_of_Z z) = z.
Proof.
  unfold round_half_even. simpl.
  rewrite Z.mod_1_r, Z.div_1_r. done.
Qed.

(** Rounding leaves an integer unchanged. *)
Lemma py_round_Z (z : Z) (ndigits : nat) : py_round (Qc_of_Z z) ndigits = Qc_of_Z z.
Proof.
  unfold py_round. rewrite <- Qc_of_Z_mul, round_half_even_Z, Qc_of_Z_mul.
  field. apply Qc_of_Z_nonzero. lia.
Qed.

Lemma volume_strength_range (volume_ratio : num) :
  (0 <= volume_strength_of volume_ratio <= 3)%Z.
Proof. unfold volume_strength_of. repeat case_match; lia. Qed.

(** With a volume strength between 0 and 3 the confidence is a whole number. *)
Lemma trend_strength_times_5 (trend_signals : list Z) (vs : Z) :
  (0 <= vs <= 3)%Z ->
  (Qcabs (trend_strength_of trend_signals vs) * fl 5)%Qc
  = Qc_of_Z (Z.abs (py_sum trend_signals) * (5 + vs)).
Proof.
  intros Hvs. unfold trend_strength_of.
  rewrite Qcabs_Qcmult, Qc_of_Z_abs, Qc_of_Z_mul.
  assert (vs = 0 \/ vs = 1 \/ vs = 2 \/ vs = 3)%Z as Hcases by lia.
  rewrite <- Qcmult_assoc. f_equal.
  destruct Hcases as [-> | [-> | [-> | ->]]]; compute_done.
Qed.

Lemma py_clamp_Z (lo hi x : Z) :
  exists z : Z, py_min (Qc_of_Z hi) (py_max (Qc_of_Z lo) (Qc_of_Z x)) = Qc_of_Z z.
Proof. unfold py_min, py_max. repeat case_bool_decide; eauto. Qed.

Lemma confidence_integral (trend_signals : list Z) (vs : Z) :
  (0 <= vs <= 3)%Z ->
  exists z : Z, confidence_of (trend_strength_of trend_signals vs) = Qc_of_Z z.
Proof.
  intros Hvs. unfold confidence_of.
  rewrite (trend_strength_times_5 _ _ Hvs).
  assert (fl 50 = Qc_of_Z 50) as -> by compute_done.
  assert (fl 95 = Qc_of_Z 95) as -> by compute_done.
  rewrite <- Qc_of_Z_add. apply py_clamp_Z.
Qed.

Lemma py_clamp_spec (x lo hi : Qc) :
  (lo <= hi)%Qc -> py_min hi (py_max lo x) = spec_clamp x lo hi.
Proof.
  intros Hlh. unfold py_min, py_max, spec_clamp.
  repeat case_bool_decide; try done; qc_order.
Qed.

Lemma confidence_of_bounds (ts : Qc) :
  (fl 50 <= confidence_of ts)%Qc /\ (confidence_of ts <= fl 95)%Qc.
Proof.
  unfold confidence_of. split; [|apply py_min_bounds].
  unfold py_min. case_bool_decide; [apply py_max_bounds|done].
Qed.

Lemma confidence_of_mono (t1 t2 : Qc) :
  (Qcabs t1 <= Qcabs t2)%Qc -> (confidence_of t1 <= confidence_of t2)%Qc.
Proof.
  intros Hle. unfold confidence_of.
  apply py_min_mono, py_max_mono, Qcplus_le_mono_l.
  by apply Qcmult_le_compat_r.
Qed.

(** C4.  The reported confidence always lies between 50 and 95; for every
    window the scorer analyses it is
    [clamp(50 + |trend_strength| * 5, 50, 95)], which does not decrease when
    the magnitude of the trend strength grows. *)
Theorem confidence_clamped (df : option DataFrame) (minutes : Z) :
  let reported := ind_confidence (analyze_timeframe df minutes).1.2 in
  ((fl 50 <= reported)%Qc /\ (reported <= fl 95)%Qc)
  /\ (forall (d : DataFrame) (v : locals),
        df = Some d ->
        (minutes <= Z.of_nat (length d))%Z ->
        analyze_window (tail minutes d) = Ok v ->
        reported
        = spec_clamp (fl 50 + Qcabs (v_trend_strength v) * fl 5)%Qc (fl 50) (fl 95))
  /\ (forall t1 t2 : Qc,
        (Qcabs t1 <= Qcabs t2)%Qc ->
        (spec_clamp (fl 50 + Qcabs t1 * fl 5) (fl 50) (fl 95)
         <= spec_clamp (fl 50 + Qcabs t2 * fl 5) (fl 50) (fl 95))%Qc).
Proof.
  intros reported.
  assert (forall t, confidence_of t
            = spec_clamp (fl 50 + Qcabs t * fl 5)%Qc (fl 50) (fl 95)) as Hspec.
  { intros t. by apply py_clamp_spec. }
  assert (forall d v, df = Some d ->
            (minutes <= Z.of_nat (length d))%Z ->
            analyze_window (tail minutes d) = Ok v ->
            reported = confidence_of (v_trend_strength v)) as Hrun.
  { intros d v -> Hlen Hv. unfold reported.
    rewrite (analyze_timeframe_ok _ _ _ Hlen Hv).
    apply analyze_window_inv in Hv as (?&?&?&?&?&?&_&_&Hvs&_&_&_&_&Hts&Hc&_).
    cbn [result_of_locals fst snd ind_confidence]. rewrite Hc, Hts.
    destruct (confidence_integral (v_trend_signals v) (v_volume_strength v))
      as [z ->]; [rewrite Hvs; apply volume_strength_range|].
    apply py_round_Z. }
  split; [|split].
  - destruct df as [d|]; [|done].
    destruct (Z.ltb_spec (Z.of_nat (length d)) minutes) as [Hlt|Hlen].
    { unfold reported, analyze_timeframe.
      by rewrite (proj2 (Z.ltb_lt _ _) Hlt). }
    destruct (analyze_window (tail minutes d)) as [v|e] eqn:Hv.
    + rewrite (Hrun d v eq_refl Hlen Hv). apply confidence_of_bounds.
    + unfold reported. by rewrite (analyze_timeframe_raise _ _ _ Hlen Hv).
  - intros d v Hdf Hlen Hv. rewrite <- Hspec. by eapply Hrun.
  - intros t1 t2 Hle. rewrite <- !Hspec. by apply confidence_of_mono.
Qed.

Lemma confidence_clamped_witness :
  exists v : locals,
    (30 <= Z.of_nat (length flat_df))%Z
    /\ analyze_window (tail 30 flat_df) = Ok v
    /\ ind_confidence (analyze_timeframe (Some flat_df) 30).1.2
       = spec_clamp (fl 50 + Qcabs (v_trend_strength v) * fl 5)%Qc (fl 50) (fl 95).
Proof.
  destruct (analyze_window (tail 30 flat_df)) as [v|e] eqn:Hv;
    [|vm_compute in Hv; discriminate Hv].
  exists v. split; [compute_done|]. split; [done|].
  pose proof (confidence_clamped (Some flat_df) 30) as H.
  cbv zeta in H. destruct H as (_ & H & _).
  apply (H flat_df v eq_refl); [compute_done|exact Hv].
Defined.

(** ** The length guard *)

(** C5.  When the series is absent or shorter than the requested number of
    minutes, the scorer returns exactly
    [(NEUTRAL, 0, {confidence: 50, expiration: minutes}, None)]. *)
Theorem insufficient_window_neutral (minutes : Z) :
  analyze_timeframe None minutes
  = (NEUTRAL, Fin (fl 0), Indicators (fl 50) minutes None None None, None)
  /\ forall df : DataFrame,
       (Z.of_nat (length df) < minutes)%Z ->
       analyze_timeframe (Some df) minutes
       = (NEUTRAL, Fin (fl 0), Indicators (fl 50) minutes None None None, None).
Proof.
  split; [done|]. intros df Hlen. unfold analyze_timeframe.
  by destruct (Z.ltb_spec (Z.of_nat (length df)) minutes) as [_|?]; [|lia].
Qed.

Lemma insufficient_window_neutral_witness :
  (Z.of_nat (length flat_df) < 60)%Z
  /\ analyze_timeframe (Some flat_df) 60
     = (NEUTRAL, Fin (fl 0), Indicators (fl 50) 60 None None None, None).
Proof.
  split; [compute_done|].
  apply (proj2 (insufficient_window_neutral 60) flat_df). compute_done.
Defined.

(** ** The volume guard *)

Lemma nsum_Fin (xs : list Qc) : nsum (Fin <$> xs) = Fin (Qc_sum xs).
Proof. unfold nsum. induction xs as [|x xs IH]; [done|]. csimpl. by rewrite IH. Qed.

Lemma existsb_is_nan_Fin {A} (xs : list A) : existsb is_nan (Fin <$> xs) = false.
Proof. by induction xs. Qed.

Lemma mean_Fin (xs : list Qc) :
  mean xs = ndiv (Fin (Qc_sum xs)) (Fin (Qc_of_Z (Z.of_nat (length xs)))).
Proof.
  unfold mean, win_mean.
  by rewrite existsb_is_nan_Fin, nsum_Fin, length_fmap.
Qed.

Lemma mean_nonempty (xs : list Qc) :
  xs <> [] -> mean xs = Fin (Qc_sum xs / Qc_of_Z (Z.of_nat (length xs)))%Qc.
Proof.
  intros Hxs. rewrite mean_Fin. unfold ndiv.
  rewrite bool_decide_eq_false_2; [done|].
  apply Qc_of_Z_nonzero. destruct xs; [done|simpl; lia].
Qed.

Lemma mean_nan_or_Fin (xs : list Qc) : mean xs = NaN \/ exists m, mean xs = Fin m.
Proof.
  destruct xs as [|x xs]; [by left|].
  right. eexists. by apply mean_nonempty.
Qed.

Lemma Qc_sum_zero (xs : list Qc) : Forall (λ x, x = 0%Qc) xs -> Qc_sum xs = 0%Qc.
Proof. induction 1 as [|x xs -> _ IH]; [done|]. simpl. rewrite IH. ring. Qed.

Lemma mean_zero_not_positive (xs : list Qc) :
  Forall (λ x, x = 0%Qc) xs -> ngt (mean xs) (Fin (fl 0)) = false.
Proof.
  intros Hxs. destruct xs as [|x xs]; [done|].
  rewrite mean_nonempty by done. rewrite (Qc_sum_zero _ Hxs).
  unfold ngt, nlt. apply bool_decide_eq_false_2.
  unfold Qcdiv. rewrite Qcmult_0_l. done.
Qed.

(** C6.  When the mean volume is not strictly positive, as when all volumes
    are zero, the volume ratio is set to 1.0 and the volume strength is 0;
    when it is strictly positive the ratio is the last volume divided by the
    mean (stated for the columns of which binary64 holds the sum and the
    mean exactly, where the mean of the model is the mean the code
    computes); the strength is 3, 2, 1 or 0 by the thresholds 1.5, 1.2 and
    1.0; the ratio is always a finite number, so no division by a zero mean
    takes place. *)
Theorem volume_guard (recent_data : DataFrame) (v : locals) :
  analyze_window recent_data = Ok v ->
  let volume := Volume <$> recent_data in
  let volume_ratio := v_volume_ratio v in
  (ngt (mean volume) (Fin (fl 0)) = false ->
   volume_ratio = Fin (fl 1.0) /\ v_volume_strength v = 0%Z)
  /\ (Forall (λ x, x = 0%Qc) volume ->
      volume_ratio = Fin (fl 1.0) /\ v_volume_strength v = 0%Z)
  /\ (column_sums_exactly volume ->
      forall avg_volume : Qc,
        mean volume = Fin avg_volume ->
        sums_exactly 1 avg_volume ->
        (0 < avg_volume)%Qc ->
        exists current_volume : Qc,
          iloc volume (-1) = Ok current_volume
          /\ volume_ratio = Fin (current_volume / avg_volume)%Qc)
  /\ v_volume_strength v
     = (if ngt volume_ratio (Fin (fl 1.5)) then 3
        else if ngt volume_ratio (Fin (fl 1.2)) then 2
        else if ngt volume_ratio (Fin (fl 1.0)) then 1
        else 0)%Z
  /\ exists q : Qc, volume_ratio = Fin q.
Proof.
  intros Hv volume volume_ratio.
  apply analyze_window_inv in Hv
    as (cur&?&?&?&?&?&Hcur&Hratio&Hvs&_). fold volume in Hratio, Hcur.
  fold volume_ratio in Hratio, Hvs.
  assert (ngt (mean volume) (Fin (fl 0)) = false ->
          volume_ratio = Fin (fl 1.0) /\ v_volume_strength v = 0%Z) as Hguard.
  { intros Hmean. rewrite Hmean in Hratio. by rewrite Hvs, Hratio. }
  assert (forall avg_volume : Qc,
            mean volume = Fin avg_volume -> (0 < avg_volume)%Qc ->
            volume_ratio = Fin (cur / avg_volume)%Qc) as Hdivide.
  { intros m Hm Hpos. rewrite Hm in Hratio. unfold ngt, nlt in Hratio.
    rewrite (bool_decide_eq_true_2 _ Hpos) in Hratio.
    rewrite Hratio. unfold ndiv. rewrite bool_decide_eq_false_2; [done|].
    intros ->. by apply Qclt_not_eq in Hpos. }
  split; [exact Hguard|]. split; [by intros ?%mean_zero_not_positive%Hguard|].
  split; [intros _ m Hm _ Hpos; exists cur; split; [done|by apply Hdivide]|].
  split; [exact Hvs|].
  destruct (mean_nan_or_Fin volume) as [Hnan|[m Hm]].
  - destruct Hguard as [-> _]; [by rewrite Hnan|by eexists].
  - destruct (decide (0 < m)%Qc) as [Hpos|Hneg].
    + rewrite (Hdivide m Hm Hpos). by eexists.
    + destruct Hguard as [-> _]; [|by eexists].
      rewrite Hm. unfold ngt, nlt. by apply bool_decide_eq_false_2.
Qed.

Lemma volume_guard_witness :
  (exists v : locals,
     analyze_window (tail 30 silent_df) = Ok v
     /\ v_volume_ratio v = Fin (fl 1.0) /\ v_volume_strength v = 0%Z)
  /\ (exists v : locals,
        analyze_window (tail 30 pulse_df) = Ok v
        /\ v_volume_ratio v = Fin (fl 1.5) /\ v_volume_strength v = 2%Z).
Proof.
  split.
  - destruct (analyze_window (tail 30 silent_df)) as [v|e] eqn:Hv;
      [|vm_compute in Hv; discriminate Hv].
    exists v. split; [done|].
    pose proof (volume_guard (tail 30 silent_df) v Hv) as H.
    cbv zeta in H. destruct H as (_ & H & _). apply H. compute_done.
  - destruct (analyze_window (tail 30 pulse_df)) as [v|e] eqn:Hv;
      [|vm_compute in Hv; discriminate Hv].
    exists v. split; [done|].
    pose proof (volume_guard (tail 30 pulse_df) v Hv) as H.
    cbv zeta in H. destruct H as (_ & _ & H & Hvs & _).
    destruct (H ltac:(exists 0%nat; split; [lia|];
                      repeat (constructor;
                        [first [by exists 1%Z; split; compute_done
                               |by exists 3%Z; split; compute_done]|]);
                      constructor)
                (fl 2) ltac:(compute_done)
                ltac:(exists 2%Z, 0%nat; split; [compute_done|split; [compute_done|lia]])
                ltac:(compute_done))
      as (cur & Hcur & Hratio).
    assert (cur = fl 3) as ->.
    { assert (iloc (Volume <$> tail 30 pulse_df) (-1) = Ok (fl 3)) as Hc
        by compute_done.
      rewrite Hc in Hcur. by injection Hcur. }
    rewrite Hvs, Hratio. split; [f_equal|]; compute_done.
Defined.

(** ** Bounds on the signal vector *)

Lemma py_sum_app (xs ys : list Z) : py_sum (xs ++ ys) = (py_sum xs + py_sum ys)%Z.
Proof. unfold py_sum. induction xs as [|x xs IH]; simpl; lia. Qed.

Lemma ema_rule_bound (ema_diff_percent : num) :
  Forall contribution (ema_rule ema_diff_percent)
  /\ (Z.abs (py_sum (ema_rule ema_diff_percent)) <= 1)%Z.
Proof.
  unfold ema_rule, contribution.
  repeat case_match; split; try (simpl; lia);
    repeat constructor; set_solver.
Qed.

Lemma macd_rule_bound (macd_diff macd_trend : Qc) :
  Forall contribution (macd_rule macd_diff macd_trend)
  /\ (Z.abs (py_sum (macd_rule macd_diff macd_trend)) <= 2)%Z.
Proof.
  unfold macd_rule, contribution.
  repeat case_match; split; try (simpl; lia);
    repeat constructor; set_solver.
Qed.

Lemma rsi_rule_bound (last_rsi : num) :
  Forall contribution (rsi_rule last_rsi)
  /\ (Z.abs (py_sum (rsi_rule last_rsi)) <= 3)%Z.
Proof.
  unfold rsi_rule, contribution.
  repeat case_match; split; try (simpl; lia);
    repeat constructor; set_solver.
Qed.

Lemma bollinger_rule_bound (current_price : Qc)
    (lower_band upper_band : list (ext surd)) (bb_signals : list Z) (bb : bb_position) :
  bollinger_rule current_price lower_band upper_band = Ok (bb_signals, bb) ->
  Forall contribution bb_signals /\ (Z.abs (py_sum bb_signals) <= 2)%Z.
Proof.
  unfold bollinger_rule, contribution, mbind, result_bind, mret, result_ret.
  intros H. repeat case_match; try discriminate H;
    apply Ok_inj in H; injection H as <- <-; split; try (simpl; lia);
    repeat constructor; set_solver.
Qed.

Lemma trend_strength_of_bound (trend_signals : list Z) (vs : Z) :
  (-8 <= py_sum trend_signals <= 8)%Z -> (0 <= vs <= 3)%Z ->
  (- fl 12.8 <= trend_strength_of trend_signals vs)%Qc
  /\ (trend_strength_of trend_signals vs <= fl 12.8)%Qc.
Proof.
  unfold trend_strength_of. generalize (py_sum trend_signals). intros s Hs Hvs.
  assert (exists i j : nat, (i < 17)%nat /\ (j < 4)%nat
            /\ s = (Z.of_nat i - 8)%Z /\ vs = Z.of_nat j) as (i&j&Hi&Hj&->&->).
  { exists (Z.to_nat (s + 8)), (Z.to_nat vs). lia. }
  repeat (destruct j as [|j]; [|try lia]);
    repeat (destruct i as [|i]; [|try lia]); split; compute_done.
Qed.

(** C9.  For every window that reaches the signal-building step, every entry
    of the signal vector is one of -2, -1, 1, 2; the vector is made of the
    contributions of the EMA, MACD, RSI and Bollinger rules, whose sums have
    magnitude at most 1, 2, 3 and 2; hence the unweighted sum lies in
    [-8, 8] and the trend strength after volume weighting in [-12.8, 12.8]. *)
Theorem trend_strength_bounded (recent_data : DataFrame) (v : locals) :
  analyze_window recent_data = Ok v ->
  Forall (λ z, z ∈ [-2; -1; 1; 2]%Z) (v_trend_signals v)
  /\ (exists ema macd rsi bb : list Z,
        v_trend_signals v = ema ++ macd ++ rsi ++ bb
        /\ (Z.abs (py_sum ema) <= 1)%Z /\ (Z.abs (py_sum macd) <= 2)%Z
        /\ (Z.abs (py_sum rsi) <= 3)%Z /\ (Z.abs (py_sum bb) <= 2)%Z)
  /\ (-8 <= py_sum (v_trend_signals v) <= 8)%Z
  /\ (- fl 12.8 <= v_trend_strength v)%Qc /\ (v_trend_strength v <= fl 12.8)%Qc.
Proof.
  intros Hv.
  apply analyze_window_inv in Hv
    as (?&cp&edp&md&mt&bbs&_&_&Hvs&_&_&Hbb&Hsig&Hts&_).
  destruct (ema_rule_bound edp) as [Ha1 Ha2].
  destruct (macd_rule_bound md mt) as [Hb1 Hb2].
  destruct (rsi_rule_bound (v_last_rsi v)) as [Hc1 Hc2].
  destruct (bollinger_rule_bound _ _ _ _ _ Hbb) as [Hd1 Hd2].
  assert (-8 <= py_sum (v_trend_signals v) <= 8)%Z as Hsum.
  { rewrite Hsig, !py_sum_app. lia. }
  split; [rewrite Hsig, !Forall_app; done|].
  split; [by eexists _, _, _, _|].
  split; [done|].
  rewrite Hts. apply trend_strength_of_bound; [done|].
  rewrite Hvs. apply volume_strength_range.
Qed.

Lemma trend_strength_bounded_witness :
  exists v : locals,
    analyze_window (tail 30 flat_df) = Ok v
    /\ (-8 <= py_sum (v_trend_signals v) <= 8)%Z.
Proof.
  destruct (analyze_window (tail 30 flat_df)) as [v|e] eqn:Hv;
    [|vm_compute in Hv; discriminate Hv].
  exists v. split; [done|].
  pose proof (trend_strength_bounded (tail 30 flat_df) v Hv) as H.
  destruct H as (_ & _ & H & _). exact H.
Defined.

(** ** Positions in a series *)

Lemma iloc_nonneg {A} (xs : list A) (i : nat) (x : A) :
  xs !! i = Some x -> iloc xs (Z.of_nat i) = Ok x.
Proof.
  intros Hx. unfold iloc. cbv zeta.
  rewrite !(proj2 (Z.ltb_ge (Z.of_nat i) 0)) by lia.
  by rewrite Nat2Z.id, Hx.
Qed.

Lemma iloc_neg {A} (xs : list A) (k : nat) (x : A) :
  (1 <= k <= length xs)%nat ->
  xs !! (length xs - k)%nat = Some x -> iloc xs (- Z.of_nat k) = Ok x.
Proof.
  intros Hk Hx. unfold iloc. cbv zeta.
  rewrite (proj2 (Z.ltb_lt (- Z.of_nat k) 0)) by lia.
  rewrite (proj2 (Z.ltb_ge _ 0)) by lia.
  replace (Z.to_nat (Z.of_nat (length xs) + - Z.of_nat k))
    with (length xs - k)%nat by lia.
  by rewrite Hx.
Qed.

Lemma iloc_last {A} (xs : list A) (x : A) :
  last xs = Some x -> iloc xs (-1) = Ok x.
Proof.
  intros Hx. rewrite last_lookup in Hx.
  assert (length xs <> 0)%nat by (destruct xs; [done|simpl; lia]).
  apply (iloc_neg xs 1); [lia|].
  by replace (length xs - 1)%nat with (pred (length xs)) by lia.
Qed.

Lemma iloc_nonempty {A} (xs : list A) :
  xs <> [] -> exists x, iloc xs (-1) = Ok x /\ last xs = Some x.
Proof.
  intros Hxs. destruct (last xs) as [x|] eqn:Hx.
  - exists x. split; [by apply iloc_last|done].
  - by apply last_None in Hx.
Qed.

(** ** The exponential moving average *)

Lemma ewm_from_length (alpha prev : Qc) (xs : list Qc) :
  length (ewm_from alpha prev xs) = length xs.
Proof. revert prev. induction xs as [|x xs IH]; intros prev; simpl; auto. Qed.

Lemma ewm_from_step (alpha : Qc) (xs : list Qc) (prev : Qc) (i : nat) (x e : Qc) :
  xs !! i = Some x ->
  (prev :: ewm_from alpha prev xs) !! i = Some e ->
  ewm_from alpha prev xs !! i = Some (alpha * x + (1 - alpha) * e)%Qc.
Proof.
  revert prev i. induction xs as [|y xs IH]; intros prev i Hx He; [done|].
  destruct i as [|i]; simpl in *.
  - injection Hx as ->. injection He as ->. f_equal. ring.
  - by apply IH.
Qed.

(** C8.  For every non-empty series and every period (a span of at least 1,
    the only ones pandas accepts), [calculate_ema] returns a series [ema] of
    the same length with [ema[0] = series[0]] and
    [ema[i] = α * series[i] + (1 - α) * ema[i-1]] for [i >= 1], where
    [α = 2 / (period + 1)]. *)
Theorem ema_recurrence (data : list Qc) (period : Z) :
  (1 <= period)%Z ->
  data <> [] ->
  let alpha := (fl 2 / (Qc_of_Z period + fl 1))%Qc in
  exists ema : list Qc,
    calculate_ema data period = Ok ema
    /\ length ema = length data
    /\ ema !! 0%nat = data !! 0%nat
    /\ forall (i : nat) (x e : Qc),
         data !! S i = Some x ->
         ema !! i = Some e ->
         ema !! S i = Some (alpha * x + (1 - alpha) * e)%Qc.
Proof.
  intros Hperiod Hdata alpha. unfold calculate_ema, ewm_mean.
  destruct (Z.ltb_spec period 1) as [?|_]; [lia|].
  destruct data as [|x0 data]; [done|].
  eexists. split; [done|]. split; [simpl; by rewrite ewm_from_length|].
  split; [done|]. intros i x e Hx He. simpl in Hx. simpl.
  unfold alpha. rewrite <- Qc_of_Z_succ.
  by apply ewm_from_step.
Qed.

Lemma ema_recurrence_witness :
  exists ema : list Qc,
    calculate_ema [fl 100; fl 104; fl 108] 7 = Ok ema
    /\ ema !! 1%nat = Some (fl 101) /\ ema !! 2%nat = Some (fl 102.75).
Proof.
  destruct (ema_recurrence [fl 100; fl 104; fl 108] 7)
    as (ema & Hema & _ & H0 & Hstep); [lia|done|].
  exists ema. split; [done|].
  assert (ema !! 1%nat = Some (fl 101)) as H1.
  { rewrite (Hstep 0%nat (fl 104) (fl 100)) by done.
    apply (f_equal Some). compute_done. }
  split; [done|].
  rewrite (Hstep 1%nat (fl 108) (fl 101)) by done.
  apply (f_equal Some). compute_done.
Defined.

(** ** Faults stay inside their window *)

(** The window taken from a series that ends with it. *)
Lemma tail_app_window {A} (before window : list A) (n : Z) :
  (0 < n)%Z -> Z.of_nat (length window) = n ->
  tail n (before ++ window) = window.
Proof.
  intros Hn Hlen. unfold tail.
  rewrite (proj2 (Z.eqb_neq n 0)) by lia.
  rewrite (proj2 (Z.ltb_ge n 0)) by lia.
  rewrite length_app.
  replace (length before + length window - Z.to_nat n)%nat
    with (length before) by lia.
  apply drop_app_length.
Qed.

Lemma tail_1_last {A} (xs : list A) (x : A) : last xs = Some x -> tail 1 xs = [x].
Proof.
  intros [before ->]%last_Some. by apply tail_app_window.
Qed.

(** A window of a single candle always faults: [macd.iloc[-2]] does not
    exist. *)
Lemma single_candle_faults (c : candle) : analyze_window [c] = Raise IndexError.
Proof. done. Qed.

Lemma one_minute_faults (df : DataFrame) :
  df <> [] -> analyze_window (tail 1 df) = Raise IndexError.
Proof.
  intros Hdf. destruct (iloc_nonempty df Hdf) as (c & _ & Hc).
  rewrite (tail_1_last _ _ Hc). apply single_candle_faults.
Qed.

Lemma record_timeframe_lookup (df : DataFrame)
    (acc : gmap Z timeframe_entry) (minutes : Z) :
  record_timeframe df acc minutes
  = <[minutes := entry_of (analyze_timeframe (Some df) minutes)]> acc.
Proof.
  unfold record_timeframe, entry_of.
  by destruct (analyze_timeframe (Some df) minutes) as [[[? ?] ?] ?].
Qed.

(** C7.  A fault raised while one window is analysed is caught by the scorer,
    which returns [(NEUTRAL, 0, {confidence: 50, expiration: minutes}, e)];
    the orchestrator still returns a report, never GENERAL_ERROR, with an
    entry for each of the windows 1, 5, 15 and 30, the faulty one holding the
    neutral result.  The 1-minute window is such a window for every series. *)
Theorem faults_stay_per_window (error_messages : error_key -> string)
    (df : DataFrame) (error_message : option string) :
  truthy error_message = false ->
  df <> [] ->
  (forall (minutes : Z) (e : exn),
     (minutes <= Z.of_nat (length df))%Z ->
     analyze_window (tail minutes df) = Raise e ->
     analyze_timeframe (Some df) minutes
     = (NEUTRAL, Fin (fl 0), Indicators (fl 50) minutes None None None, Some e))
  /\ analyze_window (tail 1 df) = Raise IndexError
  /\ exists (current_price : Qc) (timeframes : gmap Z timeframe_entry),
       analyze_market error_messages (Some df, error_message)
       = Analysis current_price timeframes
       /\ dom timeframes = {[1; 5; 15; 30]}%Z
       /\ (forall minutes : Z,
             minutes ∈ TIMEFRAMES ->
             timeframes !! minutes
             = Some (entry_of (analyze_timeframe (Some df) minutes)))
       /\ (forall (minutes : Z) (e : exn),
             minutes ∈ TIMEFRAMES ->
             (minutes <= Z.of_nat (length df))%Z ->
             analyze_window (tail minutes df) = Raise e ->
             timeframes !! minutes
             = Some (Entry NEUTRAL (Fin (fl 0))
                       (Indicators (fl 50) minutes None None None))).
Proof.
  intros Hmsg Hdf.
  split; [intros minutes e; apply analyze_timeframe_raise|].
  split; [by apply one_minute_faults|].
  destruct (iloc_nonempty (Close <$> df)) as (price & Hprice & _).
  { by destruct df. }
  unfold analyze_market, analyze_market_try. rewrite Hmsg.
  rewrite bool_decide_eq_false_2 by by destruct df.
  rewrite Hprice. eexists _, _. split; [done|].
  unfold TIMEFRAMES. cbn [foldl]. rewrite !record_timeframe_lookup.
  assert (forall minutes : Z, minutes ∈ [1; 5; 15; 30]%Z ->
            minutes = 1%Z \/ minutes = 5%Z \/ minutes = 15%Z \/ minutes = 30%Z)
    as Hcases.
  { intros minutes Hm.
    repeat (apply elem_of_cons in Hm as [->|Hm]; [tauto|]).
    by apply elem_of_nil in Hm. }
  split; [|split].
  - rewrite !dom_insert_L, dom_empty_L. set_solver.
  - intros minutes [->|[->|[->| ->]]]%Hcases; by simplify_map_eq.
  - intros minutes e [->|[->|[->| ->]]]%Hcases Hlen He;
      rewrite (analyze_timeframe_raise _ _ _ Hlen He); by simplify_map_eq.
Qed.

Lemma faults_stay_per_window_witness :
  exists (current_price : Qc) (timeframes : gmap Z timeframe_entry),
    analyze_market (λ _, "error"%string) (Some flat_df, None)
    = Analysis current_price timeframes
    /\ timeframes !! 1%Z
       = Some (Entry NEUTRAL (Fin (fl 0)) (Indicators (fl 50) 1 None None None)).
Proof.
  destruct (faults_stay_per_window (λ _, "error"%string) flat_df None)
    as (_ & Hone & price & tf & Hrun & _ & _ & Hfault); [done|done|].
  exists price, tf. split; [exact Hrun|].
  apply (Hfault 1%Z IndexError).
  - apply elem_of_cons; by left.
  - compute_done.
  - exact Hone.
Defined.

(** ** Rolling windows *)

Lemma rolling_length {A B} (w : nat) (f : list A -> B) (nan : B) (xs : list A) :
  length (rolling w f nan xs) = length xs.
Proof. unfold rolling. by rewrite length_fmap, length_seq. Qed.

Lemma rolling_lookup {A B} (w : nat) (f : list A -> B) (nan : B) (xs : list A) (i : nat) :
  (i < length xs)%nat ->
  rolling w f nan xs !! i
  = Some (if (w <=? S i)%nat then f (take w (drop (S i - w) xs)) else nan).
Proof.
  intros Hi. unfold rolling.
  by rewrite list_lookup_fmap, lookup_seq_lt.
Qed.

Lemma rolling_last {A B} (w : nat) (f : list A -> B) (nan : B) (xs : list A) :
  xs <> [] ->
  last (rolling w f nan xs)
  = Some (if (w <=? length xs)%nat then f (drop (length xs - w) xs) else nan).
Proof.
  intros Hxs.
  assert (length xs <> 0)%nat by by destruct xs.
  rewrite last_lookup, rolling_length, rolling_lookup by lia.
  replace (S (pred (length xs))) with (length xs) by lia.
  destruct (Nat.leb_spec w (length xs)); [|done].
  by rewrite take_ge by (rewrite length_drop; lia).
Qed.

Lemma last_zip_with {A B C} (f : A -> B -> C) (xs : list A) (ys : list B) :
  length xs = length ys ->
  last (zip_with f xs ys) = x ← last xs; y ← last ys; Some (f x y).
Proof.
  intros Hlen. rewrite !last_lookup, length_zip_with, lookup_zip_with.
  by rewrite <- Hlen, Nat.min_id.
Qed.

Lemma diff_length (xs : list Qc) : length (diff xs) = length xs.
Proof.
  destruct xs as [|x xs]; [done|]. unfold diff.
  rewrite length_cons, length_zip_with, length_cons. lia.
Qed.

Lemma diff_nan_or_Fin (xs : list Qc) : Forall (λ d, d = NaN \/ exists q, d = Fin q) (diff xs).
Proof.
  destruct xs as [|x xs]; [done|]. unfold diff. constructor; [by left|].
  generalize (x :: xs). induction xs as [|y ys IH]; intros [|z zs]; try done.
  constructor; [right; by eexists|apply IH].
Qed.

(** ** Sums of gains and losses *)

Lemma nsum_nonneg (xs : list num) :
  Forall nonneg_fin xs -> exists s, nsum xs = Fin s /\ (0 <= s)%Qc.
Proof.
  unfold nsum. induction 1 as [|x xs (q & -> & Hq) _ (s & IH & Hs)]; simpl.
  - by exists 0%Qc.
  - rewrite IH. exists (q + s)%Qc. split; [done|].
    by apply Qcplus_nonneg_nonneg.
Qed.

Lemma nsum_pos (xs : list num) :
  Forall nonneg_fin xs -> Exists pos_fin xs ->
  exists s, nsum xs = Fin s /\ (0 < s)%Qc.
Proof.
  intros Hall Hex. induction Hex as [x xs (q & -> & Hq)|x xs Hex IH].
  - apply Forall_cons in Hall as [_ Hall].
    destruct (nsum_nonneg _ Hall) as (s & Hs & Hs0).
    exists (q + s)%Qc. unfold nsum in *. simpl. rewrite Hs. split; [done|].
    by apply Qcplus_pos_nonneg.
  - apply Forall_cons in Hall as [(q & -> & Hq) Hall].
    destruct (IH Hall) as (s & Hs & Hs0).
    exists (q + s)%Qc. unfold nsum in *. simpl. rewrite Hs. split; [done|].
    by apply Qcplus_nonneg_pos.
Qed.

Lemma nsum_zero (xs : list num) :
  Forall (λ x, x = Fin 0%Qc) xs -> nsum xs = Fin 0%Qc.
Proof.
  unfold nsum. induction 1 as [|x xs -> _ IH]; [done|]. simpl. rewrite IH.
  unfold nadd. simpl. by rewrite Qcplus_0_l.
Qed.

Lemma nonneg_fin_not_nan (xs : list num) :
  Forall nonneg_fin xs -> existsb is_nan xs = false.
Proof. induction 1 as [|x xs (q & -> & _) _ IH]; [done|]. by simpl. Qed.

Lemma win_mean_pos (w : list num) :
  w <> [] -> Forall nonneg_fin w -> Exists pos_fin w ->
  exists g, win_mean w = Fin g /\ (0 < g)%Qc.
Proof.
  intros Hw Hall Hex. unfold win_mean.
  rewrite (nonneg_fin_not_nan _ Hall).
  destruct (nsum_pos _ Hall Hex) as (s & -> & Hs).
  assert (0 < Qc_of_Z (Z.of_nat (length w)))%Qc as Hlen.
  { apply Qc_of_Z_pos. destruct w; [done|simpl; lia]. }
  unfold ndiv. rewrite bool_decide_eq_false_2
    by (intros Heq; rewrite Heq in Hlen; by apply Qclt_not_eq in Hlen).
  eexists. split; [done|].
  unfold Qcdiv. apply Qcmult_pos_pos; [done|].
  by apply Qcinv_pos.
Qed.

Lemma win_mean_zero (w : list num) :
  w <> [] -> Forall (λ x, x = Fin 0%Qc) w -> win_mean w = Fin 0%Qc.
Proof.
  intros Hw Hall. unfold win_mean.
  rewrite nonneg_fin_not_nan, (nsum_zero _ Hall).
  - unfold ndiv. rewrite bool_decide_eq_false_2.
    + f_equal. unfold Qcdiv. apply Qcmult_0_l.
    + apply Qc_of_Z_nonzero. destruct w; [done|simpl; lia].
  - eapply Forall_impl; [exact Hall|]. intros x ->. by exists 0%Qc.
Qed.

(** ** RSI when the lookback holds no loss *)

Section RSI.

Variable data : list Qc.
Variable period : nat.
Hypothesis period_bounds : (1 <= period <= length data)%nat.

Lemma lookback_nonempty {A} (f : num -> A) : f <$> lookback data period <> [].
Proof.
  intros Hnil%(f_equal length). revert Hnil. unfold lookback.
  rewrite length_fmap, length_drop, diff_length. simpl. lia.
Qed.

Lemma lookback_nan_or_Fin :
  Forall (λ d, d = NaN \/ exists q, d = Fin q) (lookback data period).
Proof. apply Forall_drop, diff_nan_or_Fin. Qed.

Lemma rsi_gain_last :
  last (rsi_gain data period)
  = Some (win_mean ((λ d, if ngt d (Fin (fl 0)) then d else Fin (fl 0))
                      <$> lookback data period)).
Proof.
  unfold rsi_gain, where_. rewrite rolling_last.
  - rewrite length_fmap, diff_length.
    destruct (Nat.leb_spec period (length data)) as [_|?]; [|lia].
    by rewrite <- fmap_drop.
  - intros Hnil%(f_equal length). revert Hnil.
    rewrite length_fmap, diff_length. simpl. lia.
Qed.

Lemma rsi_loss_last :
  last (rsi_loss data period)
  = Some (win_mean
            (nneg <$> ((λ d, if nlt d (Fin (fl 0)) then d else Fin (fl 0))
                         <$> lookback data period))).
Proof.
  unfold rsi_loss, where_. rewrite rolling_last.
  - rewrite !length_fmap, diff_length.
    destruct (Nat.leb_spec period (length data)) as [_|?]; [|lia].
    by rewrite <- !fmap_drop.
  - intros Hnil%(f_equal length). revert Hnil.
    rewrite !length_fmap, diff_length. simpl. lia.
Qed.

Hypothesis no_loss :
  Forall (λ d, nlt d (Fin (fl 0)) = false) (lookback data period).
Hypothesis some_gain :
  Exists (λ d, ngt d (Fin (fl 0)) = true) (lookback data period).

Lemma avg_gain_positive :
  exists g, last (rsi_gain data period) = Some (Fin g) /\ (0 < g)%Qc.
Proof.
  rewrite rsi_gain_last.
  destruct (win_mean_pos
              ((λ d, if ngt d (Fin (fl 0)) then d else Fin (fl 0))
                 <$> lookback data period))
    as (g & -> & Hg); [apply lookback_nonempty| | |by exists g].
  - apply Forall_fmap. eapply Forall_impl; [apply lookback_nan_or_Fin|].
    intros d [->|[q ->]]; simpl; [by exists 0%Qc|].
    unfold ngt, nlt. case_bool_decide; [|by exists 0%Qc].
    exists q. split; [done|]. by apply Qclt_le_weak.
  - destruct (proj1 (Exists_exists _ _) some_gain) as (d & Hin & Hd).
    apply Exists_exists. eexists. split; [by apply list_elem_of_fmap_2|].
    simpl. rewrite Hd.
    destruct (proj1 (Forall_forall _ _) lookback_nan_or_Fin d Hin) as [->|[q ->]];
      [done|].
    exists q. split; [done|].
    unfold ngt, nlt in Hd. by apply bool_decide_eq_true_1 in Hd.
Qed.

Lemma avg_loss_zero : last (rsi_loss data period) = Some (Fin 0%Qc).
Proof.
  rewrite rsi_loss_last, <- list_fmap_compose.
  rewrite win_mean_zero; [done|apply lookback_nonempty|].
  apply Forall_fmap.
  eapply Forall_impl; [exact no_loss|]. intros d Hd. simpl. rewrite Hd.
  simpl. f_equal; compute_done.
Qed.

Lemma rs_infinite : last (rsi_rs data period) = Some PInf.
Proof.
  unfold rsi_rs. rewrite last_zip_with.
  - destruct avg_gain_positive as (g & -> & Hg). rewrite avg_loss_zero. simpl.
    unfold ndiv, sign. by repeat case_bool_decide.
  - unfold rsi_gain, rsi_loss, where_. by rewrite !rolling_length, !length_fmap.
Qed.

Lemma rsi_hundred : last (calculate_rsi data period) = Some (Fin (fl 100)).
Proof.
  unfold calculate_rsi. rewrite fmap_last, rs_infinite. simpl.
  apply (f_equal Some). compute_done.
Qed.

End RSI.

(** The sign of a zero average loss does not reach the RSI: both infinities
    give 100, and the series is the one computed without a sign. *)
Lemma rsi_of_rs_infinite : rsi_of_rs PInf = Fin (fl 100) /\ rsi_of_rs NInf = Fin (fl 100).
Proof. split; compute_done. Qed.

Lemma rsi_of_rs_signed (negative_zero : bool) (gain loss : num) :
  rsi_of_rs (rs_signed negative_zero gain loss) = rsi_of_rs (ndiv gain loss).
Proof.
  unfold rs_signed. destruct negative_zero; [|done]. cbn [andb].
  case_bool_decide as Hloss; [|done]. subst loss.
  destruct gain as [| | |g]; try done.
  unfold ndiv, sign. rewrite bool_decide_eq_true_2 by done.
  by repeat case_bool_decide.
Qed.

Lemma calculate_rsi_signed (negative_zero : bool) (data : list Qc) (period : nat) :
  rsi_of_rs <$> rsi_rs_signed negative_zero data period = calculate_rsi data period.
Proof.
  unfold calculate_rsi, rsi_rs_signed, rsi_rs.
  generalize (rsi_gain data period), (rsi_loss data period).
  induction l as [|g gs IH]; intros [|l ls]; csimpl; try done.
  rewrite IH. f_equal. apply rsi_of_rs_signed.
Qed.

Lemma last_rs_signed (negative_zero : bool) (data : list Qc) (period : nat) (g : Qc) :
  last (rsi_gain data period) = Some (Fin g) ->
  (0 < g)%Qc ->
  last (rsi_loss data period) = Some (Fin 0%Qc) ->
  last (rsi_rs_signed negative_zero data period)
  = Some (if negative_zero then NInf else PInf).
Proof.
  intros Hg Hg0 Hzero. unfold rsi_rs_signed. rewrite last_zip_with.
  - rewrite Hg, Hzero. cbn [mbind option_bind]. f_equal.
    unfold rs_signed. rewrite bool_decide_eq_true_2 by done.
    unfold ndiv, sign. rewrite bool_decide_eq_true_2 by done.
    rewrite (bool_decide_eq_true_2 _ Hg0). by destruct negative_zero.
  - unfold rsi_gain, rsi_loss, where_. by rewrite !rolling_length, !length_fmap.
Qed.

Lemma rising_lookback_without_losses :
  let data := Close <$> rising_window (fl 100) (fl 1000) in
  Forall (λ d, nlt d (Fin (fl 0)) = false) (lookback data 14)
  /\ Exists (λ d, ngt d (Fin (fl 0)) = true) (lookback data 14).
Proof. cbv zeta. split; compute_done. Qed.

(** C10, amended.  When every price difference in the 14-step RSI lookback
    is non-negative and at least one is positive, the average gain is
    positive and the average loss is zero; the division does not fault and
    [rs] is infinite: minus infinity when the rolling mean returns the
    [-0.0] of the negated loss column, plus infinity when it returns [0.0].
    In both cases the RSI is exactly 100 and the RSI rule appends -2 and
    -1. *)
Theorem rsi_without_losses (recent_data : DataFrame) (negative_zero : bool) :
  let data := Close <$> recent_data in
  (14 <= length data)%nat ->
  Forall (λ d, nlt d (Fin (fl 0)) = false) (lookback data 14) ->
  Exists (λ d, ngt d (Fin (fl 0)) = true) (lookback data 14) ->
  (exists avg_gain : Qc,
     iloc (rsi_gain data 14) (-1) = Ok (Fin avg_gain) /\ (0 < avg_gain)%Qc)
  /\ iloc (rsi_loss data 14) (-1) = Ok (Fin 0%Qc)
  /\ iloc (rsi_rs_signed negative_zero data 14) (-1)
     = Ok (if negative_zero then NInf else PInf)
  /\ rsi_of_rs (if negative_zero then NInf else PInf) = Fin (fl 100)
  /\ rsi_of_rs <$> rsi_rs_signed negative_zero data 14 = calculate_rsi data 14
  /\ iloc (calculate_rsi data 14) (-1) = Ok (Fin (fl 100))
  /\ rsi_rule (Fin (fl 100)) = [-2; -1]%Z
  /\ forall v : locals,
       analyze_window recent_data = Ok v ->
       v_last_rsi v = Fin (fl 100)
       /\ exists before after : list Z,
            v_trend_signals v = before ++ [-2; -1]%Z ++ after.
Proof.
  intros data Hlen Hloss Hgain.
  assert (1 <= 14 <= length data)%nat as Hperiod by lia.
  destruct (avg_gain_positive data 14 Hperiod Hgain) as (g & Hg & Hg0).
  pose proof (rsi_hundred data 14 Hperiod Hloss Hgain) as Hrsi.
  pose proof (avg_loss_zero data 14 Hperiod Hloss) as Hzero.
  split; [exists g; split; [by apply iloc_last|done]|].
  split; [by apply iloc_last|].
  split; [by apply iloc_last, last_rs_signed with g|].
  split; [destruct negative_zero; apply rsi_of_rs_infinite|].
  split; [apply calculate_rsi_signed|].
  split; [by apply iloc_last|].
  split; [done|].
  intros v Hv.
  apply analyze_window_inv in Hv
    as (?&?&edp&md&mt&bbs&_&_&_&Hlast&_&_&Hsig&_).
  fold data in Hlast. rewrite (iloc_last _ _ Hrsi) in Hlast.
  apply Ok_inj in Hlast. rewrite <- Hlast in Hsig. split; [done|].
  exists (ema_rule edp ++ macd_rule md mt), bbs.
  by rewrite Hsig, <- (assoc_L (++)).
Qed.

Lemma rsi_without_losses_witness :
  iloc (rsi_rs_signed true (Close <$> rising_window (fl 100) (fl 1000)) 14) (-1)
  = Ok NInf
  /\ iloc (calculate_rsi (Close <$> rising_window (fl 100) (fl 1000)) 14) (-1)
     = Ok (Fin (fl 100)).
Proof.
  pose proof (rsi_without_losses (rising_window (fl 100) (fl 1000)) true) as H.
  cbv zeta in H.
  destruct H as (_ & _ & Hrs & _ & _ & H & _); [compute_done..|by split].
Defined.

(** C10 as stated fails where the rolling mean keeps the sign of the loss
    column: on the rising window, which has no loss in its lookback, [rs] is
    minus infinity, not plus infinity, and the RSI is 100 all the same. *)
Lemma rsi_without_losses_minus_infinity :
  let data := Close <$> rising_window (fl 100) (fl 1000) in
  Forall (λ d, nlt d (Fin (fl 0)) = false) (lookback data 14)
  /\ Exists (λ d, ngt d (Fin (fl 0)) = true) (lookback data 14)
  /\ iloc (rsi_loss data 14) (-1) = Ok (Fin 0%Qc)
  /\ iloc (rsi_rs_signed true data 14) (-1) = Ok NInf
  /\ iloc (rsi_rs_signed true data 14) (-1) <> Ok PInf
  /\ iloc (calculate_rsi data 14) (-1) = Ok (Fin (fl 100)).
Proof.
  pose proof (rising_lookback_without_losses) as (Hloss & Hgain).
  set (recent_data := rising_window (fl 100) (fl 1000)) in *.
  assert (14 <= length (Close <$> recent_data))%nat as Hlen by compute_done.
  assert (1 <= 14 <= length (Close <$> recent_data))%nat as Hperiod by lia.
  cbv zeta. split; [done|]. split; [done|].
  pose proof (avg_loss_zero _ 14 Hperiod Hloss) as Hzero.
  destruct (avg_gain_positive _ 14 Hperiod Hgain) as (g & Hg & Hg0).
  assert (last (rsi_rs_signed true (Close <$> recent_data) 14) = Some NInf) as Hrs.
  { by apply last_rs_signed with g. }
  split; [by apply iloc_last|]. split; [by apply iloc_last|].
  split; [by rewrite (iloc_last _ _ Hrs)|].
  apply iloc_last. by apply rsi_hundred.
Qed.

(** ** Constant series *)

Lemma ewm_from_replicate (alpha c : Qc) (n : nat) :
  ewm_from alpha c (replicate n c) = replicate n c.
Proof.
  induction n as [|n IH]; [done|]. simpl.
  replace ((1 - alpha) * c + alpha * c)%Qc with c by ring.
  by rewrite IH.
Qed.

Lemma ewm_mean_replicate (span : Z) (c : Qc) (n : nat) :
  (1 <= span)%Z -> ewm_mean span (replicate n c) = Ok (replicate n c).
Proof.
  intros Hspan. unfold ewm_mean.
  rewrite (proj2 (Z.ltb_ge span 1)) by lia.
  destruct n as [|n]; [done|]. simpl. by rewrite ewm_from_replicate.
Qed.

Lemma calculate_macd_replicate (c : Qc) (n : nat) :
  calculate_macd (replicate n c) = Ok (replicate n 0%Qc, replicate n 0%Qc).
Proof.
  unfold calculate_macd. rewrite !ewm_mean_replicate by lia.
  cbn [mbind result_bind]. rewrite zip_with_replicate.
  replace (c - c)%Qc with 0%Qc by ring.
  by rewrite ewm_mean_replicate by lia.
Qed.

Lemma iloc_replicate_first {A} (x : A) (n : nat) :
  (1 <= n)%nat -> iloc (replicate n x) 0 = Ok x.
Proof. intros Hn. apply (iloc_nonneg _ 0). by apply lookup_replicate_2. Qed.

Lemma iloc_replicate_neg {A} (x : A) (n k : nat) :
  (1 <= k <= n)%nat -> iloc (replicate n x) (- Z.of_nat k) = Ok x.
Proof.
  intros Hk. apply iloc_neg; rewrite length_replicate; [done|].
  apply lookup_replicate_2. lia.
Qed.

Lemma Qc_sum_replicate (c : Qc) (n : nat) :
  Qc_sum (replicate n c) = (Qc_of_Z (Z.of_nat n) * c)%Qc.
Proof.
  induction n as [|n IH].
  - assert (Qc_of_Z 0 = 0%Qc) as Hz by compute_done.
    unfold Qc_sum. cbn [replicate foldr]. change (Z.of_nat 0) with 0%Z.
    rewrite Hz. ring.
  - unfold Qc_sum in *. cbn [replicate foldr]. rewrite IH, Nat2Z.inj_succ.
    unfold Z.succ. rewrite Qc_of_Z_succ. ring.
Qed.

Lemma win_mean_replicate (c : Qc) (n : nat) :
  (1 <= n)%nat -> win_mean (replicate n (Fin c)) = Fin c.
Proof.
  intros Hn. rewrite <- fmap_replicate. fold (mean (replicate n c)).
  rewrite mean_nonempty by by destruct n; [lia|].
  rewrite Qc_sum_replicate, length_replicate. f_equal.
  field. apply Qc_of_Z_nonzero. lia.
Qed.

Lemma win_std_replicate (c : Qc) (n : nat) :
  (2 <= n)%nat -> win_std (replicate n (Fin c)) = Fin (surd_of_Qc 0%Qc).
Proof.
  intros Hn. unfold win_std, win_var.
  rewrite <- fmap_replicate at 1. rewrite existsb_is_nan_Fin.
  rewrite win_mean_replicate by lia. rewrite fmap_replicate.
  replace (nmul (nsub (Fin c) (Fin c)) (nsub (Fin c) (Fin c))) with (Fin 0%Qc : num).
  - rewrite nsum_zero by by apply Forall_replicate.
    rewrite length_replicate. unfold ndiv.
    rewrite bool_decide_eq_false_2 by (apply Qc_of_Z_nonzero; lia).
    unfold Qcdiv. rewrite Qcmult_0_l. done.
  - unfold nmul, nsub. simpl. f_equal. ring.
Qed.

(** The change in percent between two equal non-zero prices. *)
Lemma percent_change_same (c : Qc) :
  c <> 0%Qc -> nmul (ndiv (Fin (c - c)%Qc) (Fin c)) (Fin (fl 100)) = Fin 0%Qc.
Proof.
  intros Hc. unfold ndiv. rewrite bool_decide_eq_false_2 by done.
  unfold nmul. f_equal. field. done.
Qed.

Lemma volume_ratio_replicate (v : Qc) (n : nat) :
  (1 <= n)%nat ->
  (if ngt (mean (replicate n v)) (Fin (fl 0))
   then ndiv (Fin v) (mean (replicate n v)) else Fin (fl 1.0))
  = Fin 1%Qc.
Proof.
  intros Hn. unfold mean. rewrite fmap_replicate, win_mean_replicate by done.
  unfold ngt, nlt. case_bool_decide as Hv; [|f_equal; compute_done].
  unfold ndiv. rewrite bool_decide_eq_false_2.
  - f_equal. field. intros ->. by apply Qclt_not_eq in Hv.
  - intros ->. by apply Qclt_not_eq in Hv.
Qed.

Lemma diff_replicate (c : Qc) (n : nat) :
  diff (replicate (S n) c) = NaN :: replicate n (Fin 0%Qc).
Proof.
  unfold diff. simpl. f_equal.
  change (c :: replicate n c) with (replicate (S n) c).
  induction n as [|n IH]; [done|].
  simpl. replace (c - c)%Qc with 0%Qc by ring. f_equal. exact IH.
Qed.

Lemma rolling_replicate_last {A B} (w : nat) (f : list A -> B) (nan : B)
    (a : A) (n : nat) :
  (1 <= n)%nat ->
  last (rolling w f nan (replicate n a))
  = Some (if (w <=? n)%nat then f (replicate w a) else nan).
Proof.
  intros Hn. rewrite rolling_last by by destruct n; [lia|].
  rewrite length_replicate, drop_replicate.
  destruct (Nat.leb_spec w n); [|done].
  by replace (n - (n - w))%nat with w by lia.
Qed.

Lemma gains_replicate (c : Qc) (n : nat) :
  where_ (λ d, ngt d (Fin (fl 0))) (Fin (fl 0)) (diff (replicate (S n) c))
  = replicate (S n) (Fin 0%Qc).
Proof.
  rewrite diff_replicate. unfold where_.
  rewrite fmap_cons, fmap_replicate. done.
Qed.

Lemma losses_replicate (c : Qc) (n : nat) :
  nneg <$> where_ (λ d, nlt d (Fin (fl 0))) (Fin (fl 0)) (diff (replicate (S n) c))
  = replicate (S n) (Fin 0%Qc).
Proof.
  rewrite diff_replicate. unfold where_.
  rewrite !fmap_cons, !fmap_replicate.
  assert (nneg (Fin (fl 0)) = Fin 0%Qc) as Hz by (simpl; f_equal; compute_done).
  cbn [ngt nlt]. change (nlt (Fin 0%Qc) (Fin (fl 0))) with false.
  change (nlt NaN (Fin (fl 0))) with false. cbv iota.
  by rewrite Hz.
Qed.

Lemma calculate_rsi_replicate (c : Qc) (n period : nat) :
  (1 <= n)%nat -> (1 <= period)%nat ->
  last (calculate_rsi (replicate n c) period) = Some NaN.
Proof.
  intros Hn Hp. destruct n as [|n]; [lia|].
  unfold calculate_rsi, rsi_rs, rsi_gain, rsi_loss.
  rewrite gains_replicate, losses_replicate.
  rewrite fmap_last, last_zip_with by by rewrite !rolling_length.
  rewrite !rolling_replicate_last by done.
  destruct (Nat.leb_spec period (S n)); [|done].
  rewrite win_mean_zero; [done| |by apply Forall_replicate].
  by destruct period; [lia|].
Qed.

Lemma bollinger_bands_replicate (c : Qc) (n period : nat) :
  (1 <= n)%nat -> (2 <= period)%nat ->
  let band := if (period <=? n)%nat then Fin (surd_of_Qc c) else NaN in
  last (calculate_bollinger_bands (replicate n c) period).1 = Some band
  /\ last (calculate_bollinger_bands (replicate n c) period).2 = Some band.
Proof.
  intros Hn Hp band. unfold calculate_bollinger_bands. cbn [fst snd].
  assert (replicate n (Fin c) <> ([] : list num)) as Hne by by destruct n; [lia|].
  rewrite !last_zip_with by by rewrite !rolling_length.
  rewrite fmap_replicate, !rolling_last by done.
  rewrite length_replicate, drop_replicate. unfold band.
  destruct (Nat.leb_spec period n); [|done].
  replace (n - (n - period))%nat with period by lia.
  rewrite win_mean_replicate, win_std_replicate by lia. csimpl.
  unfold ext_add, ext_sub, smul, surd_scale, Qc_add_surd, Qc_sub_surd, surd_of_Qc.
  cbn [rat root minus].
  replace (0 * (fl 2 * fl 2))%Qc with 0%Qc by ring.
  unfold mk_surd. cbn [rat root minus].
  rewrite !bool_decide_eq_true_2 by done. cbn [rat root minus].
  split; do 3 f_equal; ring.
Qed.

Lemma price_on_band (c : Qc) :
  price_below c (Fin (surd_of_Qc c)) = false
  /\ price_above c (Fin (surd_of_Qc c)) = false.
Proof.
  unfold price_below, price_above, surd_ltb_Qc, surd_neg, Qc_ltb_surd, surd_of_Qc, mk_surd.
  cbn [rat root minus]. rewrite (bool_decide_eq_true_2 (0%Qc = 0%Qc)) by done.
  cbn [rat root minus negb].
  replace (c - c)%Qc with 0%Qc by ring.
  replace (- c - - c)%Qc with 0%Qc by ring.
  done.
Qed.

Lemma bollinger_rule_constant (c : Qc) (n : nat) :
  (1 <= n)%nat ->
  bollinger_rule c (calculate_bollinger_bands (replicate n c) 20).2
    (calculate_bollinger_bands (replicate n c) 20).1
  = Ok ([], normal).
Proof.
  intros Hn.
  destruct (bollinger_bands_replicate c n 20) as [Hup Hlow]; [done|lia|].
  unfold bollinger_rule. rewrite (iloc_last _ _ Hup), (iloc_last _ _ Hlow).
  cbn [mbind result_bind]. destruct (20 <=? n)%nat; [|done].
  by rewrite (proj1 (price_on_band c)), (proj2 (price_on_band c)).
Qed.

(** The scorer on a window of [n >= 2] identical candles. *)
Lemma analyze_window_constant (c v : Qc) (n : nat) :
  (2 <= n)%nat -> c <> 0%Qc ->
  analyze_window (replicate n (Candle c v))
  = Ok (Locals (Fin (fl 0)) (Fin (fl 1)) 0 NaN (fl 0) normal [-1]%Z
          (- fl 1)%Qc (fl 55) NEUTRAL).
Proof.
  intros Hn Hc. unfold analyze_window.
  rewrite !fmap_replicate. cbn [Close Volume]. unfold calculate_ema.
  rewrite !ewm_mean_replicate, calculate_macd_replicate by lia.
  cbn [mbind result_bind].
  pose proof (bollinger_rule_constant c n ltac:(lia)) as Hbb.
  destruct (calculate_bollinger_bands (replicate n c) 20) as [upper lower].
  cbn [fst snd] in Hbb.
  rewrite iloc_replicate_first by lia.
  rewrite !(iloc_replicate_neg _ n 1) by lia.
  rewrite (iloc_replicate_neg _ n 2) by lia.
  cbn [mbind result_bind].
  rewrite (iloc_last _ _ (calculate_rsi_replicate c n 14 ltac:(lia) ltac:(lia))).
  rewrite Hbb. cbn [mbind result_bind]. unfold mret, result_ret.
  rewrite percent_change_same, volume_ratio_replicate by (done || lia).
  compute_done.
Qed.

Lemma tail_length {A} (n : Z) (xs : list A) :
  (0 < n <= Z.of_nat (length xs))%Z -> length (tail n xs) = Z.to_nat n.
Proof.
  intros Hn. unfold tail.
  rewrite (proj2 (Z.eqb_neq n 0)), (proj2 (Z.ltb_ge n 0)) by lia.
  rewrite length_drop. lia.
Qed.

Lemma constant_window_replicate (df : DataFrame) (minutes : Z) (x : candle) :
  (0 < minutes <= Z.of_nat (length df))%Z ->
  Forall (λ y, y = x) (tail minutes df) ->
  tail minutes df = replicate (Z.to_nat minutes) x.
Proof.
  intros Hlen Hall. symmetry. apply replicate_as_Forall.
  split; [by apply tail_length|].
  eapply Forall_impl; [exact Hall|]. by intros y ->.
Qed.

(** C1, amended.  For every window of at least two identical samples whose
    close price is not zero, close and volume being numbers of which
    binary64 sums the copies of the window exactly (the mean the code
    computes is then the mean of the model), the scorer does not fault and
    returns a price change of 0, an undefined (NaN) RSI, a MACD of 0, the
    Bollinger position normal and the signal NEUTRAL with confidence exactly
    55: the MACD rule appends -1 when MACD does not exceed its signal line.
    The last upper and lower Bollinger bands both equal the constant when
    the window has at least 20 samples and are NaN otherwise. *)
Theorem constant_window (df : DataFrame) (minutes : Z) (c v : Qc) :
  (2 <= minutes <= Z.of_nat (length df))%Z ->
  c <> 0%Qc ->
  sums_exactly minutes c ->
  sums_exactly minutes v ->
  Forall (λ x, x = Candle c v) (tail minutes df) ->
  analyze_timeframe (Some df) minutes
  = (NEUTRAL, Fin (fl 0),
     Indicators (fl 55) minutes (Some NaN) (Some (fl 0)) (Some normal), None)
  /\ let bands := calculate_bollinger_bands (Close <$> tail minutes df) 20 in
     let band := if (20 <=? minutes)%Z then Fin (surd_of_Qc c) else NaN in
     iloc bands.1 (-1) = Ok band /\ iloc bands.2 (-1) = Ok band.
Proof.
  intros Hlen Hc _ _ Hall.
  rewrite (constant_window_replicate df minutes (Candle c v)) by (lia || done).
  split.
  - rewrite (analyze_timeframe_ok df minutes
               (Locals (Fin (fl 0)) (Fin (fl 1)) 0 NaN (fl 0) normal [-1]%Z
                  (- fl 1)%Qc (fl 55) NEUTRAL)); [|lia|].
    + unfold result_of_locals. locals_proj. do 2 f_equal.
      assert (py_round (fl 55) 1 = fl 55) as -> by compute_done.
      assert (py_round (fl 0) 4 = fl 0) as -> by compute_done.
      done.
    + rewrite (constant_window_replicate df minutes (Candle c v)) by (lia || done).
      apply analyze_window_constant; [lia|done].
  - rewrite fmap_replicate. cbn [Close].
    destruct (bollinger_bands_replicate c (Z.to_nat minutes) 20) as [Hup Hlow];
      [lia|lia|].
    replace (20 <=? Z.to_nat minutes)%nat with (20 <=? minutes)%Z in Hup, Hlow.
    + split; by apply iloc_last.
    + destruct (Z.leb_spec 20 minutes), (Nat.leb_spec 20 (Z.to_nat minutes)); lia || done.
Qed.

Lemma constant_window_witness :
  analyze_timeframe (Some flat_df) 30
  = (NEUTRAL, Fin (fl 0),
     Indicators (fl 55) 30 (Some NaN) (Some (fl 0)) (Some normal), None).
Proof.
  apply (constant_window flat_df 30 (fl 100) (fl 1));
    [compute_done|compute_done| | |compute_done].
  - exists 100%Z, 0%nat. split; [compute_done|split; [compute_done|lia]].
  - exists 1%Z, 0%nat. split; [compute_done|split; [compute_done|lia]].
Defined.

(** C1 as stated fails: on thirty identical candles the confidence is 55,
    not 50. *)
Lemma constant_window_confidence_55 :
  let r := analyze_timeframe (Some flat_df) 30 in
  Forall (λ x, x = Candle (fl 100) (fl 1)) (tail 30 flat_df)
  /\ r.2 = None
  /\ r.1.1.1 = NEUTRAL
  /\ ind_confidence r.1.2 = fl 55
  /\ ind_confidence r.1.2 <> fl 50.
Proof. cbv zeta. compute_done. Qed.

(** A window of five identical candles has no Bollinger band yet. *)
Example constant_window_short_bands :
  iloc (calculate_bollinger_bands (Close <$> tail 5 flat_df) 20).1 (-1) = Ok NaN
  /\ iloc (calculate_bollinger_bands (Close <$> tail 5 flat_df) 20).2 (-1) = Ok NaN.
Proof. compute_done. Qed.

(** With a constant close price of zero the price change is undefined. *)
Example constant_window_zero_price :
  (analyze_timeframe (Some (replicate 30 (Candle (fl 0) (fl 1)))) 30).1.1.2 = NaN.
Proof. compute_done. Qed.

(** ** Change of unit

    Multiplying every close by a positive [k] leaves the signal unchanged. *)

Lemma iloc_fmap {A B} (f : A -> B) (xs : list A) (i : Z) :
  iloc (f <$> xs) i = rmap f (iloc xs i).
Proof.
  unfold iloc. rewrite length_fmap. cbv zeta.
  destruct (_ <? 0)%Z; [done|].
  rewrite list_lookup_fmap. by destruct (xs !! _).
Qed.

Lemma zip_with_fmap_hom {A B C} (f f' : A -> B -> C)
    (g1 : A -> A) (g2 : B -> B) (h : C -> C) (xs : list A) (ys : list B) :
  (forall a b, f' (g1 a) (g2 b) = h (f a b)) ->
  zip_with f' (g1 <$> xs) (g2 <$> ys) = h <$> zip_with f xs ys.
Proof.
  intros Hhom. revert ys.
  induction xs as [|x xs IH]; intros [|y ys]; csimpl; try done.
  by rewrite Hhom, IH.
Qed.

Lemma rolling_fmap {A B} (w : nat) (f : list A -> B) (nan : B)
    (g : A -> A) (h : B -> B) (xs : list A) :
  (forall win, f (g <$> win) = h (f win)) -> h nan = nan ->
  rolling w f nan (g <$> xs) = h <$> rolling w f nan xs.
Proof.
  intros Hf Hnan. unfold rolling.
  rewrite length_fmap, <- list_fmap_compose.
  apply list_fmap_ext. intros _ i _. simpl.
  destruct (w <=? S i)%nat; [|done].
  by rewrite <- fmap_drop, <- fmap_take, Hf.
Qed.

Section Scaling.

Variable k : Qc.
Hypothesis k_pos : (0 < k)%Qc.

Lemma k_nonzero : k <> 0%Qc.
Proof. intros Hk. rewrite Hk in k_pos. by apply Qclt_not_eq in k_pos. Qed.

Lemma scale_lt (a b : Qc) : bool_decide (k * a < k * b)%Qc = bool_decide (a < b)%Qc.
Proof. apply bool_decide_ext. symmetry. by apply Qcmult_lt_mono_pos_l. Qed.

Lemma scale_pos (a : Qc) : bool_decide (0 < k * a)%Qc = bool_decide (0 < a)%Qc.
Proof. rewrite <- (scale_lt 0 a). by rewrite Qcmult_0_r. Qed.

Lemma scale_neg (a : Qc) : bool_decide (k * a < 0)%Qc = bool_decide (a < 0)%Qc.
Proof. rewrite <- (scale_lt a 0). by rewrite Qcmult_0_r. Qed.

Lemma scale_zero (a : Qc) : bool_decide ((k * a)%Qc = 0%Qc) = bool_decide (a = 0%Qc).
Proof.
  apply bool_decide_ext. split.
  - intros [Hk| ->]%Qcmult_integral; [by destruct k_nonzero|done].
  - intros ->. apply Qcmult_0_r.
Qed.

Lemma sign_nscale (x : num) : sign (nscale k x) = sign x.
Proof. destruct x; try done. simpl. by rewrite scale_pos, scale_neg. Qed.

Lemma nscale_zero : nscale k (Fin (fl 0)) = Fin (fl 0).
Proof. simpl. f_equal. apply Qcmult_0_r. Qed.

Lemma nscale_inf (b : bool) : nscale k (inf b) = inf b.
Proof. by destruct b. Qed.

Lemma nadd_nscale (x y : num) : nadd (nscale k x) (nscale k y) = nscale k (nadd x y).
Proof.
  destruct x, y; try done. unfold nadd. simpl. f_equal. ring.
Qed.

Lemma nsub_nscale (x y : num) : nsub (nscale k x) (nscale k y) = nscale k (nsub x y).
Proof.
  destruct x, y; try done. unfold nsub. simpl. f_equal. ring.
Qed.

Lemma nneg_nscale (x : num) : nneg (nscale k x) = nscale k (nneg x).
Proof. destruct x; try done. simpl. f_equal. ring. Qed.

Lemma nlt_nscale (x y : num) : nlt (nscale k x) (nscale k y) = nlt x y.
Proof. destruct x, y; try done. unfold nlt. simpl. apply scale_lt. Qed.

Lemma nlt_nscale_zero (x : num) : nlt (nscale k x) (Fin (fl 0)) = nlt x (Fin (fl 0)).
Proof. by rewrite <- (nlt_nscale x (Fin (fl 0))), nscale_zero. Qed.

Lemma ngt_nscale_zero (x : num) : ngt (nscale k x) (Fin (fl 0)) = ngt x (Fin (fl 0)).
Proof. unfold ngt. by rewrite <- (nlt_nscale (Fin (fl 0)) x), nscale_zero. Qed.

(** A quotient does not depend on the unit. *)
Lemma ndiv_nscale (x y : num) : ndiv (nscale k x) (nscale k y) = ndiv x y.
Proof.
  destruct x as [| | |a], y as [| | |b]; try done; unfold ndiv; simpl.
  - by rewrite scale_neg.
  - by rewrite scale_neg.
  - rewrite scale_zero, scale_pos, scale_neg.
    case_bool_decide as Hb; [done|]. f_equal. field. split; [done|apply k_nonzero].
Qed.

(** Dividing by a count commutes with the change of unit. *)
Lemma ndiv_nscale_l (x : num) (n : Qc) :
  ndiv (nscale k x) (Fin n) = nscale k (ndiv x (Fin n)).
Proof.
  destruct x as [| | |a]; try done; unfold ndiv; simpl.
  - by rewrite nscale_inf.
  - by rewrite nscale_inf.
  - rewrite scale_pos, scale_neg.
    case_bool_decide; [|simpl; f_equal; unfold Qcdiv; ring].
    repeat case_bool_decide; done.
Qed.

Lemma nsum_nscale (xs : list num) : nsum (nscale k <$> xs) = nscale k (nsum xs).
Proof.
  unfold nsum. induction xs as [|x xs IH]; csimpl.
  - by rewrite Qcmult_0_r.
  - by rewrite IH, nadd_nscale.
Qed.

Lemma is_nan_nscale (xs : list num) :
  existsb is_nan (nscale k <$> xs) = existsb is_nan xs.
Proof. induction xs as [|[| | |a] xs IH]; csimpl; by rewrite ?IH. Qed.

Lemma win_mean_nscale (w : list num) : win_mean (nscale k <$> w) = nscale k (win_mean w).
Proof.
  unfold win_mean. rewrite is_nan_nscale, nsum_nscale, length_fmap.
  destruct (existsb is_nan w); [done|]. apply ndiv_nscale_l.
Qed.

End Scaling.

(** ** Normal forms of surds *)

Lemma rat_mk_surd (a w : Qc) (m : bool) : rat (mk_surd a w m) = a.
Proof. unfold mk_surd. by case_bool_decide. Qed.

Lemma root_mk_surd (a w : Qc) (m : bool) : root (mk_surd a w m) = w.
Proof. unfold mk_surd. by case_bool_decide. Qed.

Lemma minus_mk_surd (a w : Qc) (m : bool) : w <> 0%Qc -> minus (mk_surd a w m) = m.
Proof. intros Hw. unfold mk_surd. by rewrite bool_decide_eq_false_2. Qed.

Lemma mk_surd_ext (a a' w w' : Qc) (m m' : bool) :
  a = a' -> w = w' -> (w <> 0%Qc -> m = m') -> mk_surd a w m = mk_surd a' w' m'.
Proof.
  intros -> -> Hm. unfold mk_surd. case_bool_decide; [done|]. by rewrite Hm.
Qed.

(** ** The symbolic square root is exact *)

Lemma Q2R_Qc_lt (a b : Qc) : (a < b)%Qc <-> (Q2R a < Q2R b)%R.
Proof. split; [apply Qlt_Rlt|apply Rlt_Qlt]. Qed.

Lemma Q2R_Qc_mult (a b : Qc) : Q2R (a * b)%Qc = (Q2R a * Q2R b)%R.
Proof.
  rewrite <- Q2R_mult. apply Qeq_eqR.
  unfold Qcmult, Q2Qc. cbn [this]. apply Qred_correct.
Qed.

Lemma Q2R_Qc_minus (a b : Qc) : Q2R (a - b)%Qc = (Q2R a - Q2R b)%R.
Proof.
  rewrite <- Q2R_minus. apply Qeq_eqR.
  unfold Qcminus, Qcplus, Qcopp, Q2Qc. cbn [this].
  rewrite !Qred_correct. reflexivity.
Qed.

Lemma Q2R_Qc_0 : Q2R 0%Qc = 0%R.
Proof. simpl. unfold Q2R. simpl. lra. Qed.

Lemma lt_sqrt (d w : R) : (0 <= w)%R -> (d < sqrt w <-> d < 0 \/ d * d < w)%R.
Proof.
  intros Hw. split.
  - intros Hd. destruct (Rlt_le_dec d 0) as [?|Hd0]; [by left|right].
    rewrite <- (sqrt_sqrt w Hw). apply Rmult_le_0_lt_compat; done.
  - intros [Hd|Hd].
    + pose proof (sqrt_pos w). lra.
    + destruct (Rlt_le_dec d 0) as [?|Hd0]; [pose proof (sqrt_pos w); lra|].
      apply Rnot_le_lt. intros Hle.
      assert (sqrt w * sqrt w <= d * d)%R
        by (apply Rmult_le_compat; auto using sqrt_pos).
      rewrite sqrt_sqrt in * by done. lra.
Qed.

Lemma lt_minus_sqrt (d w : R) : (0 <= w)%R -> (d < - sqrt w <-> d < 0 /\ w < d * d)%R.
Proof.
  intros Hw. pose proof (sqrt_pos w) as Hs. split.
  - intros Hd. split; [lra|].
    rewrite <- (sqrt_sqrt w Hw) at 1.
    replace (d * d)%R with ((- d) * (- d))%R by lra.
    apply Rmult_le_0_lt_compat; lra.
  - intros [Hd Hlt]. apply Rnot_le_lt. intros Hle.
    assert ((- d) * (- d) <= sqrt w * sqrt w)%R
      by (apply Rmult_le_compat; lra).
    rewrite sqrt_sqrt in * by done. lra.
Qed.

Lemma Qc_ltb_surd_sound (a : Qc) (s : surd) :
  (0 <= root s)%Qc ->
  Qc_ltb_surd a s = true <-> (Q2R a < surd_to_R s)%R.
Proof.
  intros Hroot. unfold Qcle in Hroot. apply Qle_Rle in Hroot.
  rewrite Q2R_Qc_0 in Hroot.
  unfold Qc_ltb_surd, surd_to_R. cbv zeta.
  pose proof (Q2R_Qc_minus a (rat s)) as Hd.
  destruct (minus s).
  - rewrite andb_true_iff, !bool_decide_eq_true, !Q2R_Qc_lt, Q2R_Qc_mult, Hd, Q2R_Qc_0.
    rewrite <- (lt_minus_sqrt _ _ Hroot). split; lra.
  - rewrite orb_true_iff, !bool_decide_eq_true, !Q2R_Qc_lt, Q2R_Qc_mult, Hd, Q2R_Qc_0.
    rewrite <- (lt_sqrt _ _ Hroot). split; lra.
Qed.

Lemma Q2R_Qc_plus (a b : Qc) : Q2R (a + b)%Qc = (Q2R a + Q2R b)%R.
Proof.
  rewrite <- Q2R_plus. apply Qeq_eqR.
  unfold Qcplus, Q2Qc. cbn [this]. apply Qred_correct.
Qed.

Lemma Q2R_Qc_opp (a : Qc) : Q2R (- a)%Qc = (- Q2R a)%R.
Proof.
  rewrite <- Q2R_opp. apply Qeq_eqR.
  unfold Qcopp, Q2Qc. cbn [this]. apply Qred_correct.
Qed.

Lemma surd_to_R_mk (a w : Qc) (m : bool) :
  surd_to_R (mk_surd a w m)
  = (Q2R a + (if m then -1 else 1) * sqrt (Q2R w))%R.
Proof.
  unfold mk_surd, surd_to_R. case_bool_decide as Hw; cbn [rat root minus]; [|done].
  rewrite Hw, Q2R_Qc_0, sqrt_0. lra.
Qed.

Lemma surd_to_R_of_Qc (a : Qc) : surd_to_R (surd_of_Qc a) = Q2R a.
Proof. unfold surd_to_R, surd_of_Qc. cbn [rat root minus]. rewrite Q2R_Qc_0, sqrt_0. lra. Qed.

Lemma surd_to_R_sqrt (v : Qc) : surd_to_R (surd_sqrt v) = sqrt (Q2R v).
Proof. unfold surd_sqrt. rewrite surd_to_R_mk, Q2R_Qc_0. lra. Qed.

Lemma surd_to_R_add (a : Qc) (s : surd) :
  surd_to_R (Qc_add_surd a s) = (Q2R a + surd_to_R s)%R.
Proof. unfold Qc_add_surd. rewrite surd_to_R_mk, Q2R_Qc_plus. unfold surd_to_R. lra. Qed.

Lemma surd_to_R_sub (a : Qc) (s : surd) :
  surd_to_R (Qc_sub_surd a s) = (Q2R a - surd_to_R s)%R.
Proof.
  unfold Qc_sub_surd. rewrite surd_to_R_mk, Q2R_Qc_minus. unfold surd_to_R.
  destruct (minus s); simpl; lra.
Qed.

Lemma surd_to_R_neg (s : surd) : surd_to_R (surd_neg s) = (- surd_to_R s)%R.
Proof.
  unfold surd_neg. rewrite surd_to_R_mk, Q2R_Qc_opp. unfold surd_to_R.
  destruct (minus s); simpl; lra.
Qed.

Lemma surd_to_R_scale (s : surd) (k : Qc) :
  (0 <= root s)%Qc ->
  surd_to_R (surd_scale s k) = (surd_to_R s * Q2R k)%R.
Proof.
  intros Hroot. unfold Qcle in Hroot. apply Qle_Rle in Hroot.
  rewrite Q2R_Qc_0 in Hroot.
  unfold surd_scale. rewrite surd_to_R_mk, !Q2R_Qc_mult, sqrt_mult_alt by done.
  change (Q2R k * Q2R k)%R with (Rsqr (Q2R k)). rewrite sqrt_Rsqr_abs.
  unfold surd_to_R. case_bool_decide as Hk.
  - apply Q2R_Qc_lt in Hk. rewrite Q2R_Qc_0 in Hk. rewrite Rabs_left by done.
    destruct (minus s); simpl; ring.
  - assert (0 <= Q2R k)%R.
    { apply Rnot_lt_le. intros Hlt. apply Hk, Q2R_Qc_lt. by rewrite Q2R_Qc_0. }
    rewrite Rabs_right by lra. destruct (minus s); simpl; ring.
Qed.

Lemma surd_ltb_Qc_sound (s : surd) (a : Qc) :
  (0 <= root s)%Qc ->
  surd_ltb_Qc s a = true <-> (surd_to_R s < Q2R a)%R.
Proof.
  intros Hroot. unfold surd_ltb_Qc.
  rewrite Qc_ltb_surd_sound, surd_to_R_neg, Q2R_Qc_opp.
  - split; lra.
  - unfold surd_neg. by rewrite root_mk_surd.
Qed.

(** ** Surds and bands under a change of unit *)

Section ScalingBands.

Variable k : Qc.
Hypothesis k_pos : (0 < k)%Qc.

Lemma kk_pos : (0 < k * k)%Qc.
Proof. by apply Qcmult_pos_pos. Qed.

Lemma kk_root_nonzero (w : Qc) : (k * k * w)%Qc <> 0%Qc -> w <> 0%Qc.
Proof. intros Hw ->. apply Hw. ring. Qed.

Lemma root_kk_nonzero (w : Qc) : w <> 0%Qc -> (k * k * w)%Qc <> 0%Qc.
Proof.
  intros Hw [Hkk|?]%Qcmult_integral; [|done].
  pose proof kk_pos as Hpos. rewrite Hkk in Hpos. by apply Qclt_not_eq in Hpos.
Qed.

Lemma minus_sscale (s : surd) : root s <> 0%Qc -> minus (sscale k s) = minus s.
Proof. intros Hw. apply minus_mk_surd. by apply root_kk_nonzero. Qed.

Lemma sign_scale_Fin (b : Qc) : sign (Fin (k * b)%Qc) = sign (Fin b).
Proof. apply (sign_nscale k k_pos (Fin b)). Qed.

Lemma nmul_nscale (x y : num) :
  nmul (nscale k x) (nscale k y) = nscale (k * k) (nmul x y).
Proof.
  destruct x as [| | |a], y as [| | |b]; try done; cbn [nscale]; unfold nmul;
    rewrite ?sign_scale_Fin.
  - cbn [sign]. by repeat case_bool_decide.
  - cbn [sign]. by repeat case_bool_decide.
  - cbn [sign]. by repeat case_bool_decide.
  - cbn [sign]. by repeat case_bool_decide.
  - simpl. f_equal. ring.
Qed.

Lemma win_var_nscale (w : list num) :
  win_var (nscale k <$> w) = nscale (k * k) (win_var w).
Proof.
  unfold win_var. rewrite (is_nan_nscale k), (win_mean_nscale k k_pos), length_fmap.
  destruct (existsb is_nan w); [done|].
  rewrite <- list_fmap_compose.
  rewrite (list_fmap_ext _
             (nscale (k * k) ∘ (λ x, nmul (nsub x (win_mean w)) (nsub x (win_mean w))))).
  - rewrite list_fmap_compose, (nsum_nscale (k * k)).
    apply (ndiv_nscale_l (k * k) kk_pos).
  - intros _ x _. simpl. by rewrite nsub_nscale, nmul_nscale.
Qed.

Lemma surd_sqrt_scale (v : Qc) : surd_sqrt (k * k * v) = sscale k (surd_sqrt v).
Proof.
  unfold surd_sqrt, sscale. rewrite rat_mk_surd, root_mk_surd.
  apply mk_surd_ext; [ring|done|].
  intros Hw%kk_root_nonzero. by rewrite minus_mk_surd.
Qed.

Lemma nsqrt_nscale (x : num) : nsqrt (nscale (k * k) x) = bscale k (nsqrt x).
Proof.
  destruct x as [| | |v]; try done. simpl.
  rewrite (scale_neg (k * k) kk_pos). case_bool_decide; [done|].
  simpl. by rewrite surd_sqrt_scale.
Qed.

Lemma win_std_nscale (w : list num) : win_std (nscale k <$> w) = bscale k (win_std w).
Proof. unfold win_std. by rewrite win_var_nscale, nsqrt_nscale. Qed.

Lemma rat_sscale (s : surd) : rat (sscale k s) = (k * rat s)%Qc.
Proof. apply rat_mk_surd. Qed.

Lemma root_sscale (s : surd) : root (sscale k s) = (k * k * root s)%Qc.
Proof. apply root_mk_surd. Qed.

Lemma sscale_mk_surd (a w : Qc) (m : bool) :
  sscale k (mk_surd a w m) = mk_surd (k * a) (k * k * w) m.
Proof.
  unfold sscale. rewrite rat_mk_surd, root_mk_surd.
  apply mk_surd_ext; [done|done|]. intros Hw%kk_root_nonzero.
  by apply minus_mk_surd.
Qed.

Lemma surd_scale_sscale (s : surd) (c : Qc) :
  surd_scale (sscale k s) c = sscale k (surd_scale s c).
Proof.
  unfold surd_scale. rewrite sscale_mk_surd, rat_sscale, root_sscale.
  apply mk_surd_ext; [ring|ring|]. intros Hw.
  rewrite minus_sscale; [done|]. intros Hs. apply Hw. rewrite Hs. ring.
Qed.

Lemma smul_bscale (b : ext surd) (c : Qc) : smul (bscale k b) c = bscale k (smul b c).
Proof.
  destruct b as [| | |s]; cbn [smul bscale];
    try (by destruct (sign (Fin c)) as [[]|]).
  by rewrite surd_scale_sscale.
Qed.

Lemma Qc_add_surd_scale (a : Qc) (s : surd) :
  Qc_add_surd (k * a) (sscale k s) = sscale k (Qc_add_surd a s).
Proof.
  unfold Qc_add_surd. rewrite sscale_mk_surd, rat_sscale, root_sscale.
  apply mk_surd_ext; [ring|done|]. intros Hw%kk_root_nonzero.
  by apply minus_sscale.
Qed.

Lemma Qc_sub_surd_scale (a : Qc) (s : surd) :
  Qc_sub_surd (k * a) (sscale k s) = sscale k (Qc_sub_surd a s).
Proof.
  unfold Qc_sub_surd. rewrite sscale_mk_surd, rat_sscale, root_sscale.
  apply mk_surd_ext; [ring|done|]. intros Hw%kk_root_nonzero.
  by rewrite minus_sscale.
Qed.

Lemma surd_neg_scale (s : surd) : surd_neg (sscale k s) = sscale k (surd_neg s).
Proof.
  unfold surd_neg. rewrite sscale_mk_surd, rat_sscale, root_sscale.
  apply mk_surd_ext; [ring|done|]. intros Hw%kk_root_nonzero.
  by rewrite minus_sscale.
Qed.

Lemma ext_add_scale (m : num) (b : ext surd) :
  ext_add Qc_add_surd (nscale k m) (bscale k b) = bscale k (ext_add Qc_add_surd m b).
Proof.
  destruct m, b; try done. cbn [nscale bscale ext_add].
  by rewrite Qc_add_surd_scale.
Qed.

Lemma ext_sub_scale (m : num) (b : ext surd) :
  ext_sub Qc_sub_surd (nscale k m) (bscale k b) = bscale k (ext_sub Qc_sub_surd m b).
Proof.
  destruct m, b; try done. cbn [nscale bscale ext_sub].
  by rewrite Qc_sub_surd_scale.
Qed.

Lemma square_pos (d : Qc) : (d < 0)%Qc -> (0 < d * d)%Qc.
Proof.
  intros Hd. replace (d * d)%Qc with ((- d) * (- d))%Qc by ring.
  assert (0 < - d)%Qc.
  { apply (Qcplus_lt_mono_r _ _ d). by replace (- d + d)%Qc with 0%Qc by ring;
      rewrite Qcplus_0_l. }
  by apply Qcmult_pos_pos.
Qed.

Lemma square_not_neg (d : Qc) : bool_decide (d * d < 0)%Qc = false.
Proof.
  apply bool_decide_eq_false_2. apply Qcle_not_lt.
  destruct (Qclt_le_dec d 0) as [Hd|Hd].
  - by apply Qclt_le_weak, square_pos.
  - by apply Qcmult_nonneg_nonneg.
Qed.

Lemma Qc_ltb_surd_scale (a : Qc) (s : surd) :
  Qc_ltb_surd (k * a) (sscale k s) = Qc_ltb_surd a s.
Proof.
  unfold Qc_ltb_surd. rewrite !rat_sscale, !root_sscale.
  replace (k * a - k * rat s)%Qc with (k * (a - rat s))%Qc by ring.
  set (d := (a - rat s)%Qc).
  replace (k * d * (k * d))%Qc with (k * k * (d * d))%Qc by ring.
  rewrite (scale_neg k k_pos), !(scale_lt (k * k) kk_pos).
  destruct (decide (root s = 0%Qc)) as [Hw|Hw]; [|by rewrite minus_sscale].
  unfold sscale, mk_surd. rewrite bool_decide_eq_true_2 by (rewrite Hw; ring).
  cbn [minus]. rewrite Hw, square_not_neg. destruct (minus s); [|done].
  case_bool_decide as Hd; [|done].
  by rewrite (bool_decide_eq_true_2 (0 < d * d)%Qc) by by apply square_pos.
Qed.

Lemma price_below_scale (p : Qc) (b : ext surd) :
  price_below (k * p) (bscale k b) = price_below p b.
Proof. destruct b; try done. apply Qc_ltb_surd_scale. Qed.

Lemma price_above_scale (p : Qc) (b : ext surd) :
  price_above (k * p) (bscale k b) = price_above p b.
Proof.
  destruct b as [| | |s]; try done. simpl. unfold surd_ltb_Qc.
  rewrite surd_neg_scale. replace (- (k * p))%Qc with (k * - p)%Qc by ring.
  apply Qc_ltb_surd_scale.
Qed.

End ScalingBands.

(** ** The indicators under a change of unit *)

Section ScalingSeries.

Variable k : Qc.
Hypothesis k_pos : (0 < k)%Qc.

Lemma ewm_from_scale (alpha prev : Qc) (xs : list Qc) :
  ewm_from alpha (k * prev) (Qcmult k <$> xs) = Qcmult k <$> ewm_from alpha prev xs.
Proof.
  revert prev. induction xs as [|x xs IH]; intros prev; csimpl; [done|].
  replace ((1 - alpha) * (k * prev) + alpha * (k * x))%Qc
    with (k * ((1 - alpha) * prev + alpha * x))%Qc by ring.
  by rewrite IH.
Qed.

Lemma ewm_mean_scale (span : Z) (xs : list Qc) :
  ewm_mean span (Qcmult k <$> xs) = rmap (fmap (Qcmult k)) (ewm_mean span xs).
Proof.
  unfold ewm_mean. destruct (span <? 1)%Z; [done|].
  destruct xs as [|x xs]; csimpl; [done|]. by rewrite ewm_from_scale.
Qed.

Lemma calculate_macd_scale (xs : list Qc) :
  calculate_macd (Qcmult k <$> xs)
  = rmap (λ r, (Qcmult k <$> r.1, Qcmult k <$> r.2)) (calculate_macd xs).
Proof.
  unfold calculate_macd. rewrite !ewm_mean_scale.
  destruct (ewm_mean 12 xs) as [exp1|]; [|done].
  destruct (ewm_mean 26 xs) as [exp2|]; [|done].
  cbn [mbind result_bind rmap].
  rewrite (zip_with_fmap_hom Qcminus Qcminus (Qcmult k) (Qcmult k) (Qcmult k))
    by (intros a b; ring).
  rewrite ewm_mean_scale.
  by destruct (ewm_mean 9 (zip_with Qcminus exp1 exp2)).
Qed.

Lemma diff_scale (xs : list Qc) : diff (Qcmult k <$> xs) = nscale k <$> diff xs.
Proof.
  destruct xs as [|x xs]; [done|].
  change (diff (Qcmult k <$> x :: xs))
    with (NaN :: zip_with (λ prev cur, Fin (cur - prev)%Qc)
                   (Qcmult k <$> x :: xs) (Qcmult k <$> xs)).
  change (diff (x :: xs))
    with (NaN :: zip_with (λ prev cur, Fin (cur - prev)%Qc) (x :: xs) xs).
  rewrite (fmap_cons (nscale k)). f_equal.
  apply (zip_with_fmap_hom (λ prev cur, Fin (cur - prev)%Qc)).
  intros a b. simpl. f_equal. ring.
Qed.

Lemma gains_scale (ds : list num) :
  where_ (λ d, ngt d (Fin (fl 0))) (Fin (fl 0)) (nscale k <$> ds)
  = nscale k <$> where_ (λ d, ngt d (Fin (fl 0))) (Fin (fl 0)) ds.
Proof.
  unfold where_. rewrite <- !list_fmap_compose. apply list_fmap_ext.
  intros _ d _. simpl. rewrite (ngt_nscale_zero k k_pos).
  destruct (ngt d (Fin (fl 0))); [done|]. by rewrite nscale_zero.
Qed.

Lemma losses_scale (ds : list num) :
  nneg <$> where_ (λ d, nlt d (Fin (fl 0))) (Fin (fl 0)) (nscale k <$> ds)
  = nscale k <$> (nneg <$> where_ (λ d, nlt d (Fin (fl 0))) (Fin (fl 0)) ds).
Proof.
  unfold where_. rewrite <- !list_fmap_compose. apply list_fmap_ext.
  intros _ d _. simpl. rewrite (nlt_nscale_zero k k_pos), <- nneg_nscale.
  destruct (nlt d (Fin (fl 0))); [done|]. by rewrite nscale_zero.
Qed.

Lemma rolling_mean_scale (period : nat) (xs : list num) :
  rolling period win_mean NaN (nscale k <$> xs)
  = nscale k <$> rolling period win_mean NaN xs.
Proof. apply rolling_fmap; [apply (win_mean_nscale k k_pos)|done]. Qed.

Lemma calculate_rsi_scale (xs : list Qc) (period : nat) :
  calculate_rsi (Qcmult k <$> xs) period = calculate_rsi xs period.
Proof.
  unfold calculate_rsi, rsi_rs, rsi_gain, rsi_loss.
  rewrite diff_scale, gains_scale, losses_scale, !rolling_mean_scale.
  f_equal.
  rewrite (zip_with_fmap_hom ndiv ndiv (nscale k) (nscale k) (@Datatypes.id num))
    by (intros a b; apply (ndiv_nscale k k_pos)).
  apply list_fmap_id.
Qed.

Lemma calculate_bollinger_bands_scale (xs : list Qc) (period : nat) :
  calculate_bollinger_bands (Qcmult k <$> xs) period
  = (bscale k <$> (calculate_bollinger_bands xs period).1,
     bscale k <$> (calculate_bollinger_bands xs period).2).
Proof.
  unfold calculate_bollinger_bands. cbn [fst snd].
  rewrite <- list_fmap_compose.
  rewrite (list_fmap_ext (Fin ∘ Qcmult k) (nscale k ∘ Fin) xs) by done.
  rewrite list_fmap_compose, rolling_mean_scale.
  rewrite (rolling_fmap period win_std NaN (nscale k) (bscale k))
    by (apply (win_std_nscale k k_pos) || done).
  f_equal; apply zip_with_fmap_hom; intros m s.
  - by rewrite smul_bscale, ext_add_scale.
  - by rewrite smul_bscale, ext_sub_scale.
Qed.

Lemma mean_scale (xs : list Qc) : mean (Qcmult k <$> xs) = nscale k (mean xs).
Proof.
  unfold mean. rewrite <- list_fmap_compose.
  rewrite (list_fmap_ext (Fin ∘ Qcmult k) (nscale k ∘ Fin) xs) by done.
  rewrite list_fmap_compose. apply (win_mean_nscale k k_pos).
Qed.

(** A relative change does not depend on the unit. *)
Lemma percent_scale (a b : Qc) :
  nmul (ndiv (Fin (k * a - k * b)%Qc) (Fin (k * b)%Qc)) (Fin (fl 100))
  = nmul (ndiv (Fin (a - b)%Qc) (Fin b)) (Fin (fl 100)).
Proof.
  replace (k * a - k * b)%Qc with (k * (a - b))%Qc by ring.
  by rewrite <- (ndiv_nscale k k_pos (Fin (a - b)%Qc) (Fin b)).
Qed.

Lemma macd_rule_scale (m s p : Qc) :
  macd_rule (k * m - k * s) (k * m - k * p) = macd_rule (m - s) (m - p).
Proof.
  unfold macd_rule.
  replace (k * m - k * s)%Qc with (k * (m - s))%Qc by ring.
  replace (k * m - k * p)%Qc with (k * (m - p))%Qc by ring.
  by rewrite !(scale_pos k k_pos), (scale_neg k k_pos).
Qed.

Lemma bollinger_rule_scale (p : Qc) (lower upper : list (ext surd)) :
  bollinger_rule (k * p) (bscale k <$> lower) (bscale k <$> upper)
  = bollinger_rule p lower upper.
Proof.
  unfold bollinger_rule. rewrite !iloc_fmap.
  destruct (iloc lower (-1)) as [lo|]; [|done]. cbn [mbind result_bind rmap].
  rewrite (price_below_scale k k_pos). destruct (price_below p lo); [done|].
  destruct (iloc upper (-1)) as [up|]; [|done]. cbn [mbind result_bind rmap].
  by rewrite (price_above_scale k k_pos).
Qed.

End ScalingSeries.

(** The scorer on a window quoted in other units: same signal, same
    confidence; only the reported MACD value carries the price unit. *)
Lemma analyze_window_scale (k j : Qc) (recent_data : DataFrame) :
  (0 < k)%Qc -> (0 < j)%Qc ->
  analyze_window (scale_df k j recent_data)
  = rmap (scale_locals k) (analyze_window recent_data).
Proof.
  intros Hk Hj. unfold analyze_window, scale_df.
  rewrite <- !list_fmap_compose.
  rewrite (list_fmap_ext (Close ∘ _) (Qcmult k ∘ Close) recent_data) by done.
  rewrite (list_fmap_ext (Volume ∘ _) (Qcmult j ∘ Volume) recent_data) by done.
  rewrite !list_fmap_compose.
  set (close_prices := Close <$> recent_data).
  set (volume := Volume <$> recent_data).
  unfold calculate_ema.
  rewrite !(ewm_mean_scale k), (calculate_macd_scale k), (calculate_rsi_scale k Hk),
    (calculate_bollinger_bands_scale k Hk), (mean_scale j Hj).
  destruct (ewm_mean 7 close_prices) as [ema_7|]; [|done].
  destruct (ewm_mean 21 close_prices) as [ema_21|]; [|done].
  destruct (calculate_macd close_prices) as [[macd macd_signal]|]; [|done].
  destruct (calculate_bollinger_bands close_prices 20) as [upper lower].
  cbn [mbind result_bind rmap fst snd]. rewrite !iloc_fmap.
  destruct (iloc close_prices 0) as [start_price|]; [|done].
  destruct (iloc close_prices (-1)) as [end_price|]; [|done].
  destruct (iloc volume (-1)) as [current_volume|]; [|done].
  destruct (iloc ema_7 (-1)) as [e7|]; [|done].
  destruct (iloc ema_21 (-1)) as [e21|]; [|done].
  destruct (iloc macd (-1)) as [m1|]; [|done].
  destruct (iloc macd_signal (-1)) as [s1|]; [|done].
  destruct (iloc macd (-2)) as [m2|]; [|done].
  destruct (iloc (calculate_rsi close_prices 14) (-1)) as [last_rsi|]; [|done].
  cbn [mbind result_bind rmap].
  rewrite (bollinger_rule_scale k Hk).
  destruct (bollinger_rule end_price lower upper) as [[bb_signals bb]|]; [|done].
  unfold mret, result_ret. cbn [mbind result_bind rmap].
  unfold scale_locals. locals_proj.
  rewrite !(percent_scale k Hk), (macd_rule_scale k Hk).
  rewrite (ngt_nscale_zero j Hj).
  change (Fin (j * current_volume)%Qc) with (nscale j (Fin current_volume)).
  rewrite (ndiv_nscale j Hj). reflexivity.
Qed.

(** ** The rising window *)

Lemma rising_window_scaled (p0 vol : Qc) :
  rising_window p0 vol
  = scale_df (p0 / fl 1000 ^ 29) vol (rising_window (fl 1000 ^ 29) (fl 1)).
Proof.
  unfold rising_window, scale_df. rewrite <- list_fmap_compose.
  apply list_fmap_ext. intros _ i _. cbn [compose Close Volume].
  assert (fl 1000 ^ 29 <> 0)%Qc as Hnz by compute_done.
  f_equal; [field; done|]. unfold fl. destruct (i =? 29)%nat; ring.
Qed.

(** The scorer evaluated on the rising window with first close [1000^29], for
    which every close is a whole number. *)
Lemma rising_window_base :
  match analyze_window (rising_window (fl 1000 ^ 29) (fl 1)) with
  | Ok v =>
      bool_decide (v_volume_strength v = 3%Z
                   /\ v_last_rsi v = Fin (fl 100)
                   /\ v_bb_position v = normal
                   /\ v_trend_signals v = [1; 1; 1; -2; -1]%Z
                   /\ v_trend_strength v = fl 0
                   /\ v_confidence v = fl 50
                   /\ v_signal v = NEUTRAL)
  | Raise _ => false
  end = true.
Proof. vm_compute. reflexivity. Qed.

(** On every rising window the +1 of the EMA rule and the +2 of the MACD rule
    are cancelled by the -3 of the RSI rule, whose reading is 100. *)
Lemma analyze_rising_window (p0 vol : Qc) :
  (0 < p0)%Qc -> (0 < vol)%Qc ->
  exists v : locals,
    analyze_window (rising_window p0 vol) = Ok v
    /\ v_volume_strength v = 3%Z
    /\ v_last_rsi v = Fin (fl 100)
    /\ v_bb_position v = normal
    /\ v_trend_signals v = [1; 1; 1; -2; -1]%Z
    /\ v_trend_strength v = fl 0
    /\ v_confidence v = fl 50
    /\ v_signal v = NEUTRAL.
Proof.
  intros Hp Hvol. rewrite rising_window_scaled, analyze_window_scale; [|by
    apply Qcmult_pos_pos; [|apply Qcinv_pos]|done].
  pose proof rising_window_base as Hbase.
  destruct (analyze_window (rising_window (fl 1000 ^ 29) (fl 1))) as [v|];
    [|discriminate Hbase].
  apply bool_decide_eq_true_1 in Hbase. exists (scale_locals (p0 / fl 1000 ^ 29) v).
  split; [done|]. exact Hbase.
Qed.

(** C2, amended.  For every window of 30 samples whose close rises 0.1% per
    step from a positive price, with a positive constant volume that doubles
    on the last sample, the scorer yields volume strength 3, an RSI of 100
    and the signal vector [1, 1, 1, -2, -1]; its sum is 0, so the signal is
    NEUTRAL with confidence exactly 50 and no error. *)
Theorem rising_window_scores (df : DataFrame) (p0 vol : Qc) :
  (0 < p0)%Qc -> (0 < vol)%Qc ->
  (30 <= Z.of_nat (length df))%Z ->
  tail 30 df = rising_window p0 vol ->
  (exists v : locals,
     analyze_window (tail 30 df) = Ok v
     /\ v_volume_strength v = 3%Z
     /\ v_last_rsi v = Fin (fl 100)
     /\ v_trend_signals v = [1; 1; 1; -2; -1]%Z)
  /\ (analyze_timeframe (Some df) 30).1.1.1 = NEUTRAL
  /\ ind_confidence (analyze_timeframe (Some df) 30).1.2 = fl 50
  /\ (analyze_timeframe (Some df) 30).2 = None.
Proof.
  intros Hp Hvol Hlen Htail.
  destruct (analyze_rising_window p0 vol Hp Hvol)
    as (v & Hv & Hvs & Hrsi & _ & Hsig & _ & Hconf & Hsignal).
  rewrite <- Htail in Hv. rewrite (analyze_timeframe_ok df 30 v Hlen Hv).
  split; [by exists v|].
  cbn [result_of_locals fst snd ind_confidence]. rewrite Hconf.
  split; [done|]. split; [compute_done|done].
Qed.

Lemma rising_window_scores_witness :
  (analyze_timeframe (Some (rising_window (fl 100) (fl 1000))) 30).1.1.1 = NEUTRAL.
Proof.
  apply (rising_window_scores (rising_window (fl 100) (fl 1000)) (fl 100) (fl 1000));
    compute_done.
Defined.

(** C2 as stated fails: with first close 100 and volume 1000 the signal is
    NEUTRAL, not BUY, and the confidence is 50, not above. *)
Lemma rising_window_not_buy :
  let r := analyze_timeframe (Some (rising_window (fl 100) (fl 1000))) 30 in
  r.1.1.1 = NEUTRAL /\ r.1.1.1 <> BUY
  /\ ind_confidence r.1.2 = fl 50 /\ ~ (fl 50 < ind_confidence r.1.2)%Qc.
Proof.
  cbv zeta.
  destruct (analyze_rising_window (fl 100) (fl 1000))
    as (v & Hv & _ & _ & _ & _ & _ & Hconf & Hsignal); [done|done|].
  rewrite (analyze_timeframe_ok (rising_window (fl 100) (fl 1000)) 30 v);
    [|compute_done|].
  - cbn [result_of_locals fst snd ind_confidence]. rewrite Hconf, Hsignal.
    repeat split; compute_done.
  - by replace (tail 30 (rising_window (fl 100) (fl 1000)))
      with (rising_window (fl 100) (fl 1000)) by compute_done.
Qed.

(** ** Runs that cannot fault *)

Lemma iloc_neg_ok {A} (xs : list A) (i : Z) :
  (- Z.of_nat (length xs) <= i < 0)%Z -> exists x, iloc xs i = Ok x.
Proof.
  intros Hi.
  destruct (lookup_lt_is_Some_2 xs (length xs - Z.to_nat (- i))) as [x Hx]; [lia|].
  exists x. replace i with (- Z.of_nat (Z.to_nat (- i)))%Z by lia.
  apply iloc_neg; [lia|done].
Qed.

Lemma iloc_first_ok {A} (xs : list A) :
  (1 <= length xs)%nat -> exists x, iloc xs 0 = Ok x.
Proof.
  intros Hk. destruct xs as [|x xs]; [simpl in Hk; lia|]. by exists x.
Qed.

Lemma ewm_mean_ok (span : Z) (xs : list Qc) :
  (1 <= span)%Z ->
  exists ys, ewm_mean span xs = Ok ys /\ length ys = length xs.
Proof.
  intros Hspan. unfold ewm_mean.
  destruct (Z.ltb_spec span 1) as [?|_]; [lia|].
  destruct xs as [|x xs]; [by exists []|].
  eexists. split; [done|]. simpl. by rewrite ewm_from_length.
Qed.

Lemma calculate_macd_ok (data : list Qc) :
  exists macd signal : list Qc,
    calculate_macd data = Ok (macd, signal)
    /\ length macd = length data /\ length signal = length data.
Proof.
  unfold calculate_macd.
  destruct (ewm_mean_ok 12 data) as (exp1 & -> & H1); [lia|].
  destruct (ewm_mean_ok 26 data) as (exp2 & -> & H2); [lia|].
  cbn [mbind result_bind].
  destruct (ewm_mean_ok 9 (zip_with Qcminus exp1 exp2)) as (signal & -> & H3); [lia|].
  eexists _, _. split; [done|].
  rewrite H3, length_zip_with. lia.
Qed.

Lemma calculate_rsi_length (data : list Qc) (period : nat) :
  length (calculate_rsi data period) = length data.
Proof.
  unfold calculate_rsi, rsi_rs, rsi_gain, rsi_loss, where_.
  rewrite length_fmap, length_zip_with, !rolling_length, !length_fmap, diff_length.
  lia.
Qed.

Lemma calculate_bollinger_bands_length (data : list Qc) (period : nat) :
  length (calculate_bollinger_bands data period).1 = length data
  /\ length (calculate_bollinger_bands data period).2 = length data.
Proof.
  unfold calculate_bollinger_bands. cbn [fst snd].
  rewrite !length_zip_with, !rolling_length, !length_fmap. lia.
Qed.

Lemma bollinger_rule_ok (price : Qc) (lower upper : list (ext surd)) :
  (1 <= length lower)%nat -> (1 <= length upper)%nat ->
  exists r, bollinger_rule price lower upper = Ok r.
Proof.
  intros Hl Hu. unfold bollinger_rule.
  destruct (iloc_neg_ok lower (-1)) as [l ->]; [lia|].
  destruct (iloc_neg_ok upper (-1)) as [u ->]; [lia|].
  cbn [mbind result_bind]. repeat case_match; by eexists.
Qed.

Lemma analyze_window_ok (recent_data : DataFrame) :
  (2 <= length recent_data)%nat -> exists v, analyze_window recent_data = Ok v.
Proof.
  intros Hlen. unfold analyze_window, calculate_ema.
  set (close_prices := Close <$> recent_data).
  set (volume := Volume <$> recent_data).
  assert (length close_prices = length recent_data) as Hc by apply length_fmap.
  assert (length volume = length recent_data) as Hvol by apply length_fmap.
  destruct (ewm_mean_ok 7 close_prices) as (ema_7 & -> & H7); [lia|].
  destruct (ewm_mean_ok 21 close_prices) as (ema_21 & -> & H21); [lia|].
  destruct (calculate_macd_ok close_prices) as (macd & sig & -> & Hm & Hs).
  destruct (calculate_bollinger_bands_length close_prices 20) as [Hu Hl].
  destruct (calculate_bollinger_bands close_prices 20) as [upper lower].
  cbn [fst snd] in Hu, Hl. cbn [mbind result_bind].
  destruct (iloc_first_ok close_prices) as [start_price ->]; [lia|].
  destruct (iloc_neg_ok close_prices (-1)) as [end_price ->]; [lia|].
  destruct (iloc_neg_ok volume (-1)) as [current_volume ->]; [lia|].
  destruct (iloc_neg_ok ema_7 (-1)) as [e7 ->]; [lia|].
  destruct (iloc_neg_ok ema_21 (-1)) as [e21 ->]; [lia|].
  destruct (iloc_neg_ok macd (-1)) as [m1 ->]; [lia|].
  destruct (iloc_neg_ok sig (-1)) as [s1 ->]; [lia|].
  destruct (iloc_neg_ok macd (-2)) as [m2 ->]; [lia|].
  destruct (iloc_neg_ok (calculate_rsi close_prices 14) (-1)) as [last_rsi ->];
    [rewrite calculate_rsi_length; lia|].
  cbn [mbind result_bind].
  destruct (bollinger_rule_ok end_price lower upper) as [[bb_signals bb] ->]; [lia..|].
  cbn [mbind result_bind]. by eexists.
Qed.

Lemma analyze_window_short (recent_data : DataFrame) :
  (length recent_data < 2)%nat -> analyze_window recent_data = Raise IndexError.
Proof.
  intros Hlen. destruct recent_data as [|c [|??]]; [done|done|simpl in Hlen; lia].
Qed.

(** X1.  The scorer faults on a window of fewer than two rows, always with an
    IndexError, and on no other window: with [2 <= minutes <= len(df)] the
    returned error is [None] and the indicators carry [rsi], [macd] and
    [bb_position]. *)
Theorem faults_need_short_window (df : DataFrame) (minutes : Z) :
  (forall recent_data : DataFrame,
     (analyze_window recent_data = Raise IndexError
      <-> (length recent_data < 2)%nat)
     /\ ((exists v, analyze_window recent_data = Ok v)
         <-> (2 <= length recent_data)%nat))
  /\ ((2 <= minutes <= Z.of_nat (length df))%Z ->
      exists v : locals,
        analyze_window (tail minutes df) = Ok v
        /\ analyze_timeframe (Some df) minutes
           = (v_signal v, v_price_change v,
              Indicators (py_round (v_confidence v) 1) minutes
                (Some (nround (v_last_rsi v) 2))
                (Some (py_round (v_macd_last v) 4)) (Some (v_bb_position v)),
              None)).
Proof.
  split.
  - intros recent_data.
    destruct (Nat.lt_ge_cases (length recent_data) 2) as [Hlt|Hge].
    + pose proof (analyze_window_short _ Hlt) as Hshort.
      split; split; try done; try lia.
      intros [v Hv]. congruence.
    + destruct (analyze_window_ok _ Hge) as [v Hv].
      split; split; try lia; [congruence|by exists v].
  - intros Hlen.
    destruct (analyze_window_ok (tail minutes df)) as [v Hv].
    { rewrite tail_length; lia. }
    exists v. split; [done|].
    by rewrite (analyze_timeframe_ok df minutes v) by (lia || done).
Qed.

Lemma faults_need_short_window_witness :
  exists v : locals,
    analyze_window (tail 5 flat_df) = Ok v
    /\ analyze_timeframe (Some flat_df) 5
       = (v_signal v, v_price_change v,
          Indicators (py_round (v_confidence v) 1) 5
            (Some (nround (v_last_rsi v) 2))
            (Some (py_round (v_macd_last v) 4)) (Some (v_bb_position v)),
          None).
Proof.
  apply (proj2 (faults_need_short_window flat_df 5)). compute_done.
Defined.

(** ** Rows older than the window *)

Lemma tail_app_older {A} (older xs : list A) (n : Z) :
  (0 <= n <= Z.of_nat (length xs))%Z -> tail n (older ++ xs) = tail n xs.
Proof.
  intros Hn. unfold tail.
  destruct (Z.eqb_spec n 0) as [|Hnz]; [done|].
  rewrite (proj2 (Z.ltb_ge n 0)) by lia.
  rewrite length_app.
  replace (length older + length xs - Z.to_nat n)%nat
    with (length older + (length xs - Z.to_nat n))%nat by lia.
  by rewrite drop_app_add'.
Qed.

(** X2.  The scorer looks at the last [minutes] rows only: rows before them,
    as many as there may be, change nothing in what it returns. *)
Theorem older_rows_ignored (older df : DataFrame) (minutes : Z) :
  (0 <= minutes <= Z.of_nat (length df))%Z ->
  analyze_timeframe (Some (older ++ df)) minutes
  = analyze_timeframe (Some df) minutes.
Proof.
  intros Hlen. unfold analyze_timeframe.
  rewrite length_app, tail_app_older by done.
  destruct (Z.ltb_spec (Z.of_nat (length df)) minutes) as [?|_]; [lia|].
  by destruct (Z.ltb_spec (Z.of_nat (length older + length df)) minutes)
    as [?|_]; [lia|].
Qed.

Lemma older_rows_ignored_witness :
  analyze_timeframe (Some (uptick_df ++ flat_df)) 30
  = analyze_timeframe (Some flat_df) 30.
Proof. apply (older_rows_ignored uptick_df flat_df 30). compute_done. Defined.

(** ** From the votes to the signal *)

Lemma votes_sum_bound (recent_data : DataFrame) (v : locals) :
  analyze_window recent_data = Ok v ->
  (-8 <= py_sum (v_trend_signals v) <= 8)%Z
  /\ (0 <= v_volume_strength v <= 3)%Z.
Proof.
  intros Hv.
  apply analyze_window_inv in Hv
    as (?&cp&edp&md&mt&bbs&_&_&Hvs&_&_&Hbb&Hsig&_).
  destruct (ema_rule_bound edp) as [_ Ha].
  destruct (macd_rule_bound md mt) as [_ Hb].
  destruct (rsi_rule_bound (v_last_rsi v)) as [_ Hc].
  destruct (bollinger_rule_bound _ _ _ _ _ Hbb) as [_ Hd].
  split; [rewrite Hsig, !py_sum_app; lia|].
  rewrite Hvs. apply volume_strength_range.
Qed.

Lemma decision_table (trend_signals : list Z) (vs : Z) :
  let s := py_sum trend_signals in
  let ts := trend_strength_of trend_signals vs in
  (-8 <= s <= 8)%Z -> (0 <= vs <= 3)%Z ->
  confidence_of ts = Qc_of_Z (Z.min 95 (50 + Z.abs s * (5 + vs)))
  /\ (signal_of ts = BUY <-> (2 <= s \/ (s = 1 /\ 1 <= vs))%Z)
  /\ (signal_of ts = SELL <-> (s <= -2 \/ (s = -1 /\ 1 <= vs))%Z)
  /\ (signal_of ts = NEUTRAL <-> (s = 0 \/ (Z.abs s = 1 /\ vs = 0))%Z).
Proof.
  cbv zeta. unfold trend_strength_of. generalize (py_sum trend_signals).
  intros s Hs Hvs.
  assert (exists i j : nat, (i < 17)%nat /\ (j < 4)%nat
            /\ s = (Z.of_nat i - 8)%Z /\ vs = Z.of_nat j) as (i&j&Hi&Hj&->&->).
  { exists (Z.to_nat (s + 8)), (Z.to_nat vs). lia. }
  repeat (destruct j as [|j]; [|try lia]);
    repeat (destruct i as [|i]; [|try lia]);
    (split; [compute_done|]); cbn; repeat split; intros; try lia; try done.
Qed.

(** X4.  On every run that reaches its [return], the signal and the confidence
    are functions of two whole numbers: the sum [s] of the votes and the
    volume strength [vs]. The confidence is [min(95, 50 + |s| * (5 + vs))].
    Two or more net votes always give BUY (SELL when negative); a single net
    vote gives a signal only with a volume strength of at least 1; votes that
    cancel give NEUTRAL. Hence a BUY or SELL never has a confidence below 56,
    and the confidence is 50 exactly when the votes cancel. *)
Theorem signal_decided_by_votes (recent_data : DataFrame) (v : locals) :
  analyze_window recent_data = Ok v ->
  let s := py_sum (v_trend_signals v) in
  let vs := v_volume_strength v in
  v_confidence v = Qc_of_Z (Z.min 95 (50 + Z.abs s * (5 + vs)))
  /\ (v_signal v = BUY <-> (2 <= s \/ (s = 1 /\ 1 <= vs))%Z)
  /\ (v_signal v = SELL <-> (s <= -2 \/ (s = -1 /\ 1 <= vs))%Z)
  /\ (v_signal v = NEUTRAL <-> (s = 0 \/ (Z.abs s = 1 /\ vs = 0))%Z)
  /\ (v_signal v <> NEUTRAL -> (fl 56 <= v_confidence v)%Qc)
  /\ (v_confidence v = fl 50 <-> s = 0%Z).
Proof.
  intros Hv s vs.
  destruct (votes_sum_bound _ _ Hv) as [Hs Hvs]. fold s in Hs. fold vs in Hvs.
  apply analyze_window_inv in Hv as (?&?&?&?&?&?&_&_&_&_&_&_&_&Hts&Hc&Hsig).
  destruct (decision_table (v_trend_signals v) vs Hs Hvs)
    as (Hconf & Hbuy & Hsell & Hneu).
  fold s in Hconf, Hbuy, Hsell, Hneu. fold vs in Hts.
  rewrite Hc, Hsig, Hts.
  split; [exact Hconf|]. split; [exact Hbuy|]. split; [exact Hsell|].
  split; [exact Hneu|]. rewrite Hconf.
  assert (forall a b : Z, (a <= b)%Z -> (Qc_of_Z a <= Qc_of_Z b)%Qc) as Hmono.
  { intros a b Hab. unfold Qcle, Qle. simpl. lia. }
  assert (forall a b : Z, Qc_of_Z a = Qc_of_Z b -> a = b) as Hinj.
  { intros a b Hab. apply (f_equal (λ q : Qc, Qnum q)) in Hab. exact Hab. }
  split.
  - intros Hnn.
    assert (fl 56 = Qc_of_Z 56) as -> by compute_done. apply Hmono.
    destruct (signal_of (trend_strength_of (v_trend_signals v) vs)); [| |done].
    + destruct (proj1 Hbuy eq_refl); nia.
    + destruct (proj1 Hsell eq_refl); nia.
  - assert (fl 50 = Qc_of_Z 50) as -> by compute_done. split.
    + intros Heq%Hinj. nia.
    + intros ->. done.
Qed.

Lemma signal_decided_by_votes_witness :
  exists v : locals,
    analyze_window (tail 30 uptick_df) = Ok v
    /\ (v_signal v = SELL
        <-> (py_sum (v_trend_signals v) <= -2
             \/ (py_sum (v_trend_signals v) = -1 /\ 1 <= v_volume_strength v))%Z).
Proof.
  destruct (analyze_window (tail 30 uptick_df)) as [v|e] eqn:Hv;
    [|vm_compute in Hv; discriminate Hv].
  exists v. split; [done|].
  pose proof (signal_decided_by_votes (tail 30 uptick_df) v Hv) as H.
  cbv zeta in H. destruct H as (_ & _ & H & _). exact H.
Defined.

(** ** Constant volume *)

(** X5.  When every row of the window carries the same volume, a number of
    which binary64 sums the copies of the window exactly (its mean is then the
    volume itself), the volume ratio is 1, the volume strength 0 and the trend
    strength the plain sum of the votes: a single net vote is then never
    enough for a signal. *)
Theorem constant_volume_no_boost (recent_data : DataFrame) (v : locals) (vol : Qc) :
  analyze_window recent_data = Ok v ->
  sums_exactly (Z.of_nat (length recent_data)) vol ->
  Forall (λ x, Volume x = vol) recent_data ->
  let s := py_sum (v_trend_signals v) in
  v_volume_ratio v = Fin (fl 1)
  /\ v_volume_strength v = 0%Z
  /\ v_trend_strength v = Qc_of_Z s
  /\ (v_signal v = NEUTRAL <-> (-1 <= s <= 1)%Z)
  /\ (v_signal v = BUY <-> (2 <= s)%Z)
  /\ (v_signal v = SELL <-> (s <= -2)%Z).
Proof.
  intros Hv _ Hall s.
  destruct (votes_sum_bound _ _ Hv) as [Hs _]. fold s in Hs.
  pose proof Hv as Hinv.
  apply analyze_window_inv in Hinv
    as (cur&?&?&?&?&?&Hcur&Hratio&Hvs&_&_&_&_&Hts&_&Hsig).
  assert (Volume <$> recent_data = replicate (length recent_data) vol) as Hrep.
  { symmetry. apply replicate_as_Forall. split; [by rewrite length_fmap|].
    apply Forall_fmap. eapply Forall_impl; [exact Hall|]. by intros c <-. }
  assert (1 <= length recent_data)%nat as Hlen.
  { destruct recent_data; [by vm_compute in Hcur|simpl; lia]. }
  rewrite Hrep in Hratio, Hcur.
  rewrite (iloc_replicate_neg vol _ 1) in Hcur by lia.
  apply Ok_inj in Hcur. subst cur.
  rewrite volume_ratio_replicate in Hratio by done.
  assert (v_volume_strength v = 0%Z) as Hzero by by rewrite Hvs, Hratio.
  destruct (decision_table (v_trend_signals v) 0 Hs ltac:(lia))
    as (_ & Hbuy & Hsell & Hneu).
  fold s in Hbuy, Hsell, Hneu.
  rewrite Hsig, Hts, Hzero.
  split; [rewrite Hratio; f_equal; compute_done|].
  split; [done|].
  split.
  { unfold trend_strength_of. fold s.
    assert (fl 1 + Qc_of_Z 0 * fl 0.2 = 1)%Qc as -> by compute_done. ring. }
  split; [rewrite Hneu; lia|]. split; [rewrite Hbuy; lia|rewrite Hsell; lia].
Qed.

Lemma constant_volume_no_boost_witness :
  exists v : locals,
    analyze_window (tail 30 flat_df) = Ok v
    /\ v_volume_ratio v = Fin (fl 1) /\ v_volume_strength v = 0%Z.
Proof.
  destruct (analyze_window (tail 30 flat_df)) as [v|e] eqn:Hv;
    [|vm_compute in Hv; discriminate Hv].
  exists v. split; [done|].
  pose proof (constant_volume_no_boost (tail 30 flat_df) v (fl 1) Hv) as H.
  cbv zeta in H. destruct H as (H1 & H2 & _); [|compute_done|by split].
  exists 1%Z, 0%nat. split; [compute_done|split; [compute_done|lia]].
Defined.

(** ** The range of the relative strength index *)

Lemma gains_nonneg (data : list Qc) :
  Forall nonneg_fin (where_ (λ d, ngt d (Fin (fl 0))) (Fin (fl 0)) (diff data)).
Proof.
  unfold where_. apply Forall_fmap.
  eapply Forall_impl; [apply diff_nan_or_Fin|].
  intros d [->|[q ->]]; simpl; [by exists 0%Qc|].
  unfold ngt, nlt. case_bool_decide; [|by exists 0%Qc].
  exists q. split; [done|]. by apply Qclt_le_weak.
Qed.

Lemma losses_nonneg (data : list Qc) :
  Forall nonneg_fin
    (nneg <$> where_ (λ d, nlt d (Fin (fl 0))) (Fin (fl 0)) (diff data)).
Proof.
  unfold where_. rewrite <- list_fmap_compose. apply Forall_fmap.
  eapply Forall_impl; [apply diff_nan_or_Fin|].
  intros d [->|[q ->]]; simpl; [by exists 0%Qc|].
  unfold nlt. case_bool_decide as Hq; [|by exists 0%Qc].
  exists (- q)%Qc. split; [done|].
  apply Qclt_le_weak in Hq. apply Qcopp_le_compat in Hq. exact Hq.
Qed.

Lemma win_mean_nonneg (w : list num) :
  Forall nonneg_fin w -> win_mean w = NaN \/ nonneg_fin (win_mean w).
Proof.
  intros Hall. unfold win_mean. rewrite (nonneg_fin_not_nan _ Hall).
  destruct w as [|x w]; [by left|]. right.
  destruct (nsum_nonneg _ Hall) as (s & -> & Hs).
  assert (0 < Qc_of_Z (Z.of_nat (length (x :: w))))%Qc as Hlen.
  { apply Qc_of_Z_pos. simpl. lia. }
  unfold ndiv. rewrite bool_decide_eq_false_2
    by (intros Heq; rewrite Heq in Hlen; by apply Qclt_not_eq in Hlen).
  eexists. split; [done|].
  unfold Qcdiv. apply Qcmult_nonneg_nonneg; [done|].
  by apply Qclt_le_weak, Qcinv_pos.
Qed.

Lemma rolling_mean_nonneg (period : nat) (xs : list num) :
  Forall nonneg_fin xs ->
  Forall (λ m, m = NaN \/ nonneg_fin m) (rolling period win_mean NaN xs).
Proof.
  intros Hall. unfold rolling. apply Forall_fmap, Forall_forall.
  intros i _. simpl. destruct (period <=? S i)%nat; [|by left].
  by apply win_mean_nonneg, Forall_take, Forall_drop.
Qed.

Lemma rs_of_averages (gain loss : num) :
  gain = NaN \/ nonneg_fin gain -> loss = NaN \/ nonneg_fin loss ->
  ndiv gain loss = NaN \/ ndiv gain loss = PInf \/ nonneg_fin (ndiv gain loss).
Proof.
  intros [->|(a & -> & Ha)] [->|(b & -> & Hb)]; try by left.
  unfold ndiv. case_bool_decide as Hzero.
  - unfold sign. case_bool_decide; [by right; left|].
    case_bool_decide as Hneg; [|by left].
    exfalso. by apply Qclt_not_le in Hneg.
  - right; right. eexists. split; [done|].
    assert (0 < b)%Qc as Hpos.
    { apply Qcle_lt_or_eq in Hb as [?|Heq]; [done|]. by destruct Hzero. }
    unfold Qcdiv. apply Qcmult_nonneg_nonneg; [done|].
    by apply Qclt_le_weak, Qcinv_pos.
Qed.

Lemma rsi_of_rs_range (rs : num) :
  rs = NaN \/ rs = PInf \/ nonneg_fin rs ->
  let rsi := nsub (Fin (fl 100)) (ndiv (Fin (fl 100)) (nadd (Fin (fl 1)) rs)) in
  rsi = NaN \/ exists q : Qc, rsi = Fin q /\ (0 <= q)%Qc /\ (q <= fl 100)%Qc.
Proof.
  intros [->|[->|(r & -> & Hr)]]; cbv zeta; [by left| |]; right.
  - exists (fl 100). split; [|split; compute_done].
    unfold nadd, ndiv, nsub. simpl. f_equal; compute_done.
  - set (t := (fl 1 + r)%Qc).
    assert (1 <= t)%Qc as Ht.
    { unfold t. replace 1%Qc with (fl 1 + 0)%Qc at 1 by compute_done.
      by apply Qcplus_le_mono_l. }
    assert (0 < t)%Qc as Ht0 by (eapply Qclt_le_trans; [|exact Ht]; done).
    assert (t <> 0%Qc) as Hnz
      by (intros Heq; rewrite Heq in Ht0; by apply Qclt_not_eq in Ht0).
    unfold nadd, ext_add. fold t. unfold ndiv. rewrite bool_decide_eq_false_2 by done.
    unfold nsub, ext_sub. eexists. split; [done|].
    assert (0 < / t)%Qc as Hinv by by apply Qcinv_pos.
    assert (/ t <= 1)%Qc as Hinv1.
    { apply (Qcmult_le_mono_pos_r _ _ t Ht0).
      rewrite (Qcmult_comm (/ t)), Qcmult_inv_r, Qcmult_1_l by done. exact Ht. }
    unfold Qcdiv. split.
    + apply Qcle_minus_iff.
      replace (fl 100 - fl 100 * / t + - 0)%Qc with (fl 100 * (1 + - / t))%Qc by ring.
      apply Qcmult_nonneg_nonneg; [done|].
      by apply (proj1 (Qcle_minus_iff _ _)) in Hinv1.
    + apply Qcle_minus_iff.
      replace (fl 100 + - (fl 100 - fl 100 * / t))%Qc with (fl 100 * / t)%Qc by ring.
      apply Qcmult_nonneg_nonneg; [done|]. by apply Qclt_le_weak.
Qed.

Lemma calculate_rsi_warmup (data : list Qc) (period i : nat) :
  (S i < period)%nat -> (i < length data)%nat ->
  calculate_rsi data period !! i = Some NaN.
Proof.
  intros Hi Hlen. unfold calculate_rsi, rsi_rs, rsi_gain.
  rewrite list_lookup_fmap, lookup_zip_with, rolling_lookup
    by (unfold where_; by rewrite length_fmap, diff_length).
  destruct (Nat.leb_spec period (S i)) as [?|_]; [lia|]. cbn.
  destruct (lookup_lt_is_Some_2 (rsi_loss data period) i) as [l ->]; [|done].
  unfold rsi_loss, where_. by rewrite rolling_length, !length_fmap, diff_length.
Qed.

(** X7.  [calculate_rsi] returns one value per price; each is either undefined
    (NaN) or a number between 0 and 100, and the values before position
    [period - 1] are undefined. *)
Theorem rsi_between_0_and_100 (data : list Qc) (period : nat) :
  length (calculate_rsi data period) = length data
  /\ (forall (i : nat) (r : num),
        calculate_rsi data period !! i = Some r ->
        r = NaN \/ exists q : Qc, r = Fin q /\ (0 <= q)%Qc /\ (q <= fl 100)%Qc)
  /\ (forall i : nat,
        (S i < period)%nat -> (i < length data)%nat ->
        calculate_rsi data period !! i = Some NaN).
Proof.
  split; [|split].
  - apply calculate_rsi_length.
  - intros i r. unfold calculate_rsi, rsi_rs.
    rewrite list_lookup_fmap, lookup_zip_with.
    destruct (rsi_gain data period !! i) as [g|] eqn:Hg; [|done].
    destruct (rsi_loss data period !! i) as [l|] eqn:Hl; [|done].
    intros [= <-]. apply rsi_of_rs_range, rs_of_averages.
    + exact (Forall_lookup_1 _ _ _ _
               (rolling_mean_nonneg period _ (gains_nonneg data)) Hg).
    + exact (Forall_lookup_1 _ _ _ _
               (rolling_mean_nonneg period _ (losses_nonneg data)) Hl).
  - intros i Hi Hlen. by apply calculate_rsi_warmup.
Qed.

Lemma rsi_between_0_and_100_witness :
  calculate_rsi (Close <$> uptick_df) 14 !! 5%nat = Some NaN.
Proof.
  apply (proj2 (proj2 (rsi_between_0_and_100 (Close <$> uptick_df) 14)));
    [lia|compute_done].
Defined.

(** ** RSI when the lookback holds no gain *)

Section RSIFalling.

Variable data : list Qc.
Variable period : nat.
Hypothesis period_bounds : (1 <= period <= length data)%nat.
Hypothesis no_gain :
  Forall (λ d, ngt d (Fin (fl 0)) = false) (lookback data period).
Hypothesis some_loss :
  Exists (λ d, nlt d (Fin (fl 0)) = true) (lookback data period).

Lemma avg_gain_zero : last (rsi_gain data period) = Some (Fin 0%Qc).
Proof.
  rewrite rsi_gain_last by done.
  rewrite win_mean_zero; [done|by apply lookback_nonempty|].
  apply Forall_fmap.
  eapply Forall_impl; [exact no_gain|]. intros d Hd. simpl. rewrite Hd.
  f_equal; compute_done.
Qed.

Lemma avg_loss_positive :
  exists l, last (rsi_loss data period) = Some (Fin l) /\ (0 < l)%Qc.
Proof.
  rewrite rsi_loss_last by done.
  pose proof (lookback_nan_or_Fin data period) as Hshape.
  destruct (win_mean_pos
              (nneg <$> ((λ d, if nlt d (Fin (fl 0)) then d else Fin (fl 0))
                           <$> lookback data period)))
    as (l & -> & Hl); [rewrite <- list_fmap_compose; by apply lookback_nonempty| |
                       |by exists l].
  - rewrite <- list_fmap_compose. apply Forall_fmap.
    eapply Forall_impl; [exact Hshape|].
    intros d [->|[q ->]]; simpl; [by exists 0%Qc|].
    unfold nlt. case_bool_decide as Hq; [|by exists 0%Qc].
    exists (- q)%Qc. split; [done|].
    apply Qclt_le_weak in Hq. apply Qcopp_le_compat in Hq. exact Hq.
  - destruct (proj1 (Exists_exists _ _) some_loss) as (d & Hin & Hd).
    apply Exists_exists. eexists.
    split; [by apply list_elem_of_fmap_2, list_elem_of_fmap_2|].
    simpl. rewrite Hd.
    destruct (proj1 (Forall_forall _ _) Hshape d Hin) as [->|[q ->]]; [done|].
    exists (- q)%Qc. split; [done|].
    unfold nlt in Hd. apply bool_decide_eq_true_1 in Hd.
    apply Qclt_minus_iff in Hd. by rewrite Qcplus_0_l in Hd.
Qed.

Lemma rs_zero : last (rsi_rs data period) = Some (Fin 0%Qc).
Proof.
  unfold rsi_rs. rewrite last_zip_with.
  - destruct avg_loss_positive as (l & -> & Hl). rewrite avg_gain_zero. simpl.
    unfold ndiv. rewrite bool_decide_eq_false_2
      by (intros Heq; rewrite Heq in Hl; by apply Qclt_not_eq in Hl).
    do 2 f_equal. unfold Qcdiv. apply Qcmult_0_l.
  - unfold rsi_gain, rsi_loss, where_. by rewrite !rolling_length, !length_fmap.
Qed.

Lemma rsi_zero : last (calculate_rsi data period) = Some (Fin (fl 0)).
Proof.
  unfold calculate_rsi. rewrite fmap_last, rs_zero. simpl.
  apply (f_equal Some). compute_done.
Qed.

End RSIFalling.

(** X8.  When no price difference in the 14-step RSI lookback is positive and
    at least one is negative, the average gain is 0 and the average loss is
    positive; the RSI is exactly 0 and the RSI rule appends +2 and +1, the
    oversold reading. *)
Theorem rsi_without_gains (recent_data : DataFrame) :
  let data := Close <$> recent_data in
  (14 <= length data)%nat ->
  Forall (λ d, ngt d (Fin (fl 0)) = false) (lookback data 14) ->
  Exists (λ d, nlt d (Fin (fl 0)) = true) (lookback data 14) ->
  iloc (rsi_gain data 14) (-1) = Ok (Fin 0%Qc)
  /\ (exists avg_loss : Qc,
        iloc (rsi_loss data 14) (-1) = Ok (Fin avg_loss) /\ (0 < avg_loss)%Qc)
  /\ iloc (rsi_rs data 14) (-1) = Ok (Fin 0%Qc)
  /\ iloc (calculate_rsi data 14) (-1) = Ok (Fin (fl 0))
  /\ rsi_rule (Fin (fl 0)) = [2; 1]%Z
  /\ forall v : locals,
       analyze_window recent_data = Ok v ->
       v_last_rsi v = Fin (fl 0)
       /\ exists before after : list Z,
            v_trend_signals v = before ++ [2; 1]%Z ++ after.
Proof.
  intros data Hlen Hgain Hloss.
  assert (1 <= 14 <= length data)%nat as Hperiod by lia.
  destruct (avg_loss_positive data 14 Hperiod Hloss) as (l & Hl & Hl0).
  pose proof (rsi_zero data 14 Hperiod Hgain Hloss) as Hrsi.
  split; [by apply iloc_last, avg_gain_zero|].
  split; [exists l; split; [by apply iloc_last|done]|].
  split; [by apply iloc_last, rs_zero|].
  split; [by apply iloc_last|].
  split; [done|].
  intros v Hv.
  apply analyze_window_inv in Hv
    as (?&?&edp&md&mt&bbs&_&_&_&Hlast&_&_&Hsig&_).
  fold data in Hlast. rewrite (iloc_last _ _ Hrsi) in Hlast.
  apply Ok_inj in Hlast. rewrite <- Hlast in Hsig. split; [done|].
  exists (ema_rule edp ++ macd_rule md mt), bbs.
  by rewrite Hsig, <- (assoc_L (++)).
Qed.

Lemma rsi_without_gains_witness :
  iloc (calculate_rsi (Close <$> falling_df) 14) (-1) = Ok (Fin (fl 0)).
Proof.
  pose proof (rsi_without_gains falling_df) as H.
  cbv zeta in H.
  destruct H as (_ & _ & _ & H & _); [compute_done..|exact H].
Defined.

(** ** Bollinger bands around their average *)

Lemma Qc_sum_squares_nonneg (m : Qc) (xs : list Qc) :
  (0 <= Qc_sum ((λ a, (a - m) * (a - m))%Qc <$> xs))%Qc.
Proof.
  unfold Qc_sum. induction xs as [|x xs IH]; csimpl; [done|].
  apply Qcplus_nonneg_nonneg; [|done].
  destruct (Qclt_le_dec (x - m) 0) as [Hneg|Hpos].
  - replace ((x - m) * (x - m))%Qc with ((- (x - m)) * (- (x - m)))%Qc by ring.
    assert (0 <= - (x - m))%Qc as H.
    { apply Qclt_le_weak in Hneg. by apply Qcopp_le_compat in Hneg. }
    by apply Qcmult_nonneg_nonneg.
  - by apply Qcmult_nonneg_nonneg.
Qed.

Lemma win_var_Fin (xs : list Qc) :
  (2 <= length xs)%nat ->
  exists m v : Qc,
    win_mean (Fin <$> xs) = Fin m
    /\ win_var (Fin <$> xs) = Fin v /\ (0 <= v)%Qc.
Proof.
  intros Hlen. unfold win_var. rewrite existsb_is_nan_Fin.
  fold (mean xs). rewrite mean_nonempty by (destruct xs; [simpl in Hlen; lia|done]).
  set (m := (Qc_sum xs / Qc_of_Z (Z.of_nat (length xs)))%Qc).
  exists m. cbv zeta. rewrite <- list_fmap_compose.
  rewrite (list_fmap_ext _ (Fin ∘ (λ a, (a - m) * (a - m))%Qc) xs) by done.
  rewrite list_fmap_compose, nsum_Fin, length_fmap.
  assert (0 < Qc_of_Z (Z.of_nat (length xs) - 1))%Qc as Hpos
    by (apply Qc_of_Z_pos; lia).
  unfold ndiv. rewrite bool_decide_eq_false_2
    by (intros Heq; rewrite Heq in Hpos; by apply Qclt_not_eq in Hpos).
  eexists. split; [done|]. split; [done|].
  unfold Qcdiv. apply Qcmult_nonneg_nonneg; [apply Qc_sum_squares_nonneg|].
  by apply Qclt_le_weak, Qcinv_pos.
Qed.

Lemma Q2R_fl_2 : Q2R (fl 2) = 2%R.
Proof. unfold Q2R. simpl. lra. Qed.

Lemma Q2R_Qc_nonneg (v : Qc) : (0 <= v)%Qc -> (0 <= Q2R v)%R.
Proof. intros Hv. rewrite <- Q2R_Qc_0. by apply Qle_Rle. Qed.

(** X10.  Once [period >= 2] prices are available, the upper and the lower
    band are the rolling average plus and minus twice the square root of the
    rolling sample variance, so the average never lies outside the bands; the
    comparisons of a price with a band, which the scorer decides on rationals,
    agree with these real numbers. Before that both bands are undefined. *)
Theorem bands_bracket_average (data : list Qc) (period i : nat) :
  (2 <= period)%nat -> (i < length data)%nat ->
  let bands := calculate_bollinger_bands data period in
  let window := Fin <$> take period (drop (S i - period) data) in
  if (period <=? S i)%nat
  then exists (sma var : Qc) (upper lower : surd),
         win_mean window = Fin sma
         /\ win_var window = Fin var /\ (0 <= var)%Qc
         /\ bands.1 !! i = Some (Fin upper)
         /\ bands.2 !! i = Some (Fin lower)
         /\ surd_to_R upper = (Q2R sma + 2 * sqrt (Q2R var))%R
         /\ surd_to_R lower = (Q2R sma - 2 * sqrt (Q2R var))%R
         /\ (surd_to_R lower <= Q2R sma <= surd_to_R upper)%R
         /\ (forall price : Qc,
               price_below price (Fin lower) = true
               <-> (Q2R price < surd_to_R lower)%R)
         /\ (forall price : Qc,
               price_above price (Fin upper) = true
               <-> (surd_to_R upper < Q2R price)%R)
  else bands.1 !! i = Some NaN /\ bands.2 !! i = Some NaN.
Proof.
  intros Hperiod Hi bands window. unfold bands, calculate_bollinger_bands.
  cbn [fst snd]. rewrite !lookup_zip_with.
  rewrite !rolling_lookup by by rewrite length_fmap.
  destruct (Nat.leb_spec period (S i)) as [Hfull|Hshort]; [|done].
  rewrite <- fmap_drop, <- fmap_take. fold window.
  destruct (win_var_Fin (take period (drop (S i - period) data)))
    as (m & v & Hm & Hv & Hv0).
  { rewrite length_take, length_drop. lia. }
  fold window in Hm, Hv. unfold win_std. rewrite Hm, Hv.
  exists m, v. eexists _, _. split; [done|]. split; [done|]. split; [done|].
  unfold nsqrt. rewrite bool_decide_eq_false_2 by by apply Qcle_not_lt.
  cbn [mbind option_bind smul ext_add ext_sub].
  split; [done|]. split; [done|].
  assert (0 <= root (surd_sqrt v))%Qc as Hroot
    by (unfold surd_sqrt; by rewrite root_mk_surd).
  assert (0 <= root (surd_scale (surd_sqrt v) (fl 2)))%Qc as Hroot2.
  { unfold surd_scale. rewrite root_mk_surd.
    apply Qcmult_nonneg_nonneg; [done|compute_done]. }
  pose proof (sqrt_pos (Q2R v)) as Hsqrt.
  assert (surd_to_R (Qc_add_surd m (surd_scale (surd_sqrt v) (fl 2)))
          = (Q2R m + 2 * sqrt (Q2R v))%R) as Hup.
  { rewrite surd_to_R_add, surd_to_R_scale, surd_to_R_sqrt, Q2R_fl_2 by done. lra. }
  assert (surd_to_R (Qc_sub_surd m (surd_scale (surd_sqrt v) (fl 2)))
          = (Q2R m - 2 * sqrt (Q2R v))%R) as Hlow.
  { rewrite surd_to_R_sub, surd_to_R_scale, surd_to_R_sqrt, Q2R_fl_2 by done. lra. }
  split; [done|]. split; [done|]. split; [rewrite Hup, Hlow; lra|].
  split; intros price; cbn [price_below price_above].
  - apply Qc_ltb_surd_sound. unfold Qc_sub_surd. by rewrite root_mk_surd.
  - apply surd_ltb_Qc_sound. unfold Qc_add_surd. by rewrite root_mk_surd.
Qed.

Lemma bands_bracket_average_witness :
  exists upper lower : surd,
    (calculate_bollinger_bands (Close <$> uptick_df) 20).1 !! 25%nat = Some (Fin upper)
    /\ (calculate_bollinger_bands (Close <$> uptick_df) 20).2 !! 25%nat
       = Some (Fin lower)
    /\ (surd_to_R lower <= surd_to_R upper)%R.
Proof.
  pose proof (bands_bracket_average (Close <$> uptick_df) 20 25) as H.
  cbv zeta in H. specialize (H ltac:(lia) ltac:(compute_done)).
  change (20 <=? 26)%nat with true in H.
  destruct H as (sma & var & upper & lower & _ & _ & _ & Hu & Hl & _ & _ & Hle & _).
  exists upper, lower. split; [exact Hu|]. split; [exact Hl|]. lra.
Defined.

(** ** Windows too short for an indicator *)

Lemma bands_warmup (data : list Qc) (period i : nat) :
  (S i < period)%nat -> (i < length data)%nat ->
  (calculate_bollinger_bands data period).1 !! i = Some NaN
  /\ (calculate_bollinger_bands data period).2 !! i = Some NaN.
Proof.
  intros Hi Hlen. unfold calculate_bollinger_bands. cbn [fst snd].
  rewrite !lookup_zip_with, !rolling_lookup by by rewrite length_fmap.
  by destruct (Nat.leb_spec period (S i)) as [?|_]; [lia|].
Qed.

Lemma iloc_last_lookup {A} (xs : list A) (x : A) :
  iloc xs (-1) = Ok x -> xs !! (length xs - 1)%nat = Some x.
Proof.
  unfold iloc. cbv zeta. cbn [Z.ltb Z.compare].
  destruct (Z.ltb_spec (Z.of_nat (length xs) + -1) 0) as [?|Hge]; [done|].
  replace (Z.to_nat (Z.of_nat (length xs) + -1)) with (length xs - 1)%nat by lia.
  destruct (xs !! (length xs - 1)%nat); [|done]. by intros [= ->].
Qed.

(** X11.  A window of fewer than 14 rows has no RSI: the scorer reports NaN
    and the RSI rule does not vote. A window of fewer than 20 rows has no
    Bollinger bands: the position is reported as normal and the Bollinger rule
    does not vote. In a window of fewer than 14 rows only the EMA rule and the
    MACD rule vote, so the votes sum to at most 3 in magnitude. *)
Theorem short_window_indicators (recent_data : DataFrame) (v : locals) :
  analyze_window recent_data = Ok v ->
  ((length recent_data < 14)%nat ->
   v_last_rsi v = NaN /\ rsi_rule (v_last_rsi v) = [])
  /\ ((length recent_data < 20)%nat ->
      v_bb_position v = normal
      /\ exists ema_diff_percent macd_diff macd_trend,
           v_trend_signals v
           = ema_rule ema_diff_percent ++ macd_rule macd_diff macd_trend
               ++ rsi_rule (v_last_rsi v))
  /\ ((length recent_data < 14)%nat ->
      (-3 <= py_sum (v_trend_signals v) <= 3)%Z).
Proof.
  intros Hv.
  apply analyze_window_inv in Hv
    as (?&price&edp&md&mt&bbs&_&_&_&Hrsi&_&Hbb&Hsig&_).
  set (close_prices := Close <$> recent_data) in *.
  assert (length close_prices = length recent_data) as Hlen by apply length_fmap.
  assert ((length recent_data < 14)%nat -> v_last_rsi v = NaN) as Hnan.
  { intros Hshort. apply iloc_last_lookup in Hrsi.
    rewrite calculate_rsi_length in Hrsi.
    assert (length close_prices <> 0)%nat as Hnz.
    { intros Hz. apply lookup_lt_Some in Hrsi.
      rewrite calculate_rsi_length in Hrsi. lia. }
    rewrite calculate_rsi_warmup in Hrsi by lia. by injection Hrsi. }
  assert ((length recent_data < 20)%nat -> bbs = [] /\ v_bb_position v = normal)
    as Hnobb.
  { intros Hshort. unfold bollinger_rule in Hbb.
    destruct (calculate_bollinger_bands_length close_prices 20) as [Hu Hl].
    destruct (iloc (calculate_bollinger_bands close_prices 20).2 (-1))
      as [lower|] eqn:Hlower; [|discriminate Hbb].
    pose proof Hlower as Hlow. apply iloc_last_lookup in Hlow. rewrite Hl in Hlow.
    assert (length close_prices <> 0)%nat as Hnz.
    { intros Hz. apply lookup_lt_Some in Hlow. lia. }
    destruct (bands_warmup close_prices 20 (length close_prices - 1))
      as [Hup' Hlow']; [lia..|].
    rewrite Hlow' in Hlow. injection Hlow as <-.
    cbn [mbind result_bind price_below] in Hbb.
    destruct (iloc (calculate_bollinger_bands close_prices 20).1 (-1))
      as [upper|] eqn:Hupper; [|discriminate Hbb].
    apply iloc_last_lookup in Hupper. rewrite Hu, Hup' in Hupper.
    injection Hupper as <-.
    cbn [mbind result_bind price_above mret result_ret] in Hbb.
    apply Ok_inj in Hbb. by injection Hbb as <- <-. }
  split; [|split].
  - intros Hshort. rewrite (Hnan Hshort). by split.
  - intros Hshort. destruct (Hnobb Hshort) as [-> Hnormal].
    split; [done|]. exists edp, md, mt. by rewrite Hsig, app_nil_r.
  - intros Hshort. destruct (Hnobb ltac:(lia)) as [-> _].
    rewrite Hsig, (Hnan Hshort), !py_sum_app.
    destruct (ema_rule_bound edp) as [_ Ha].
    destruct (macd_rule_bound md mt) as [_ Hb].
    change (py_sum (rsi_rule NaN)) with 0%Z. change (py_sum []) with 0%Z. lia.
Qed.

Lemma short_window_indicators_witness :
  exists v : locals,
    analyze_window (tail 5 uptick_df) = Ok v
    /\ v_last_rsi v = NaN /\ v_bb_position v = normal.
Proof.
  destruct (analyze_window (tail 5 uptick_df)) as [v|e] eqn:Hv;
    [|vm_compute in Hv; discriminate Hv].
  exists v. split; [done|].
  destruct (short_window_indicators (tail 5 uptick_df) v Hv) as (Hrsi & Hbb & _).
  split; [apply Hrsi|apply Hbb]; compute_done.
Defined.

(** ** The retry loop of [get_market_data] *)

Lemma placeholder_column (col : string) (columns : list string) :
  col <> "Volume"%string ->
  bool_decide (col ∈ columns ++ ["Volume"%string]) = bool_decide (col ∈ columns).
Proof.
  intros Hcol. apply bool_decide_ext.
  rewrite elem_of_app, list_elem_of_singleton. tauto.
Qed.

(** The placeholder volume has no part in the test of the required
    columns. *)
Lemma required_columns_placeholder (columns : list string) :
  forallb (λ col, bool_decide (col ∈
             (if bool_decide ("Volume"%string ∈ columns) then columns
              else columns ++ ["Volume"%string]))) required_columns
  = has_required_columns columns.
Proof.
  case_bool_decide; [done|].
  unfold has_required_columns, required_columns. cbn [forallb].
  by rewrite !placeholder_column by done.
Qed.

Section RetrievalFacts.

Variable self : MarketAnalyzer.
Variable history : nat -> attempt_outcome.
Variable minutes : Z.

Lemma attempt_cases (attempt : nat) (acts : list action) :
  let o := history attempt in
  let acts' := acts ++ [Download] in
  get_market_data_attempt self history minutes attempt acts
  = if retried minutes o
    then retry_or_give_up self attempt
           (match o with
            | Raised | Fetched false _ None => TIMEOUT_ERROR
            | _ => NO_DATA
            end) acts'
    else match delivered minutes o with
         | Some df => (acts', Return (Some (tail minutes df), None))
         | None => (acts', Return (None, Some (error_messages_of self NO_DATA)))
         end.
Proof.
  cbv zeta. unfold get_market_data_attempt, retried, delivered.
  destruct (history attempt) as [|[] columns [df|]]; try done;
    rewrite required_columns_placeholder;
    destruct (has_required_columns columns); try done.
  cbn [negb andb]. by destruct (_ <? _)%Z.
Qed.


(** The whole run, by the number of attempts that ask for another one. *)
Lemma get_market_data_cases :
  let answer o :=
    match delivered minutes o with
    | Some df => Some (Some (tail minutes df), None)
    | None => Some (None, Some (error_messages_of self NO_DATA))
    end in
  get_market_data self history minutes
  = if negb (retried minutes (history 0%nat))
    then ([Download], answer (history 0%nat))
    else if negb (retried minutes (history 1%nat))
    then ([Download; Sleep 2; Download], answer (history 1%nat))
    else if negb (retried minutes (history 2%nat))
    then ([Download; Sleep 2; Download; Sleep 4; Download], answer (history 2%nat))
    else ([Download; Sleep 2; Download; Sleep 4; Download],
          Some (None,
                Some (error_messages_of self
                        match history 2%nat with
                        | Raised | Fetched false _ None => TIMEOUT_ERROR
                        | _ => NO_DATA
                        end))).
Proof.
  cbv zeta. unfold get_market_data. cbn [max_retries seq get_market_data_loop].
  rewrite attempt_cases. cbv zeta.
  destruct (retried minutes (history 0%nat)); cbn [negb].
  2:{ by destruct (delivered minutes (history 0%nat)). }
  unfold retry_or_give_up at 1. cbn [max_retries Nat.sub Nat.ltb Nat.leb].
  rewrite attempt_cases. cbv zeta.
  destruct (retried minutes (history 1%nat)); cbn [negb].
  2:{ by destruct (delivered minutes (history 1%nat)). }
  unfold retry_or_give_up at 1. cbn [max_retries Nat.sub Nat.ltb Nat.leb].
  rewrite attempt_cases. cbv zeta.
  destruct (retried minutes (history 2%nat)); cbn [negb].
  2:{ by destruct (delivered minutes (history 2%nat)). }
  unfold retry_or_give_up. cbn [max_retries Nat.sub Nat.ltb Nat.leb].
  done.
Qed.

Lemma delivered_inv (o : attempt_outcome) (rows : DataFrame) :
  delivered minutes o = Some rows ->
  exists columns : list string,
    o = Fetched false columns (Some rows)
    /\ has_required_columns columns = true
    /\ (minutes <= Z.of_nat (length rows))%Z.
Proof.
  unfold delivered. destruct o as [|[] columns [df|]]; try done.
  destruct (has_required_columns columns) eqn:Hreq; [|done].
  destruct (Z.ltb_spec (Z.of_nat (length df)) minutes); [done|].
  intros [= <-]. by exists columns.
Qed.

(** The three kinds of answer. *)
Lemma answer_cases :
  let answer := (get_market_data self history minutes).2 in
  (exists (attempt : nat) (columns : list string) (rows : DataFrame),
     (attempt < 3)%nat
     /\ history attempt = Fetched false columns (Some rows)
     /\ (minutes <= Z.of_nat (length rows))%Z
     /\ answer = Some (Some (tail minutes rows), None))
  \/ answer = Some (None, Some (error_messages_of self NO_DATA))
  \/ answer = Some (None, Some (error_messages_of self TIMEOUT_ERROR)).
Proof.
  cbv zeta. rewrite get_market_data_cases. cbv zeta.
  assert (forall attempt : nat, (attempt < 3)%nat ->
    let a := match delivered minutes (history attempt) with
             | Some df => Some (Some (tail minutes df), None)
             | None => Some (None, Some (error_messages_of self NO_DATA))
             end in
    (exists (attempt : nat) (columns : list string) (rows : DataFrame),
       (attempt < 3)%nat
       /\ history attempt = Fetched false columns (Some rows)
       /\ (minutes <= Z.of_nat (length rows))%Z
       /\ a = Some (Some (tail minutes rows), None))
    \/ a = Some (None, Some (error_messages_of self NO_DATA))
    \/ a = Some (None, Some (error_messages_of self TIMEOUT_ERROR))) as Hone.
  { intros attempt Hattempt. cbv zeta.
    destruct (delivered minutes (history attempt)) as [rows|] eqn:Hd; [|by right; left].
    apply delivered_inv in Hd as (columns & Ho & _ & Hlen).
    left. by exists attempt, columns, rows. }
  destruct (retried minutes (history 0%nat)); cbn [negb snd]; [|by apply Hone; lia].
  destruct (retried minutes (history 1%nat)); cbn [negb snd]; [|by apply Hone; lia].
  destruct (retried minutes (history 2%nat)); cbn [negb snd]; [|by apply Hone; lia].
  right. destruct (history 2%nat) as [|[] ? [?|]]; auto.
Qed.

End RetrievalFacts.

Lemma tail_length_nonneg {A} (n : Z) (xs : list A) :
  (0 <= n <= Z.of_nat (length xs))%Z -> Z.of_nat (length (tail n xs)) = n.
Proof.
  intros Hn. destruct (Z.eq_dec n 0%Z) as [->|Hnz]; [done|].
  rewrite tail_length by lia. lia.
Qed.

(** X12.  [get_market_data] always returns a pair, and one of three kinds: a
    frame without a message, or no frame with the NO_DATA or the TIMEOUT_ERROR
    message of the current language; it never falls off its retry loop and
    never answers GENERAL_ERROR. A returned frame is the last [minutes] rows
    of what one of the three attempts produced, and has exactly [minutes]
    rows. *)
Theorem fetch_gives_frame_or_message (self : MarketAnalyzer)
    (history : nat -> attempt_outcome) (minutes : Z) :
  (0 <= minutes)%Z ->
  let answer := (get_market_data self history minutes).2 in
  (exists (attempt : nat) (columns : list string) (rows : DataFrame),
     (attempt < 3)%nat
     /\ history attempt = Fetched false columns (Some rows)
     /\ (minutes <= Z.of_nat (length rows))%Z
     /\ Z.of_nat (length (tail minutes rows)) = minutes
     /\ answer = Some (Some (tail minutes rows), None))
  \/ answer = Some (None, Some (error_messages_of self NO_DATA))
  \/ answer = Some (None, Some (error_messages_of self TIMEOUT_ERROR)).
Proof.
  intros Hminutes answer.
  destruct (answer_cases self history minutes)
    as [(attempt & columns & rows & Hattempt & Ho & Hlen & Hanswer)|H]; [left|by right].
  exists attempt, columns, rows.
  repeat split; try done. by apply tail_length_nonneg.
Qed.

Lemma fetch_gives_frame_or_message_witness :
  exists rows : DataFrame,
    (get_market_data demo_analyzer demo_history 35).2
    = Some (Some (tail 35 rows), None).
Proof.
  destruct (fetch_gives_frame_or_message demo_analyzer demo_history 35)
    as [(attempt & columns & rows & _ & _ & _ & _ & H)|[H|H]];
    [lia|by exists rows|discriminate H..].
Defined.

(** X13.  [get_market_data] downloads at least once and at most three times;
    it waits 2 seconds before the second download and 4 before the third, and
    never after the last one. It asks again exactly after an attempt that
    raised, returned an empty frame or had too few rows; the first attempt of
    another kind decides the answer, and when all three ask again the message
    is TIMEOUT_ERROR if the third raised and NO_DATA otherwise. *)
Theorem fetch_retry_schedule (self : MarketAnalyzer)
    (history : nat -> attempt_outcome) (minutes : Z) :
  let run := get_market_data self history minutes in
  exists n : nat,
    (1 <= n <= 3)%nat
    /\ run.1 = take (2 * n - 1) [Download; Sleep 2; Download; Sleep 4; Download]
    /\ (forall j : nat, (j < n - 1)%nat -> retried minutes (history j) = true)
    /\ (if retried minutes (history (n - 1)%nat)
        then n = 3%nat
             /\ run.2 = Some (None,
                              Some (error_messages_of self
                                      match history 2%nat with
                                      | Raised | Fetched false _ None => TIMEOUT_ERROR
                                      | _ => NO_DATA
                                      end))
        else run.2 = match delivered minutes (history (n - 1)%nat) with
                     | Some df => Some (Some (tail minutes df), None)
                     | None => Some (None, Some (error_messages_of self NO_DATA))
                     end).
Proof.
  cbv zeta. rewrite get_market_data_cases. cbv zeta.
  destruct (retried minutes (history 0%nat)) eqn:H0; cbn [negb].
  2:{ exists 1%nat. cbn [Nat.sub]. rewrite H0.
      split; [lia|]. split; [done|]. split; [intros j Hj; lia|done]. }
  destruct (retried minutes (history 1%nat)) eqn:H1; cbn [negb].
  2:{ exists 2%nat. cbn [Nat.sub]. rewrite H1.
      split; [lia|]. split; [done|]. split; [|done].
      intros j Hj. by replace j with 0%nat by lia. }
  exists 3%nat. cbn [Nat.sub].
  assert (forall j : nat, (j < 2)%nat -> retried minutes (history j) = true) as Hj.
  { intros j Hj. assert (j = 0 \/ j = 1)%nat as [-> | ->] by lia; done. }
  destruct (retried minutes (history 2%nat)) eqn:H2; cbn [negb];
    (split; [lia|]); (split; [done|]); (split; [exact Hj|]); done.
Qed.

Lemma fetch_retry_schedule_witness :
  (get_market_data demo_analyzer demo_history 35).1 = [Download; Sleep 2; Download].
Proof.
  destruct (fetch_retry_schedule demo_analyzer demo_history 35)
    as (n & Hn & Hacts & Hagain & Hlast).
  assert (n = 1 \/ n = 2 \/ n = 3)%nat as [-> | [-> | ->]] by lia.
  - cbn [Nat.sub demo_history retried] in Hlast. destruct Hlast as [Hn3 _].
    discriminate Hn3.
  - exact Hacts.
  - pose proof (Hagain 1%nat ltac:(lia)) as H. vm_compute in H. discriminate H.
Defined.

(** X14.  A frame that is not empty but lacks one of Open, High, Low and Close
    ends the retrieval at once with NO_DATA: no wait, no further download,
    even when a later attempt would have delivered the data; an empty frame,
    answered with the same message in the end, is asked for again. *)
Theorem missing_columns_not_retried (self : MarketAnalyzer)
    (history : nat -> attempt_outcome) (minutes : Z)
    (columns : list string) (resampled : option DataFrame) :
  (history 0%nat = Fetched false columns resampled ->
   has_required_columns columns = false ->
   get_market_data self history minutes
   = ([Download], Some (None, Some (error_messages_of self NO_DATA))))
  /\ (history 0%nat = Fetched true columns resampled ->
      exists acts : list action,
        (get_market_data self history minutes).1
        = [Download; Sleep 2; Download] ++ acts).
Proof.
  split; intros Hfirst; [intros Hreq|]; rewrite get_market_data_cases; cbv zeta;
    rewrite Hfirst; cbn [retried delivered negb].
  - rewrite Hreq. cbn [andb negb]. by destruct resampled.
  - destruct (retried minutes (history 1%nat)); cbn [negb fst]; [|by exists []].
    destruct (retried minutes (history 2%nat)); cbn [negb fst]; by eexists [_; _].
Qed.

Lemma missing_columns_not_retried_witness :
  get_market_data demo_analyzer priceless_history 35
  = ([Download], Some (None, Some "no data"%string)).
Proof.
  apply (proj1 (missing_columns_not_retried demo_analyzer priceless_history 35
                  ["Volume"%string] None)); reflexivity.
Defined.

(** ** From the retrieval to the report *)

Lemma analyze_market_rows (error_messages : error_key -> string)
    (df : DataFrame) (price : Qc) :
  last (Close <$> df) = Some price ->
  analyze_market error_messages (Some df, None)
  = Analysis price
      (<[30%Z := entry_of (analyze_timeframe (Some df) 30)]>
         (<[15%Z := entry_of (analyze_timeframe (Some df) 15)]>
            (<[5%Z := entry_of (analyze_timeframe (Some df) 5)]>
               (<[1%Z := entry_of (analyze_timeframe (Some df) 1)]> ∅)))).
Proof.
  intros Hprice. unfold analyze_market, analyze_market_try. cbn [truthy].
  rewrite bool_decide_eq_false_2 by by destruct df.
  rewrite (iloc_last _ _ Hprice). cbn [mbind result_bind mret result_ret].
  unfold TIMEFRAMES. cbn [foldl]. by rewrite !record_timeframe_lookup.
Qed.

Lemma analyze_market_failed (error_messages : error_key -> string) (message : string) :
  analyze_market error_messages (None, Some message)
  = Error (if truthy (Some message) then message else error_messages NO_DATA).
Proof.
  unfold analyze_market, analyze_market_try.
  by destruct (truthy (Some message)).
Qed.

Lemma entry_of_window (df : DataFrame) (minutes : Z) :
  (2 <= minutes <= Z.of_nat (length df))%Z ->
  exists v : locals,
    analyze_window (tail minutes df) = Ok v
    /\ entry_of (analyze_timeframe (Some df) minutes)
       = Entry (v_signal v) (v_price_change v)
           (Indicators (py_round (v_confidence v) 1) minutes
              (Some (nround (v_last_rsi v) 2))
              (Some (py_round (v_macd_last v) 4)) (Some (v_bb_position v))).
Proof.
  intros Hlen.
  destruct (analyze_window_ok (tail minutes df)) as [v Hv].
  { rewrite tail_length; lia. }
  exists v. split; [done|].
  by rewrite (analyze_timeframe_ok df minutes v) by (lia || done).
Qed.

(** X15.  A call of [analyze_market], retrieval included, ends in one of three
    ways: the NO_DATA message, the TIMEOUT_ERROR message, or a report built on
    exactly thirty-five rows. In such a report the current price is the last
    close, the windows are 1, 5, 15 and 30, the entries of 5, 15 and 30 come
    from a scorer run that did not fault and carry all indicators, and the
    entry of the 1-minute window is the neutral default. *)
Theorem market_report_shape (self : MarketAnalyzer)
    (history : nat -> attempt_outcome) :
  let report := (analyze_market_run self history).2 in
  (exists (df : DataFrame) (current_price : Qc) (timeframes : gmap Z timeframe_entry),
     (get_market_data self history 35).2 = Some (Some df, None)
     /\ length df = 35%nat
     /\ report = Analysis current_price timeframes
     /\ last (Close <$> df) = Some current_price
     /\ dom timeframes = {[1; 5; 15; 30]}%Z
     /\ timeframes !! 1%Z
        = Some (Entry NEUTRAL (Fin (fl 0)) (Indicators (fl 50) 1 None None None))
     /\ forall minutes : Z,
          minutes ∈ [5; 15; 30]%Z ->
          exists v : locals,
            analyze_window (tail minutes df) = Ok v
            /\ timeframes !! minutes
               = Some (Entry (v_signal v) (v_price_change v)
                         (Indicators (py_round (v_confidence v) 1) minutes
                            (Some (nround (v_last_rsi v) 2))
                            (Some (py_round (v_macd_last v) 4))
                            (Some (v_bb_position v)))))
  \/ report = Error (error_messages_of self NO_DATA)
  \/ report = Error (error_messages_of self TIMEOUT_ERROR).
Proof.
  cbv zeta. unfold analyze_market_run.
  change (py_max_of TIMEFRAMES + 5)%Z with 35%Z.
  destruct (answer_cases self history 35)
    as [(attempt & columns & rows & _ & _ & Hlen & Hanswer)|Hfailed].
  - left. destruct (get_market_data self history 35) as [acts answer].
    cbn [snd] in *. subst answer.
    set (df := tail 35 rows).
    assert (length df = 35%nat) as Hdf by (unfold df; rewrite tail_length; lia).
    destruct (last (Close <$> df)) as [price|] eqn:Hprice.
    2:{ apply last_None in Hprice. apply (f_equal length) in Hprice.
        rewrite length_fmap, Hdf in Hprice. discriminate Hprice. }
    eexists df, price, _. split; [done|]. split; [done|].
    split; [by apply analyze_market_rows|]. split; [done|].
    split; [rewrite !dom_insert_L, dom_empty_L; set_solver|].
    split.
    + rewrite (analyze_timeframe_raise df 1 IndexError);
        [by simplify_map_eq|lia|].
      apply one_minute_faults. intros ->. discriminate Hdf.
    + intros minutes Hm.
      assert (minutes = 5 \/ minutes = 15 \/ minutes = 30)%Z as Hcases.
      { repeat (apply elem_of_cons in Hm as [->|Hm]; [tauto|]).
        by apply elem_of_nil in Hm. }
      destruct (entry_of_window df minutes) as (v & Hv & Hentry); [lia|].
      exists v. split; [done|]. rewrite <- Hentry.
      destruct Hcases as [->|[->| ->]]; by simplify_map_eq.
  - right. destruct (get_market_data self history 35) as [acts answer].
    cbn [snd] in *.
    destruct Hfailed as [-> | ->]; rewrite analyze_market_failed;
      destruct (truthy _); auto.
Qed.

Lemma market_report_shape_witness :
  exists (current_price : Qc) (timeframes : gmap Z timeframe_entry),
    (analyze_market_run demo_analyzer demo_history).2
    = Analysis current_price timeframes
    /\ exists v : locals,
         timeframes !! 30%Z
         = Some (Entry (v_signal v) (v_price_change v)
                   (Indicators (py_round (v_confidence v) 1) 30
                      (Some (nround (v_last_rsi v) 2))
                      (Some (py_round (v_macd_last v) 4))
                      (Some (v_bb_position v)))).
Proof.
  destruct (market_report_shape demo_analyzer demo_history)
    as [(df & price & tfs & _ & _ & Hreport & _ & _ & _ & Hentries)|[H|H]].
  - exists price, tfs. split; [exact Hreport|].
    destruct (Hentries 30%Z) as (v & _ & Hv); [|by exists v].
    apply elem_of_cons; right. apply elem_of_cons; right. apply elem_of_cons; by left.
  - vm_compute in H. discriminate H.
  - vm_compute in H. discriminate H.
Defined.

(** ** The language of the messages *)

Lemma get_market_data_language (self self' : MarketAnalyzer)
    (history : nat -> attempt_outcome) (minutes : Z) :
  exists acts : list action,
    (exists df : DataFrame,
       get_market_data self history minutes = (acts, Some (Some df, None))
       /\ get_market_data self' history minutes = (acts, Some (Some df, None)))
    \/ (exists key : error_key,
          (key = NO_DATA \/ key = TIMEOUT_ERROR)
          /\ get_market_data self history minutes
             = (acts, Some (None, Some (error_messages_of self key)))
          /\ get_market_data self' history minutes
             = (acts, Some (None, Some (error_messages_of self' key)))).
Proof.
  rewrite !get_market_data_cases. cbv zeta.
  assert (forall (acts : list action) (o : attempt_outcome),
    (exists df : DataFrame,
       (acts, match delivered minutes o with
              | Some df => Some (Some (tail minutes df), None)
              | None => Some (None, Some (error_messages_of self NO_DATA))
              end) = (acts, Some (Some df, None))
       /\ (acts, match delivered minutes o with
                 | Some df => Some (Some (tail minutes df), None)
                 | None => Some (None, Some (error_messages_of self' NO_DATA))
                 end) = (acts, Some (Some df, None)))
    \/ (exists key : error_key,
          (key = NO_DATA \/ key = TIMEOUT_ERROR)
          /\ (acts, match delivered minutes o with
                    | Some df => Some (Some (tail minutes df), None)
                    | None => Some (None, Some (error_messages_of self NO_DATA))
                    end) = (acts, Some (None, Some (error_messages_of self key)))
          /\ (acts, match delivered minutes o with
                    | Some df => Some (Some (tail minutes df), None)
                    | None => Some (None, Some (error_messages_of self' NO_DATA))
                    end) = (acts, Some (None, Some (error_messages_of self' key)))))
    as Hone.
  { intros acts o. destruct (delivered minutes o) as [df|].
    - left. by eexists.
    - right. exists NO_DATA. auto. }
  destruct (retried minutes (history 0%nat)); cbn [negb]; [|eexists; apply Hone].
  destruct (retried minutes (history 1%nat)); cbn [negb]; [|eexists; apply Hone].
  destruct (retried minutes (history 2%nat)); cbn [negb]; [|eexists; apply Hone].
  eexists. right.
  destruct (history 2%nat) as [|[] ? [?|]];
    (exists TIMEOUT_ERROR; by auto) || (exists NO_DATA; by auto).
Qed.

Lemma analyze_market_frame (error_messages error_messages' : error_key -> string)
    (df : DataFrame) :
  match analyze_market error_messages (Some df, None) with
  | Analysis current_price timeframes =>
      analyze_market error_messages' (Some df, None)
      = Analysis current_price timeframes
  | Error _ =>
      analyze_market error_messages' (Some df, None)
      = Error (error_messages' NO_DATA)
  end.
Proof.
  destruct (last (Close <$> df)) as [price|] eqn:Hprice.
  - by rewrite !(analyze_market_rows _ df price Hprice).
  - apply last_None, fmap_nil_inv in Hprice. by subst df.
Qed.

(** X16.  A new analyser words its errors in the language [tg]. Changing the
    language changes the wording of the error messages and nothing else:
    [set_language] keeps the symbol and fails only for a code that [MESSAGES]
    does not hold; afterwards a call of [analyze_market] does the same
    downloads and waits, returns the same report when there is one, and
    otherwise an error worded in the new language. *)
Theorem language_changes_messages_only (MESSAGES : gmap string (error_key -> string))
    (self : MarketAnalyzer) (lang_code : string) (history : nat -> attempt_outcome) :
  match __init__ MESSAGES (symbol self) with
  | None => MESSAGES !! "tg"%string = None
  | Some fresh =>
      symbol fresh = symbol self
      /\ MESSAGES !! "tg"%string = Some (error_messages_of fresh)
  end
  /\
  match set_language MESSAGES self lang_code with
  | None => MESSAGES !! lang_code = None
  | Some self' =>
      symbol self' = symbol self
      /\ MESSAGES !! lang_code = Some (error_messages_of self')
      /\ (analyze_market_run self' history).1 = (analyze_market_run self history).1
      /\ match (analyze_market_run self history).2 with
         | Analysis current_price timeframes =>
             (analyze_market_run self' history).2
             = Analysis current_price timeframes
         | Error _ =>
             (analyze_market_run self' history).2
             = Error (error_messages_of self' NO_DATA)
             \/ (analyze_market_run self' history).2
                = Error (error_messages_of self' TIMEOUT_ERROR)
         end
  end.
Proof.
  split.
  { unfold __init__. by destruct (MESSAGES !! "tg"%string). }
  unfold set_language. destruct (MESSAGES !! lang_code) as [errors|]; [|done].
  cbn [mbind option_bind symbol error_messages_of].
  set (self' := Analyzer (symbol self) errors).
  split; [done|]. split; [done|]. unfold analyze_market_run.
  destruct (get_market_data_language self self' history (py_max_of TIMEFRAMES + 5))
    as (acts & [(df & -> & ->)|(key & Hkey & -> & ->)]); cbn [fst snd].
  - split; [done|].
    pose proof (analyze_market_frame (error_messages_of self) errors df) as H.
    destruct (analyze_market (error_messages_of self) (Some df, None)); auto.
  - split; [done|]. rewrite !analyze_market_failed.
    destruct (truthy (Some (error_messages_of self' key))); [|by left].
    destruct Hkey as [-> | ->]; auto.
Qed.

Lemma language_changes_messages_only_witness :
  let MESSAGES : gmap string (error_key -> string) :=
    {[ "tg"%string := demo_messages; "en"%string := λ _, "failed"%string ]} in
  exists self' : MarketAnalyzer,
    set_language MESSAGES demo_analyzer "en" = Some self'
    /\ (analyze_market_run self' priceless_history).2 = Error "failed"%string.
Proof.
  cbv zeta.
  set (MESSAGES := {[ "tg"%string := demo_messages;
                      "en"%string := λ _, "failed"%string ]}
                   : gmap string (error_key -> string)).
  destruct (language_changes_messages_only MESSAGES demo_analyzer "en"
              priceless_history) as [_ H].
  destruct (set_language MESSAGES demo_analyzer "en") as [self'|] eqn:Hset;
    [|vm_compute in Hset; discriminate Hset].
  exists self'. split; [done|].
  destruct H as (_ & Htable & _ & H).
  assert (error_messages_of self' = λ _, "failed"%string) as Hen.
  { vm_compute in Htable. by injection Htable. }
  assert ((analyze_market_run demo_analyzer priceless_history).2
          = Error "no data"%string) as Hrun by reflexivity.
  rewrite Hrun in H. rewrite Hen in H. by destruct H.
Defined.

(** ** Freeing a port *)

Lemma kill_process_loop_spec (port : Z) (procs : list process) (acts : list action) :
  exists new : list action,
    (kill_process_loop port procs acts).1 = acts ++ new
    /\ Forall (λ a, exists proc : process,
                 proc ∈ procs /\ a = Terminate (proc_pid proc)
                 /\ holds_port port proc /\ proc_terminate proc = None) new
    /\ ((kill_process_loop port procs acts).2 = true ->
        exists proc : process,
          proc ∈ procs /\ last new = Some (Terminate (proc_pid proc))
          /\ holds_port port proc /\ proc_wait proc = None).
Proof.
  revert acts. induction procs as [|proc rest IH]; intros acts.
  { exists []. by rewrite app_nil_r. }
  assert (forall acts : list action, exists new : list action,
    (kill_process_loop port rest acts).1 = acts ++ new
    /\ Forall (λ a, exists p : process,
                 p ∈ proc :: rest /\ a = Terminate (proc_pid p)
                 /\ holds_port port p /\ proc_terminate p = None) new
    /\ ((kill_process_loop port rest acts).2 = true ->
        exists p : process,
          p ∈ proc :: rest /\ last new = Some (Terminate (proc_pid p))
          /\ holds_port port p /\ proc_wait p = None)) as Hrest.
  { intros acts'. destruct (IH acts') as (new & Hacts & Hall & Hkilled).
    exists new. split; [done|]. split.
    - eapply Forall_impl; [exact Hall|]. intros a (p & Hp & Ha).
      exists p. split; [by apply list_elem_of_further|done].
    - intros Hk. destruct (Hkilled Hk) as (p & Hp & Hlast).
      exists p. split; [by apply list_elem_of_further|done]. }
  assert (exists new : list action, acts = acts ++ new
            /\ Forall (λ a, exists p : process,
                 p ∈ proc :: rest /\ a = Terminate (proc_pid p)
                 /\ holds_port port p /\ proc_terminate p = None) new
            /\ (false = true -> exists p : process,
                  p ∈ proc :: rest /\ last new = Some (Terminate (proc_pid p))
                  /\ holds_port port p /\ proc_wait p = None)) as Hstop.
  { exists []. by rewrite app_nil_r. }
  cbn [kill_process_loop].
  destruct (proc_connections proc) as [e|connections] eqn:Hconn.
  { destruct (skipped e); [apply Hrest|exact Hstop]. }
  destruct (existsb (on_port port) connections) eqn:Hport; [|apply Hrest].
  assert (holds_port port proc) as Hholds by by exists connections.
  destruct (proc_terminate proc) as [e|] eqn:Hterm.
  { destruct (skipped e); [apply Hrest|exact Hstop]. }
  assert (exists p : process,
            p ∈ proc :: rest /\ Terminate (proc_pid proc) = Terminate (proc_pid p)
            /\ holds_port port p /\ proc_terminate p = None) as Hthis.
  { exists proc. split; [apply list_elem_of_here|done]. }
  destruct (proc_wait proc) as [e|] eqn:Hwait.
  - destruct (skipped e).
    + destruct (Hrest (acts ++ [Terminate (proc_pid proc)]))
        as (new & Hacts & Hall & Hkilled).
      exists (Terminate (proc_pid proc) :: new).
      split; [by rewrite Hacts, <- (assoc_L (++))|].
      split; [by constructor|].
      intros Hk. destruct (Hkilled Hk) as (p & Hp & Hlast & Hrestp).
      exists p. split; [done|]. split; [|done].
      destruct new; [done|]. exact Hlast.
    + exists [Terminate (proc_pid proc)]. cbn [fst snd].
      split; [done|]. split; [by constructor|done].
  - exists [Terminate (proc_pid proc)]. cbn [fst snd].
    split; [done|]. split; [by constructor|]. intros _.
    exists proc. split; [apply list_elem_of_here|done].
Qed.

(** X17.  [kill_process_on_port] terminates only processes that hold the port,
    and answers [True] only when the last process it terminated was seen to
    exit; when no process holds the port it terminates nothing and answers
    [False]. *)
Theorem kill_only_port_holders (process_iter : option (list process)) (port : Z) :
  let acts := (kill_process_on_port process_iter port).1 in
  let killed := (kill_process_on_port process_iter port).2 in
  (forall a : action,
     a ∈ acts ->
     exists (procs : list process) (proc : process),
       process_iter = Some procs /\ proc ∈ procs
       /\ a = Terminate (proc_pid proc)
       /\ holds_port port proc /\ proc_terminate proc = None)
  /\ (killed = true ->
      exists (procs : list process) (proc : process),
        process_iter = Some procs /\ proc ∈ procs
        /\ last acts = Some (Terminate (proc_pid proc))
        /\ holds_port port proc /\ proc_wait proc = None)
  /\ ((forall procs proc,
         process_iter = Some procs -> proc ∈ procs -> ~ holds_port port proc) ->
      acts = [] /\ killed = false).
Proof.
  cbv zeta. unfold kill_process_on_port.
  destruct process_iter as [procs|]; cbn [fst snd].
  2:{ split; [intros a Ha; by apply elem_of_nil in Ha|]. by split. }
  destruct (kill_process_loop_spec port procs []) as (new & Hacts & Hall & Hkilled).
  rewrite Hacts. cbn [app].
  assert (forall a : action, a ∈ new ->
            exists (procs0 : list process) (proc : process),
              Some procs = Some procs0 /\ proc ∈ procs0
              /\ a = Terminate (proc_pid proc)
              /\ holds_port port proc /\ proc_terminate proc = None) as Hin.
  { intros a Ha. destruct (proj1 (Forall_forall _ _) Hall a Ha) as (proc & Hp).
    by exists procs, proc. }
  assert ((kill_process_loop port procs []).2 = true ->
          exists (procs0 : list process) (proc : process),
            Some procs = Some procs0 /\ proc ∈ procs0
            /\ last new = Some (Terminate (proc_pid proc))
            /\ holds_port port proc /\ proc_wait proc = None) as Hk.
  { intros Hk. destruct (Hkilled Hk) as (proc & Hp). by exists procs, proc. }
  split; [exact Hin|]. split; [exact Hk|].
  intros Hnone.
  assert (new = []) as ->.
  { destruct new as [|a new]; [done|].
    destruct (Hin a) as (procs0 & proc & [= <-] & Hp & _ & Hholds & _);
      [apply list_elem_of_here|].
    by destruct (Hnone procs proc). }
  split; [done|].
  destruct (kill_process_loop port procs []).2; [|done].
  destruct (Hk eq_refl) as (? & ? & _ & _ & Hlast & _). discriminate Hlast.
Qed.

Lemma kill_only_port_holders_witness :
  exists proc : process,
    last (kill_process_on_port (Some [init_process; bot_process]) 5000).1
    = Some (Terminate (proc_pid proc))
    /\ holds_port 5000 proc.
Proof.
  destruct (proj1 (proj2 (kill_only_port_holders
                            (Some [init_process; bot_process]) 5000)) eq_refl)
    as (procs & proc & _ & _ & Hlast & Hholds & _).
  by exists proc.
Defined.

(** ** Looking for the bot *)

Lemma check_bot_process_loop_app (before rest : list process) :
  Forall (λ proc, looks_like_bot proc = Some false) before ->
  check_bot_process_loop (before ++ rest) = check_bot_process_loop rest.
Proof.
  induction 1 as [|proc before Hproc _ IH]; [done|].
  cbn [app check_bot_process_loop]. by rewrite Hproc.
Qed.

(** X18.  [check_bot_process] returns the pid of the first process of the
    table whose name contains [python], in any case of the letters, and whose
    command line contains [bot.py]. It stops at the first process whose name
    cannot be read: the bot behind it is not found, the status page says that
    no bot is running, and the monitor starts another bot without terminating
    anything. *)
Theorem unnamed_process_hides_bot (procs : list process)
    (BOT_TOKEN : option string) (requests_get : string -> option Z) :
  (forall pid : Z,
     check_bot_process (Some procs) = Some pid ->
     exists (before after : list process) (proc : process),
       procs = before ++ proc :: after
       /\ Forall (λ p, looks_like_bot p = Some false) before
       /\ looks_like_bot proc = Some true
       /\ proc_pid proc = pid)
  /\ (forall (before after : list process) (unnamed : process),
        procs = before ++ unnamed :: after ->
        Forall (λ p, looks_like_bot p = Some false) before ->
        proc_name unnamed = None ->
        check_bot_process (Some procs) = None
        /\ monitor_bot_iteration (Some procs) BOT_TOKEN requests_get
           = [StartBot; Sleep 60]
        /\ home (Some procs) BOT_TOKEN requests_get
           = "❌ Bot is not running"%string).
Proof.
  split.
  - cbn [check_bot_process]. induction procs as [|proc rest IH]; intros pid; [done|].
    cbn [check_bot_process_loop].
    destruct (looks_like_bot proc) as [[]|] eqn:Hproc; [| |done].
    + intros [= <-]. by exists [], rest, proc.
    + intros Hrest. destruct (IH pid Hrest) as (before & after & p & -> & Hall & Hp).
      exists (proc :: before), after, p. split; [done|]. split; [by constructor|done].
  - intros before after unnamed -> Hbefore Hname.
    assert (check_bot_process (Some (before ++ unnamed :: after)) = None) as Hnone.
    { cbn [check_bot_process]. rewrite check_bot_process_loop_app by done.
      cbn [check_bot_process_loop]. unfold looks_like_bot. by rewrite Hname. }
    split; [done|]. unfold monitor_bot_iteration, home. by rewrite Hnone.
Qed.

Lemma unnamed_process_hides_bot_witness :
  check_bot_process (Some [init_process; unnamed_process; bot_process]) = None
  /\ check_bot_process (Some [init_process; bot_process]) = Some 30%Z.
Proof.
  split; [|reflexivity].
  apply (proj2 (unnamed_process_hides_bot
                  [init_process; unnamed_process; bot_process] None (λ _, None))
           [init_process] [bot_process] unnamed_process); [done| |done].
  by repeat constructor.
Defined.

(** ** One round of the monitor *)

(** X19.  Whatever the process table and the network say, one round of
    [monitor_bot] ends with its 60-second sleep. Before it, a bot that is
    found and answers is left alone; when no bot is found the bot is started;
    otherwise the round terminates at most the process that
    [check_bot_process] found, and no other, and then starts the bot unless an
    unexpected error came up. *)
Theorem monitor_round (process_iter : option (list process))
    (BOT_TOKEN : option string) (requests_get : string -> option Z) :
  let acts := monitor_bot_iteration process_iter BOT_TOKEN requests_get in
  let bot_pid := check_bot_process process_iter in
  let healthy := truthy_pid bot_pid && check_bot_health BOT_TOKEN requests_get in
  last acts = Some (Sleep 60)
  /\ (healthy = true -> acts = [Sleep 60])
  /\ (truthy_pid bot_pid = false -> acts = [StartBot; Sleep 60])
  /\ (healthy = false ->
      acts = [StartBot; Sleep 60]
      \/ exists pid : Z,
           bot_pid = Some pid /\ pid <> 0%Z
           /\ (acts = [Terminate pid; StartBot; Sleep 60]
               \/ acts = [Terminate pid; Sleep 60]
               \/ acts = [Sleep 60])).
Proof.
  cbv zeta. unfold monitor_bot_iteration.
  destruct (check_bot_process process_iter) as [pid|].
  2:{ cbn. repeat split; intros; auto; done. }
  destruct (truthy_pid (Some pid)) eqn:Hpid; cbn [andb].
  2:{ cbn. repeat split; intros; auto; done. }
  assert (pid <> 0%Z) as Hnz by (intros ->; discriminate Hpid).
  destruct (check_bot_health BOT_TOKEN requests_get).
  { cbn. repeat split; intros; done. }
  assert (forall acts : list action,
            acts = [Terminate pid; StartBot; Sleep 60]
            \/ acts = [Terminate pid; Sleep 60] \/ acts = [Sleep 60] ->
            acts = [StartBot; Sleep 60]
            \/ exists pid0 : Z,
                 Some pid = Some pid0 /\ pid0 <> 0%Z
                 /\ (acts = [Terminate pid0; StartBot; Sleep 60]
                     \/ acts = [Terminate pid0; Sleep 60]
                     \/ acts = [Sleep 60])) as Hpid0.
  { intros acts Hacts. right. by exists pid. }
  unfold stop_bot.
  destruct (find_process process_iter pid) as [proc|].
  2:{ cbn. repeat split; intros; auto; done. }
  destruct (proc_terminate proc) as [e|].
  { destruct e; cbn; repeat split; intros; auto; try done; apply Hpid0; auto. }
  destruct (proc_wait proc) as [[]|]; cbn; repeat split; intros; auto; try done;
    apply Hpid0; auto.
Qed.

Lemma monitor_round_witness :
  monitor_bot_iteration (Some [init_process; bot_process]) (Some "123:abc"%string)
    (λ _, Some 200%Z)
  = [Sleep 60].
Proof.
  apply (proj1 (proj2 (monitor_round (Some [init_process; bot_process])
                         (Some "123:abc"%string) (λ _, Some 200%Z)))).
  reflexivity.
Defined.

(** X20.  Without [BOT_TOKEN] in the environment, or with an empty one, the
    bot never counts as healthy: the status page says that it is running but
    not responding, no request is sent, and every round of the monitor
    terminates the running bot and starts it again. *)
Theorem missing_token_restarts_bot (process_iter : option (list process))
    (BOT_TOKEN : option string) (requests_get : string -> option Z)
    (pid : Z) (proc : process) :
  BOT_TOKEN = None \/ BOT_TOKEN = Some EmptyString ->
  check_bot_process process_iter = Some pid ->
  pid <> 0%Z ->
  find_process process_iter pid = Some proc ->
  proc_terminate proc = None ->
  proc_wait proc <> Some OtherError ->
  check_bot_health BOT_TOKEN requests_get = false
  /\ home process_iter BOT_TOKEN requests_get
     = "⚠️ Bot is running but not responding"%string
  /\ monitor_bot_iteration process_iter BOT_TOKEN requests_get
     = [Terminate pid; StartBot; Sleep 60].
Proof.
  intros Htoken Hfound Hpid Hproc Hterm Hwait.
  assert (check_bot_health BOT_TOKEN requests_get = false) as Hhealth
    by by destruct Htoken as [-> | ->].
  assert (truthy_pid (Some pid) = true) as Htruthy by by destruct pid.
  split; [done|]. unfold home, monitor_bot_iteration, stop_bot.
  rewrite Hfound, Htruthy, Hhealth, Hproc, Hterm.
  split; [done|].
  by destruct (proc_wait proc) as [[]|].
Qed.

Lemma missing_token_restarts_bot_witness :
  monitor_bot_iteration (Some [init_process; bot_process]) None (λ _, Some 200%Z)
  = [Terminate 30; StartBot; Sleep 60].
Proof.
  apply (missing_token_restarts_bot (Some [init_process; bot_process]) None
           (λ _, Some 200%Z) 30 bot_process); by auto.
Defined.

(** ** Starting the server *)

Lemma run_loop_cases (app_run : nat -> bool) (acts : list action) :
  run_loop app_run (seq 0 retries) acts
  = (acts ++ (if app_run 0%nat
              then if app_run 1%nat
                   then [StartServer; Sleep 2; StartServer; Sleep 2; StartServer]
                   else [StartServer; Sleep 2; StartServer]
              else [StartServer]),
     app_run 0%nat && app_run 1%nat && app_run 2%nat).
Proof.
  cbn [retries seq run_loop Nat.sub Nat.ltb Nat.leb].
  destruct (app_run 0%nat); cbn [andb]; [|done].
  destruct (app_run 1%nat); cbn [andb]; [|by rewrite <- !(assoc_L (++))].
  destruct (app_run 2%nat); by rewrite <- !(assoc_L (++)).
Qed.

(** X21.  [run] calls [app.run] at least once and at most three times, with 2
    seconds between two calls; it returns as soon as one call returns and lets
    the exception through only when the third call has failed too. Before the
    first call it terminates a process only if the port is in use, and then
    only a process that holds the port. *)
Theorem run_tries_three_times (net_connections : option (list connection))
    (process_iter : option (list process)) (app_run : nat -> bool) (port : Z) :
  let acts := (run net_connections process_iter app_run port).1 in
  let raised := (run net_connections process_iter app_run port).2 in
  raised = app_run 0%nat && app_run 1%nat && app_run 2%nat
  /\ (exists before : list action,
        acts = before ++ (if app_run 0%nat
                          then if app_run 1%nat
                               then [StartServer; Sleep 2; StartServer; Sleep 2;
                                     StartServer]
                               else [StartServer; Sleep 2; StartServer]
                          else [StartServer])
        /\ (check_port_in_use net_connections port = false -> before = [])
        /\ forall pid : Z,
             Terminate pid ∈ before ->
             check_port_in_use net_connections port = true
             /\ exists (procs : list process) (proc : process),
                  process_iter = Some procs /\ proc ∈ procs
                  /\ proc_pid proc = pid /\ holds_port port proc).
Proof.
  cbv zeta. unfold run. rewrite run_loop_cases. cbn [fst snd].
  split; [done|]. eexists. split; [done|].
  destruct (check_port_in_use net_connections port); [|split; [done|]].
  2:{ intros pid Hin. by apply elem_of_nil in Hin. }
  split; [done|]. intros pid Hin. split; [done|].
  apply elem_of_app in Hin as [Hin|Hin].
  2:{ apply list_elem_of_singleton in Hin. discriminate Hin. }
  unfold kill_process_on_port in Hin.
  destruct process_iter as [procs|]; [|by apply elem_of_nil in Hin].
  destruct (kill_process_loop_spec port procs []) as (new & Hacts & Hall & _).
  rewrite Hacts in Hin. cbn [app] in Hin.
  destruct (proj1 (Forall_forall _ _) Hall _ Hin) as (proc & Hp & [= ->] & Hholds & _).
  by exists procs, proc.
Qed.

Lemma run_tries_three_times_witness :
  (run (Some []) (Some [init_process; bot_process])
     (λ attempt, bool_decide (attempt = 0%nat)) 5000).1
  = [StartServer; Sleep 2; StartServer].
Proof.
  destruct (run_tries_three_times (Some []) (Some [init_process; bot_process])
              (λ attempt, bool_decide (attempt = 0%nat)) 5000)
    as (_ & before & Hacts & Hfree & _).
  rewrite Hacts, Hfree by reflexivity. reflexivity.
Defined.
